(** * meta_genie: keyword screening, highlighting and verdict reconciliation

    A shallow embedding of the rule-based keyword matcher
    (rule_based_filter.py), the highlight renderer and the reset operation
    of the review application (streamlit_keyword_review.py) and the
    LLM second pass (llm_secondary_filter.py), with the properties the
    specification states about them.

    Modelling conventions.
    - A Python [str] is a [list ascii]; only 7-bit ASCII text is modelled
      (code points above 127 are caseless non-word, non-space symbols).
    - A regular expression is kept as the pattern string the source builds;
      [Re.compile] parses the fragment of the syntax the source can produce
      from literal keywords and the wildcard templates, and the matcher is a
      backtracking matcher that lists the possible end offsets of a match in
      the order Python's engine tries them.
    - A pandas row is a finite map from column names to cells; a missing
      column reads as NaN. *)

From Stdlib Require Import Ascii String List Arith Bool Lia PeanoNat.
From stdpp Require Import base option list strings gmap.
Import ListNotations.

Local Open Scope nat_scope.
Local Open Scope list_scope.

(** ** Python string primitives *)

Module Py.

Definition str := list ascii.

Definition lit (s : string) : str := list_ascii_of_string s.

Definition code (c : ascii) : nat := nat_of_ascii c.

Definition is_upper (c : ascii) : bool := (65 <=? code c) && (code c <=? 90).
Definition is_lower (c : ascii) : bool := (97 <=? code c) && (code c <=? 122).
Definition is_digit (c : ascii) : bool := (48 <=? code c) && (code c <=? 57).

(** [\w] on ASCII text: letters, digits and the underscore. *)
Definition is_word (c : ascii) : bool :=
  is_upper c || is_lower c || is_digit c || (code c =? 95).

(** Whitespace as [str.split], [str.strip] and [\s] see it on ASCII text:
    TAB, LF, VT, FF, CR, the separators 0x1C-0x1F and the space. *)
Definition is_space (c : ascii) : bool :=
  ((9 <=? code c) && (code c <=? 13)) || ((28 <=? code c) && (code c <=? 32)).

Definition lower_char (c : ascii) : ascii :=
  if is_upper c then ascii_of_nat (code c + 32) else c.

(** [s.lower()] *)
Definition lower (s : str) : str := map lower_char s.

(** [s.startswith(p)] *)
Fixpoint startswith (p s : str) : bool :=
  match p, s with
  | [], _ => true
  | _ :: _, [] => false
  | a :: p', b :: s' => if Ascii.eqb a b then startswith p' s' else false
  end.

(** [needle in hay] *)
Fixpoint contains (needle hay : str) : bool :=
  startswith needle hay ||
  match hay with
  | [] => false
  | _ :: hay' => contains needle hay'
  end.

(** [x in xs] for a list of strings *)
Definition mem (x : str) (xs : list str) : bool :=
  existsb (fun y => bool_decide (x = y)) xs.

Fixpoint split_go (s cur : str) : list str :=
  match s with
  | [] => match cur with [] => [] | _ => [rev cur] end
  | c :: s' =>
      if is_space c
      then match cur with
           | [] => split_go s' []
           | _ => rev cur :: split_go s' []
           end
      else split_go s' (c :: cur)
  end.

(** [s.split()]: the maximal runs of non-whitespace characters *)
Definition split (s : str) : list str := split_go s [].

Fixpoint lstrip (s : str) : str :=
  match s with
  | c :: s' => if is_space c then lstrip s' else s
  | [] => []
  end.

(** [s.strip()] *)
Definition strip (s : str) : str := rev (lstrip (rev (lstrip s))).

(** [s[a:b]] for [0 <= a], [0 <= b] *)
Definition slice (s : str) (a b : nat) : str := firstn (b - a) (skipn a s).

(** [sep.join(xs)] *)
Fixpoint join (sep : str) (xs : list str) : str :=
  match xs with
  | [] => []
  | [x] => x
  | x :: xs' => x ++ sep ++ join sep xs'
  end.

(** [s.replace(old, new)] for a one-character [old] *)
Definition replace_char (old : ascii) (new : str) (s : str) : str :=
  flat_map (fun c => if Ascii.eqb c old then new else [c]) s.

(** A [for] loop over [xs] that threads the state [a]; [None] is a raised
    exception (for instance [re.error] from a pattern that does not compile). *)
Fixpoint for_each {A B : Type} (f : A -> B -> option A) (xs : list B) (a : A)
    : option A :=
  match xs with
  | [] => Some a
  | x :: xs' => f a x ≫= for_each f xs'
  end.

End Py.

(** ** The [re] module, on the fragment of the syntax the source uses *)

Module Re.
Import Py.

Inductive cset : Type :=
| CLit (c : ascii)   (* a literal character *)
| CWord              (* \w *)
| CSpace.            (* \s *)

Inductive node : Type :=
| NBound             (* \b *)
| NOne (cs : cset)
| NStar (cs : cset)  (* greedy x* *)
| NPlus (cs : cset). (* greedy x+ *)

Definition regex := list node.

Inductive token : Type :=
| TBound
| TSet (cs : cset)
| TStar
| TPlus.

(** Characters with a meaning of their own in a pattern. *)
Definition is_meta (c : ascii) : bool :=
  existsb (Ascii.eqb c) (lit ".^$*+?{}[]()|\").

Definition is_alnum (c : ascii) : bool := is_upper c || is_lower c || is_digit c.

(** First pass of [re.compile]: escapes and literal characters.  [None] is a
    pattern outside the modelled fragment (Python either rejects it or gives
    it a meaning this model does not cover). *)
Fixpoint tokens (p : str) : option (list token) :=
  match p with
  | [] => Some []
  | c :: p' =>
      if Ascii.eqb c "\"
      then match p' with
           | [] => None
           | e :: p'' =>
               if Ascii.eqb e "b" then cons TBound <$> tokens p''
               else if Ascii.eqb e "w" then cons (TSet CWord) <$> tokens p''
               else if Ascii.eqb e "s" then cons (TSet CSpace) <$> tokens p''
               else if is_alnum e then None
               else cons (TSet (CLit e)) <$> tokens p''
           end
      else if Ascii.eqb c "*" then cons TStar <$> tokens p'
      else if Ascii.eqb c "+" then cons TPlus <$> tokens p'
      else if is_meta c then None
      else cons (TSet (CLit c)) <$> tokens p'
  end.

Definition starts_with_quantifier (ts : list token) : bool :=
  match ts with
  | TStar :: _ | TPlus :: _ => true
  | _ => false
  end.

(** Second pass: attach each quantifier to the atom before it. *)
Fixpoint nodes (ts : list token) : option regex :=
  match ts with
  | [] => Some []
  | TBound :: ts' =>
      if starts_with_quantifier ts' then None else cons NBound <$> nodes ts'
  | TSet cs :: ts' =>
      match ts' with
      | TStar :: ts'' =>
          if starts_with_quantifier ts'' then None else cons (NStar cs) <$> nodes ts''
      | TPlus :: ts'' =>
          if starts_with_quantifier ts'' then None else cons (NPlus cs) <$> nodes ts''
      | _ => cons (NOne cs) <$> nodes ts'
      end
  | TStar :: _ | TPlus :: _ => None
  end.

(** [re.compile(p)] *)
Definition compile (p : str) : option regex := tokens p ≫= nodes.

(** The characters [re.escape] puts a backslash before. *)
Definition is_special (c : ascii) : bool :=
  existsb (Ascii.eqb c) (lit "()[]{}?*+-|^$\.&~# ") ||
  ((9 <=? code c) && (code c <=? 13)).

(** [re.escape(s)] *)
Definition escape (s : str) : str :=
  flat_map (fun c => if is_special c then ["\"%char; c] else [c]) s.

(** One character against a character set; [ic] is [re.IGNORECASE]. *)
Definition cset_match (ic : bool) (cs : cset) (c : ascii) : bool :=
  match cs with
  | CLit a => if ic then Ascii.eqb (lower_char a) (lower_char c) else Ascii.eqb a c
  | CWord => is_word c
  | CSpace => is_space c
  end.

Definition word_opt (o : option ascii) : bool :=
  match o with Some c => is_word c | None => false end.

(** [\b] between the character before the cursor and the one at it *)
Definition at_boundary (prev : option ascii) (s : str) : bool :=
  xorb (word_opt prev) (word_opt (head s)).

(** Greedy repetition of a one-character set followed by the continuation
    [k]: the longest run is tried first, then shorter ones. *)
Fixpoint star (ic : bool) (cs : cset) (k : option ascii -> str -> list nat)
    (prev : option ascii) (s : str) : list nat :=
  match s with
  | c :: s' =>
      if cset_match ic cs c
      then map S (star ic cs k (Some c) s') ++ k prev s
      else k prev s
  | [] => k prev s
  end.

(** The lengths of the matches of [r] that start at the cursor, in the order
    the backtracking engine finds them.  [prev] is the character before the
    cursor and [s] the text from the cursor on. *)
Fixpoint run (ic : bool) (r : regex) (prev : option ascii) (s : str) : list nat :=
  match r with
  | [] => [0]
  | NBound :: r' => if at_boundary prev s then run ic r' prev s else []
  | NOne cs :: r' =>
      match s with
      | c :: s' => if cset_match ic cs c then map S (run ic r' (Some c) s') else []
      | [] => []
      end
  | NStar cs :: r' => star ic cs (run ic r') prev s
  | NPlus cs :: r' =>
      match s with
      | c :: s' =>
          if cset_match ic cs c
          then map S (star ic cs (run ic r') (Some c) s')
          else []
      | [] => []
      end
  end.

(** The engine's scan: try the cursor, then every later offset.  With
    [must_advance] an empty match at the first offset is refused (the
    engine then looks for another way to match there before moving on). *)
Fixpoint search_at (ic : bool) (r : regex) (prev : option ascii) (s : str)
    (pos : nat) (must_advance : bool) : option (nat * nat) :=
  let ends := run ic r prev s in
  let ends := if must_advance then List.filter (fun e => negb (e =? 0)) ends else ends in
  match ends with
  | e :: _ => Some (pos, pos + e)
  | [] =>
      match s with
      | [] => None
      | c :: s' => search_at ic r (Some c) s' (S pos) false
      end
  end.

Definition char_before (t : str) (pos : nat) : option ascii :=
  match pos with
  | 0 => None
  | S p => nth_error t p
  end.

(** A search of [t] from offset [start]; the match is a pair (start, end). *)
Definition search_from (ic : bool) (r : regex) (t : str) (start : nat)
    (must_advance : bool) : option (nat * nat) :=
  if start <=? length t
  then search_at ic r (char_before t start) (skipn start t) start must_advance
  else None.

(** [re.search(p, t)] as a truth value *)
Definition search (ic : bool) (r : regex) (t : str) : bool :=
  match search_from ic r t 0 false with Some _ => true | None => false end.

(** The scanner behind [finditer]: after a match the next search starts at
    its end, and after an empty match it must advance. *)
Fixpoint finditer_loop (fuel : nat) (ic : bool) (r : regex) (t : str)
    (start : nat) (must_advance : bool) : list (nat * nat) :=
  match fuel with
  | 0 => []
  | S fuel' =>
      match search_from ic r t start must_advance with
      | None => []
      | Some (s, e) => (s, e) :: finditer_loop fuel' ic r t e (e =? s)
      end
  end.

(** [p.finditer(t)]: the spans of the successive matches.  Every round either
    moves the cursor or sets [must_advance], so [2 * len(t) + 2] rounds
    are enough (lemma [finditer_fuel_enough]). *)
Definition finditer (ic : bool) (r : regex) (t : str) : list (nat * nat) :=
  finditer_loop (2 * length t + 2) ic r t 0 false.

Definition is_delim (c : ascii) : bool :=
  Ascii.eqb c "." || Ascii.eqb c "!" || Ascii.eqb c "?".

Fixpoint split_delims (s cur : str) (in_run : bool) : list str :=
  match s with
  | [] => [rev cur]
  | c :: s' =>
      if is_delim c
      then if in_run then split_delims s' [] true
           else rev cur :: split_delims s' [] true
      else split_delims s' (c :: cur) false
  end.

(** [re.split(r'[.!?]+', t)] *)
Definition split_sentences (t : str) : list str := split_delims t [] false.

Fixpoint sub_space_runs (s : str) (in_run : bool) : str :=
  match s with
  | [] => []
  | c :: s' =>
      if is_space c
      then if in_run then sub_space_runs s' true
           else lit "\s+" ++ sub_space_runs s' true
      else c :: sub_space_runs s' false
  end.

(** [re.sub(r'\s+', r'\\s+', s)]: every run of whitespace becomes the three
    characters backslash, s, plus. *)
Definition sub_spaces (s : str) : str := sub_space_runs s false.

End Re.

(** ** rule_based_filter.py *)

Module RuleBasedFilter.
Import Py.

Definition depression_keywords : list str :=
  map lit ["depression"; "depressive symptoms"; "depressive disorder"]%string.

Definition mobile_keywords : list str :=
  map lit ["mobile application"; "smartphone application"; "mobile";
           "smartphone"; "iphone"; "android"; "app"; "digital";
           "digital therapeutic"; "digital therapeutics"; "mhealth"]%string.

Definition behavioral_base_keywords : list str :=
  map lit ["behavioral activation"; "behavioural activation"]%string.

Definition behavioral_patterns : list str :=
  map lit ["\bactivity schedul\w*";
           "\bbehavio\w*\s+interven\w*";
           "\bbehavio\w*\s+therap\w*"]%string.

(** The inner [for sentence in sentences: if ...: append; break]: the first
    sentence whose lower-cased form satisfies [test], stripped. *)
Definition first_sentence (test : str -> bool) (sentences : list str) : list str :=
  match List.find (fun sentence => test (lower sentence)) sentences with
  | Some sentence => [strip sentence]
  | None => []
  end.

(** One round of the keyword loop of [find_keywords_in_text]; the state is
    the pair (found_keywords, found_sentences). *)
Definition keyword_step (text_lower : str) (sentences : list str)
    (st : list str * list str) (keyword : str) : option (list str * list str) :=
  let keyword_lower := lower keyword in
  if length (split keyword) =? 1
  then
    pattern ← Re.compile (lit "\b" ++ Re.escape keyword_lower ++ lit "\b");
    Some (if Re.search false pattern text_lower
          then (st.1 ++ [keyword],
                st.2 ++ first_sentence (Re.search false pattern) sentences)
          else st)
  else
    Some (if contains keyword_lower text_lower
          then (st.1 ++ [keyword],
                st.2 ++ first_sentence (contains keyword_lower) sentences)
          else st).

Definition find_keywords_in_text (text : str) (keywords : list str)
    : option (list str * list str) :=
  match text with
  | [] => Some ([], [])
  | _ =>
      let text_lower := lower text in
      let sentences := Re.split_sentences text in
      for_each (keyword_step text_lower sentences) keywords ([], [])
  end.

(** The body of [for match in matches] in
    [find_behavioral_keywords_in_text]; [m] is the span of the match in
    [text_lower]. *)
Definition match_step (text_lower : str) (sentences : list str)
    (st : list str * list str) (m : nat * nat) : list str * list str :=
  let matched_text := slice text_lower m.1 m.2 in
  if mem matched_text (map lower st.1)
  then st
  else (st.1 ++ [matched_text],
        st.2 ++ first_sentence (contains matched_text) sentences).

Definition pattern_step (text_lower : str) (sentences : list str)
    (st : list str * list str) (pattern : str) : option (list str * list str) :=
  r ← Re.compile pattern;
  Some (fold_left (match_step text_lower sentences) (Re.finditer true r text_lower) st).

Definition find_behavioral_keywords_in_text (text : str)
    : option (list str * list str) :=
  match text with
  | [] => Some ([], [])
  | _ =>
      let text_lower := lower text in
      let sentences := Re.split_sentences text in
      base ← find_keywords_in_text text behavioral_base_keywords;
      for_each (pattern_step text_lower sentences) behavioral_patterns base
  end.

(** The dictionary [evaluate_single_paper] returns. *)
Record evaluation : Type := {
  ev_depression_keywords : str;
  ev_mobile_keywords : str;
  ev_behavioral_keywords : str;
  ev_result : str
}.

Definition evaluate_single_paper (title abstract : str) : option evaluation :=
  let full_text := title ++ lit " " ++ abstract in
  depression ← find_keywords_in_text full_text depression_keywords;
  mobile ← find_keywords_in_text full_text mobile_keywords;
  behavioral ← find_behavioral_keywords_in_text full_text;
  let has_depression := 0 <? length depression.1 in
  let has_mobile := 0 <? length mobile.1 in
  let has_behavioral := 0 <? length behavioral.1 in
  let result :=
    if has_depression && has_mobile && has_behavioral
    then lit "include" else lit "exclude" in
  Some {| ev_depression_keywords := join (lit ", ") depression.1;
          ev_mobile_keywords := join (lit ", ") mobile.1;
          ev_behavioral_keywords := join (lit ", ") behavioral.1;
          ev_result := result |}.

End RuleBasedFilter.

(** ** streamlit_keyword_review.py *)

Module KeywordReview.
Import Py.

(** *** The highlighter *)

Definition convert_wildcard_to_regex (keyword : str) : option str :=
  if existsb (Ascii.eqb "*") keyword
  then
    let regex_pattern := replace_char "*" (lit "\w*") keyword in
    let regex_pattern := Re.sub_spaces regex_pattern in
    Some (lit "\b" ++ regex_pattern ++ lit "\b")
  else None.

(** The pattern string a keyword is compiled from (always with
    [re.IGNORECASE]); [use_word_boundary] is the session's flag. *)
Definition keyword_pattern (use_word_boundary : bool) (keyword : str) : str :=
  match convert_wildcard_to_regex keyword with
  | Some wildcard_pattern => wildcard_pattern
  | None =>
      if use_word_boundary
      then if length (split keyword) =? 1
           then lit "\b" ++ Re.escape keyword ++ lit "\b"
           else Re.escape keyword
      else Re.escape keyword
  end.

(** An entry of [all_matches]. *)
Record hmatch : Type := {
  m_start : nat;
  m_end : nat;
  m_text : str;
  m_class : str
}.

Definition keyword_matches (use_word_boundary : bool) (text class_name : str)
    (all_matches : list hmatch) (keyword : str) : option (list hmatch) :=
  pattern ← Re.compile (keyword_pattern use_word_boundary keyword);
  Some (all_matches ++
        map (fun m => {| m_start := m.1; m_end := m.2;
                         m_text := slice text m.1 m.2;
                         m_class := class_name |})
            (Re.finditer true pattern text)).

(** [all_selected_keywords.items()], in iteration order: each category with
    its keywords in the order the loop visits them. *)
Definition selection := list (str * list str).

Definition category_matches (use_word_boundary : bool) (text : str)
    (all_matches : list hmatch) (item : str * list str) : option (list hmatch) :=
  match item.2 with
  | [] => Some all_matches
  | keywords =>
      let class_name := lit "highlight-" ++ item.1 in
      for_each (keyword_matches use_word_boundary text class_name) keywords all_matches
  end.

Definition collect_matches (use_word_boundary : bool) (text : str)
    (all_selected_keywords : selection) : option (list hmatch) :=
  for_each (category_matches use_word_boundary text) all_selected_keywords [].

Fixpoint insert_desc (m : hmatch) (sorted : list hmatch) : list hmatch :=
  match sorted with
  | [] => [m]
  | x :: sorted' =>
      if m_start x <=? m_start m then m :: sorted
      else x :: insert_desc m sorted'
  end.

(** [all_matches.sort(key=start, reverse=True)]: the sort is stable, matches
    with the same start keep the order they were found in. *)
Definition sort_matches (all_matches : list hmatch) : list hmatch :=
  fold_right insert_desc [] all_matches.

Definition overlaps (m existing : hmatch) : bool :=
  (m_start m <? m_end existing) && (m_start existing <? m_end m).

Definition keep_step (filtered_matches : list hmatch) (m : hmatch) : list hmatch :=
  if existsb (overlaps m) filtered_matches
  then filtered_matches
  else filtered_matches ++ [m].

Definition filter_overlaps (sorted : list hmatch) : list hmatch :=
  fold_left keep_step sorted [].

Definition dquote : ascii := "034"%char.

Definition span_open (class_name : str) : str :=
  lit "<span class=" ++ [dquote] ++ class_name ++ [dquote] ++ lit ">".

Definition span_close : str := lit "</span>".

Definition apply_match (highlighted_text : str) (m : hmatch) : str :=
  firstn (m_start m) highlighted_text ++
  span_open (m_class m) ++ m_text m ++ span_close ++
  skipn (m_end m) highlighted_text.

(** The spans the highlighter applies. *)
Definition kept_matches (use_word_boundary : bool) (text : str)
    (all_selected_keywords : selection) : option (list hmatch) :=
  all_matches ← collect_matches use_word_boundary text all_selected_keywords;
  Some (filter_overlaps (sort_matches all_matches)).

Definition highlight_all_keywords (use_word_boundary : bool) (text : str)
    (all_selected_keywords : selection) : option str :=
  match text with
  | [] => Some text
  | _ =>
      filtered_matches ← kept_matches use_word_boundary text all_selected_keywords;
      Some (fold_left apply_match filtered_matches text)
  end.

(** The same computation on characters that remember where they come
    from: [true] marks a character of an inserted marker, [false] a
    character of the text.  Forgetting the marks gives
    [highlight_all_keywords] (lemma [erase_highlight_tracked]); dropping the
    marked characters is what stripping the inserted markers means. *)
Definition tracked := list (ascii * bool).

Definition markup (s : str) : tracked := map (fun c => (c, true)) s.
Definition content (s : str) : tracked := map (fun c => (c, false)) s.
Definition erase (t : tracked) : str := map fst t.
Definition strip_markers (t : tracked) : str :=
  map fst (List.filter (fun p => negb p.2) t).

Definition apply_match_tracked (highlighted_text : tracked) (m : hmatch) : tracked :=
  firstn (m_start m) highlighted_text ++
  markup (span_open (m_class m)) ++ content (m_text m) ++ markup span_close ++
  skipn (m_end m) highlighted_text.

Definition highlight_tracked (use_word_boundary : bool) (text : str)
    (all_selected_keywords : selection) : option tracked :=
  match text with
  | [] => Some (content text)
  | _ =>
      filtered_matches ← kept_matches use_word_boundary text all_selected_keywords;
      Some (fold_left apply_match_tracked filtered_matches (content text))
  end.

(** *** The review session *)

(** A cell of the data frame: a string, or NaN / [None]. *)
Inductive cell : Type :=
| NaN
| Str (s : string).

#[global] Instance cell_eq_dec : EqDecision cell.
Proof. solve_decision. Defined.

(** The part of [st.session_state] the review buttons touch.  The frame
    maps an index label to a row and a row maps a column to its cell. *)
Record session : Type := {
  current_idx : nat;
  df : gmap nat (gmap string cell);
  changes_made : bool;
  reviewer_name : string;
  selected_keywords : gmap string (gset string);
  use_word_boundary : bool;
  data_page : nat
}.

(** [df.at[idx, col] = v]; setting a cell of a row that does not exist
    creates the row. *)
Definition at_set (idx : nat) (col : string) (v : cell)
    (d : gmap nat (gmap string cell)) : gmap nat (gmap string cell) :=
  <[idx := <[col := v]> (default ∅ (d !! idx))]> d.

Definition load_current_paper_keywords : gmap string (gset string) :=
  {[ "depression"%string :=
       list_to_set ["depression"; "depressive symptoms"; "depressive disorder"]%string;
     "mobile"%string :=
       list_to_set ["mobile application"; "smartphone application"; "mobile";
                    "smartphone"; "iphone"; "android"; "app"; "digital";
                    "digital therapeutic"; "mhealth"]%string;
     "behavioral"%string :=
       list_to_set ["behavioral activation"; "behavioural activation";
                    "activity schedul*"; "behavio* interven*";
                    "behavio* therap*"]%string ]}.

(** The handler of the reset button in [render_data_navigation]. *)
Definition reset (st : session) : session :=
  let idx := current_idx st in
  let d := df st in
  let d := at_set idx "human_depression_keywords" (Str "") d in
  let d := at_set idx "human_mobile_keywords" (Str "") d in
  let d := at_set idx "human_behavioral_keywords" (Str "") d in
  let d := at_set idx "human_result" (Str "") d in
  let d := at_set idx "review_status" (Str "미완료") d in
  let d := at_set idx "review_date" NaN d in
  {| current_idx := current_idx st;
     df := d;
     changes_made := true;
     reviewer_name := reviewer_name st;
     selected_keywords := load_current_paper_keywords;
     use_word_boundary := use_word_boundary st;
     data_page := data_page st |}.

(** The columns the reset button writes. *)
Definition reset_columns : list string :=
  ["human_depression_keywords"; "human_mobile_keywords";
   "human_behavioral_keywords"; "human_result"; "review_status";
   "review_date"]%string.

End KeywordReview.

(** ** llm_secondary_filter.py *)

Module LLMSecondaryFilter.
Import KeywordReview.

Abbreviation row := (gmap string cell).

(** [row.get(col, default)] *)
Definition get (r : row) (col : string) (default : cell) : cell :=
  match r !! col with Some v => v | None => default end.

(** [str(v)] *)
Definition to_str (v : cell) : string :=
  match v with NaN => "nan"%string | Str s => s end.

(** What [json.loads] can return: a dictionary, or a value of another type
    with its truth value. *)
Inductive json : Type :=
| JDict (d : row)
| JOther (truthy : bool).

(** [bool(v)] *)
Definition truthy (v : json) : bool :=
  match v with
  | JDict d => negb (bool_decide (d = ∅))
  | JOther b => b
  end.

(** The arguments of one LLM call. *)
Record request : Type := {
  q_title : string;
  q_abstract : string;
  q_existing_depression : string;
  q_existing_mobile : string;
  q_existing_behavioral : string
}.

Fixpoint find_from (sub s : Py.str) (pos : nat) : option nat :=
  if Py.startswith sub s then Some pos
  else match s with
       | [] => None
       | _ :: s' => find_from sub s' (S pos)
       end.

(** [s.find(sub, start)]; [None] is the result -1. *)
Definition find (sub s : Py.str) (start : nat) : option nat :=
  if start <=? length s then find_from sub (skipn start s) start else None.

Fixpoint rfind_from (sub s : Py.str) (pos : nat) : option nat :=
  match s with
  | [] => if Py.startswith sub s then Some pos else None
  | _ :: s' =>
      match rfind_from sub s' (S pos) with
      | Some p => Some p
      | None => if Py.startswith sub s then Some pos else None
      end
  end.

(** [s.rfind(sub)]; [None] is the result -1. *)
Definition rfind (sub s : Py.str) : option nat := rfind_from sub s 0.

(** The text [_parse_fallback_response] hands to [json.loads]. *)
Definition json_block (response_text : Py.str) : Py.str :=
  if Py.contains (Py.lit "```json") response_text
  then
    match find (Py.lit "```json") response_text 0 with
    | Some i =>
        let json_start := i + 7 in
        match find (Py.lit "```") response_text json_start with
        | Some json_end => Py.strip (Py.slice response_text json_start json_end)
        | None =>
            (* json_end = -1: the slice stops before the last character *)
            Py.strip (Py.slice response_text json_start (length response_text - 1))
        end
    | None => response_text
    end
  else
    match find (Py.lit "{") response_text 0, rfind (Py.lit "}") response_text with
    | Some json_start, Some j => Py.slice response_text json_start (j + 1)
    | _, _ => response_text
    end.

Section WithCollaborators.

(** The external collaborators.  [chain_invoke] is the structured call
    [prompt | llm | parser] followed by [.dict()], [llm_invoke] the raw
    call that returns the response text, [json_loads] the JSON parser;
    [None] is a raised exception. *)
Variable chain_invoke : request -> option row.
Variable llm_invoke : request -> option Py.str.
Variable json_loads : Py.str -> option json.

Definition _parse_fallback_response (response_text : Py.str) : option json :=
  json_loads (json_block response_text).

(** [None] is the function's [return None]. *)
Definition process_single_article (q : request) : option json :=
  match chain_invoke q with
  | Some result_dict => Some (JDict result_dict)
  | None =>
      match llm_invoke q with
      | Some response_text =>
          match _parse_fallback_response response_text with
          | Some result_dict =>
              if truthy result_dict then Some result_dict else None
          | None => None
          end
      | None => None
      end
  end.

(** The ten entries every result dictionary starts with. *)
Definition rule_entries (r : row) (title abstract : string)
    (existing_depression existing_mobile existing_behavioral : string)
    : list (string * cell) :=
  [("DOI", get r "DOI" (Str ""));
   ("Title", Str title);
   ("Authors", get r "Authors" (Str ""));
   ("Journal/Book", get r "Journal/Book" (Str ""));
   ("Publication Year", get r "Publication Year" (Str ""));
   ("Abstract", Str abstract);
   ("rule_depression_keywords", Str existing_depression);
   ("rule_mobile_keywords", Str existing_mobile);
   ("rule_behavioral_keywords", Str existing_behavioral);
   ("rule_result", Str "exclude")]%string.

(** The entries of a record that gets no LLM verdict, with its reason. *)
Definition excluded_entries (reason : string) : list (string * cell) :=
  [("llm_depression_keywords", Str "");
   ("llm_mobile_keywords", Str "");
   ("llm_behavioral_keywords", Str "");
   ("llm_result", Str "exclude");
   ("llm_depression_highlight", Str "");
   ("llm_mobile_highlight", Str "");
   ("llm_behavioral_highlight", Str "");
   ("llm_reason", Str reason);
   ("final_result", Str "exclude")]%string.

Definition llm_entries (llm_result : row) : list (string * cell) :=
  [("llm_depression_keywords", get llm_result "depression_keywords" (Str ""));
   ("llm_mobile_keywords", get llm_result "mobile_keywords" (Str ""));
   ("llm_behavioral_keywords", get llm_result "behavioral_keywords" (Str ""));
   ("llm_result", get llm_result "result" (Str "exclude"));
   ("llm_depression_highlight", get llm_result "depression_highlight" (Str ""));
   ("llm_mobile_highlight", get llm_result "mobile_highlight" (Str ""));
   ("llm_behavioral_highlight", get llm_result "behavioral_highlight" (Str ""));
   ("llm_reason", get llm_result "reason" (Str ""));
   ("final_result", get llm_result "result" (Str "exclude"))]%string.

Definition request_of (r : row) : request :=
  {| q_title := to_str (get r "Title" (Str ""));
     q_abstract := to_str (get r "Abstract" (Str ""));
     q_existing_depression := to_str (get r "depression_keywords" (Str ""));
     q_existing_mobile := to_str (get r "mobile_keywords" (Str ""));
     q_existing_behavioral := to_str (get r "behavioral_keywords" (Str "")) |}.

(** [not title or not abstract or title == 'nan' or abstract == 'nan'] *)
Definition missing_text (q : request) : bool :=
  bool_decide (q_title q = ""%string) || bool_decide (q_abstract q = ""%string) ||
  bool_decide (q_title q = "nan"%string) || bool_decide (q_abstract q = "nan"%string).

(** The body of the loop over the excluded records: the result dictionary
    of one record.  [None] is an exception that leaves the loop: a truthy
    reply that is no dictionary has no [get]. *)
Definition process_row (r : row) : option row :=
  let q := request_of r in
  let rule :=
    rule_entries r (q_title q) (q_abstract q) (q_existing_depression q)
      (q_existing_mobile q) (q_existing_behavioral q) in
  if missing_text q
  then Some (list_to_map (rule ++ excluded_entries "제목 또는 초록 누락"))
  else
    match process_single_article q with
    | Some (JDict llm_result) =>
        if truthy (JDict llm_result)
        then Some (list_to_map (rule ++ llm_entries llm_result))
        else Some (list_to_map (rule ++ excluded_entries "LLM 처리 실패"))
    | Some (JOther true) => None
    | Some (JOther false) | None =>
        Some (list_to_map (rule ++ excluded_entries "LLM 처리 실패"))
    end.

(** The loop [for idx in range(start_idx, total_exclude)], appending to
    [results]. *)
Fixpoint process_rows (rows : list row) (results : list row) : option (list row) :=
  match rows with
  | [] => Some results
  | r :: rows' =>
      result ← process_row r;
      process_rows rows' (results ++ [result])
  end.

Definition has_result (verdict : string) (r : row) : bool :=
  bool_decide (r !! "result"%string = Some (Str verdict)).

(** The new columns of a record the rule stage already included; the
    rule-stage columns are copied from the columns of the input frame (a
    column the frame lacks reads as NaN here, pandas raises). *)
Definition include_with_llm (r : row) : row :=
  let r := <["rule_depression_keywords" := get r "depression_keywords" NaN]> r in
  let r := <["rule_mobile_keywords" := get r "mobile_keywords" NaN]> r in
  let r := <["rule_behavioral_keywords" := get r "behavioral_keywords" NaN]> r in
  let r := <["rule_result" := get r "result" NaN]> r in
  let r := <["llm_depression_keywords" := Str ""]> r in
  let r := <["llm_mobile_keywords" := Str ""]> r in
  let r := <["llm_behavioral_keywords" := Str ""]> r in
  let r := <["llm_result" := Str "not_processed"]> r in
  let r := <["llm_depression_highlight" := Str ""]> r in
  let r := <["llm_mobile_highlight" := Str ""]> r in
  let r := <["llm_behavioral_highlight" := Str ""]> r in
  let r := <["llm_reason" := Str "이미 규칙 기반에서 포함됨"]> r in
  <["final_result" := Str "include"]> r.

(** [process_exclude_papers]: [input] is the frame read from the input
    file and [checkpoint] the records of the checkpoint file, if there is
    one that loads.  The result is the frame returned ([None]: an exception
    left the function).  Writing the checkpoint and output files does not
    change the frame returned and is left out. *)
Definition process_exclude_papers (input : list row) (checkpoint : option (list row))
    : option (list row) :=
  let exclude_df := List.filter (has_result "exclude") input in
  let include_df := List.filter (has_result "include") input in
  if length exclude_df =? 0
  then Some input
  else
    let results := match checkpoint with Some rs => rs | None => [] end in
    let start_idx := length results in
    results ← process_rows (skipn start_idx exclude_df) results;
    Some (map include_with_llm include_df ++ results).

End WithCollaborators.

(** The counts of the pipeline summary ([run_pipeline]), read off a frame. *)
Definition is_verdict (col verdict : string) (r : row) : bool :=
  bool_decide (r !! col = Some (Str verdict)).

Definition rule_include_count (input : list row) : nat :=
  length (List.filter (is_verdict "result" "include") input).

Definition rule_exclude_count (input : list row) : nat :=
  length (List.filter (is_verdict "result" "exclude") input).

Definition final_include_count (final : list row) : nat :=
  length (List.filter (is_verdict "final_result" "include") final).

Definition rescue_count (final : list row) : nat :=
  length (List.filter (fun r => is_verdict "rule_result" "exclude" r &&
                                is_verdict "final_result" "include" r) final).

End LLMSecondaryFilter.

(** ** rule_based_filter.py: the frame loop *)

Module RuleStage.
Import Py KeywordReview LLMSecondaryFilter RuleBasedFilter.

Definition text_of (s : string) : str := list_ascii_of_string s.
Definition string_of (t : str) : string := string_of_list_ascii t.

(** [str(row.get(col, ''))], with the text 'nan' (what [str] makes of a
    missing cell) read as the empty string. *)
Definition field (r : row) (col : string) : string :=
  let v := to_str (get r col (Str "")) in
  if bool_decide (v = "nan"%string) then ""%string else v.

(** The six entries every result dictionary of [process_dataframe] starts
    with. *)
Definition source_entries (r : row) (title abstract : string) : list (string * cell) :=
  [("DOI", get r "DOI" (Str ""));
   ("Title", Str title);
   ("Authors", get r "Authors" (Str ""));
   ("Journal/Book", get r "Journal/Book" (Str ""));
   ("Publication Year", get r "Publication Year" (Str ""));
   ("Abstract", Str abstract)]%string.

(** The body of the loop of [process_dataframe]: the result dictionary of
    one row. *)
Definition process_row (r : row) : option row :=
  let title := field r "Title" in
  let abstract := field r "Abstract" in
  if bool_decide (title = ""%string) && bool_decide (abstract = ""%string)
  then
    Some (list_to_map
            (source_entries r title abstract ++
             [("depression_keywords", Str "");
              ("mobile_keywords", Str "");
              ("behavioral_keywords", Str "");
              ("result", Str "exclude")]%string))
  else
    rule_result ← evaluate_single_paper (text_of title) (text_of abstract);
    Some (list_to_map
            (source_entries r title abstract ++
             [("depression_keywords", Str (string_of (ev_depression_keywords rule_result)));
              ("mobile_keywords", Str (string_of (ev_mobile_keywords rule_result)));
              ("behavioral_keywords", Str (string_of (ev_behavioral_keywords rule_result)));
              ("result", Str (string_of (ev_result rule_result)))]%string)).

(** [process_dataframe]: one result per row, in the order of the rows. *)
Fixpoint process_dataframe (df : list row) : option (list row) :=
  match df with
  | [] => Some []
  | r :: df' =>
      result ← process_row r;
      results ← process_dataframe df';
      Some (result :: results)
  end.

End RuleStage.

(** ** streamlit_keyword_review.py: loading, selecting, deciding, paging *)

Module ReviewSession.
Import Py KeywordReview LLMSecondaryFilter.

Definition is_separator (c : ascii) : bool :=
  Ascii.eqb c "," || Ascii.eqb c ";" || Ascii.eqb c "|".

(** [re.split(r'[,;|]', s)]: the pieces between the separators, empty
    pieces included. *)
Fixpoint split_on (sep : ascii -> bool) (s cur : str) : list str :=
  match s with
  | [] => [rev cur]
  | c :: s' =>
      if sep c then rev cur :: split_on sep s' []
      else split_on sep s' (c :: cur)
  end.

Definition nonempty (s : str) : bool :=
  match s with [] => false | _ => true end.

Definition parse_keywords (keywords_str : cell) : list str :=
  match keywords_str with
  | NaN => []
  | Str s =>
      let s := RuleStage.text_of s in
      if nonempty (strip s)
      then List.filter nonempty (map strip (split_on is_separator s []))
      else []
  end.

(** A data frame with its column index. *)
Record frame : Type := {
  columns : list string;
  rows : list row
}.

Definition has_column (f : frame) (col : string) : bool :=
  existsb (String.eqb col) (columns f).

(** [df[col] = value], where [value] may depend on the row (a column of
    the frame) or not (a scalar): a new column goes to the end of the
    index. *)
Definition assign_column (col : string) (value : row -> cell) (f : frame) : frame :=
  {| columns := if has_column f col then columns f else columns f ++ [col];
     rows := map (fun r => <[col := value r]> r) (rows f) |}.

(** [df.get(col, '')]: the column, or the empty string for every row. *)
Definition column_or_empty (f : frame) (col : string) : row -> cell :=
  if has_column f col then fun r => get r col NaN else fun _ => Str "".

Definition add_if_missing (col : string) (value : frame -> row -> cell) (f : frame) : frame :=
  if has_column f col then f else assign_column col (value f) f.

Definition required_columns : list string :=
  ["Title"; "Abstract"; "depression_keywords"; "mobile_keywords";
   "behavioral_keywords"; "result"]%string.

Definition review_columns : list (string * cell) :=
  [("human_depression_keywords", Str "");
   ("human_mobile_keywords", Str "");
   ("human_behavioral_keywords", Str "");
   ("human_result", Str "");
   ("reviewer_name", Str "");
   ("review_status", Str "미완료");
   ("review_date", NaN)]%string.

(** [process_loaded_df]; [None] is the error return (a required column is
    missing). *)
Definition process_loaded_df (f : frame) : option frame :=
  let is_hybrid :=
    forallb (has_column f) ["rule_result"; "llm_result"; "final_result"]%string in
  let f :=
    if is_hybrid
    then
      let f := add_if_missing "depression_keywords"
                 (fun f => column_or_empty f "rule_depression_keywords") f in
      let f := add_if_missing "mobile_keywords"
                 (fun f => column_or_empty f "rule_mobile_keywords") f in
      let f := add_if_missing "behavioral_keywords"
                 (fun f => column_or_empty f "rule_behavioral_keywords") f in
      add_if_missing "result" (fun f => column_or_empty f "rule_result") f
    else f in
  let missing_columns := List.filter (fun col => negb (has_column f col)) required_columns in
  match missing_columns with
  | _ :: _ => None
  | [] =>
      Some (fold_left (fun f cv => add_if_missing cv.1 (fun _ _ => cv.2) f)
              review_columns f)
  end.

Definition with_selection (st : session) (sel : gmap string (gset string)) : session :=
  {| current_idx := current_idx st;
     df := df st;
     changes_made := changes_made st;
     reviewer_name := reviewer_name st;
     selected_keywords := sel;
     use_word_boundary := use_word_boundary st;
     data_page := data_page st |}.

(** [toggle_keyword_selection]; [None] is the [KeyError] of a category the
    selection does not have. *)
Definition toggle_keyword_selection (category keyword : string) (st : session)
    : option session :=
  selected ← selected_keywords st !! category;
  Some (with_selection st
          (<[category :=
               if bool_decide (keyword ∈ selected)
               then selected ∖ {[keyword]}
               else selected ∪ {[keyword]}]> (selected_keywords st))).

Fixpoint insert_sorted (x : string) (l : list string) : list string :=
  match l with
  | [] => [x]
  | y :: l' => if String.leb x y then x :: l else y :: insert_sorted x l'
  end.

(** [sorted(s)] for a set of strings *)
Definition sorted (s : gset string) : list string :=
  fold_right insert_sorted [] (elements s).

(** The seven cells a decision writes to the current record. *)
Definition write_decision (idx : nat) (human_depression human_mobile human_behavioral
    human_result reviewer status now : string)
    (d : gmap nat (gmap string cell)) : gmap nat (gmap string cell) :=
  let d := at_set idx "human_depression_keywords" (Str human_depression) d in
  let d := at_set idx "human_mobile_keywords" (Str human_mobile) d in
  let d := at_set idx "human_behavioral_keywords" (Str human_behavioral) d in
  let d := at_set idx "human_result" (Str human_result) d in
  let d := at_set idx "reviewer_name" (Str reviewer) d in
  let d := at_set idx "review_status" (Str status) d in
  at_set idx "review_date" (Str now) d.

(** [update_paper_data]; [now] is the formatted time of the call.  [None]
    is the [KeyError] of a selection without one of the three categories. *)
Definition update_paper_data (now : string) (st : session) : option session :=
  depression ← selected_keywords st !! "depression"%string;
  mobile ← selected_keywords st !! "mobile"%string;
  behavioral ← selected_keywords st !! "behavioral"%string;
  let human_depression := String.concat ", " (sorted depression) in
  let human_mobile := String.concat ", " (sorted mobile) in
  let human_behavioral := String.concat ", " (sorted behavioral) in
  let has_all_categories :=
    (0 <? size depression) && (0 <? size mobile) && (0 <? size behavioral) in
  let human_result := if has_all_categories then "include"%string else "exclude"%string in
  Some {| current_idx := current_idx st;
          df := write_decision (current_idx st) human_depression human_mobile
                  human_behavioral human_result (reviewer_name st) "완료" now (df st);
          changes_made := true;
          reviewer_name := reviewer_name st;
          selected_keywords := selected_keywords st;
          use_word_boundary := use_word_boundary st;
          data_page := data_page st |}.

Definition items_per_page : nat := 10.

(** The end of the INCLUDE and EXCLUDE handlers: go to the next record,
    if there is one, and to the page it is on. *)
Definition next_record (selection : gmap string (gset string))
    (d : gmap nat (gmap string cell)) (st : session) : session :=
  let idx := current_idx st in
  if idx + 1 <? size d
  then {| current_idx := idx + 1;
          df := d;
          changes_made := true;
          reviewer_name := reviewer_name st;
          selected_keywords := load_current_paper_keywords;
          use_word_boundary := use_word_boundary st;
          data_page := (idx + 1) / items_per_page |}
  else {| current_idx := idx;
          df := d;
          changes_made := true;
          reviewer_name := reviewer_name st;
          selected_keywords := selection;
          use_word_boundary := use_word_boundary st;
          data_page := data_page st |}.

(** The handler of the INCLUDE button. *)
Definition force_include (now : string) (st : session) : session :=
  let selection : gmap string (gset string) :=
    {[ "depression"%string := {[ "depression"%string ]};
       "mobile"%string := {[ "mobile"%string ]};
       "behavioral"%string := {[ "behavioral activation"%string ]} ]} in
  let d := write_decision (current_idx st) "depression" "mobile" "behavioral activation"
             "include" (reviewer_name st) "include" now (df st) in
  next_record selection d st.

(** The handler of the EXCLUDE button. *)
Definition force_exclude (now : string) (st : session) : session :=
  let selection : gmap string (gset string) :=
    {[ "depression"%string := ∅; "mobile"%string := ∅; "behavioral"%string := ∅ ]} in
  let d := write_decision (current_idx st) "" "" "" "exclude" (reviewer_name st)
             "exclude" now (df st) in
  next_record selection d st.

(** The paging of [render_data_navigation] over the filtered list. *)
Definition total_pages (total_items : nat) : nat :=
  (total_items + items_per_page - 1) / items_per_page.

Definition clamp_page (data_page total_items : nat) : nat :=
  if total_pages total_items <=? data_page
  then Nat.max 0 (total_pages total_items - 1)
  else data_page.

(** [df.iloc[start_idx:end_idx]] *)
Definition iloc {A : Type} (l : list A) (start_idx end_idx : nat) : list A :=
  firstn (end_idx - start_idx) (skipn start_idx l).

Definition page_data {A : Type} (l : list A) (data_page : nat) : list A :=
  let total_items := length l in
  let start_idx := data_page * items_per_page in
  let end_idx := Nat.min (start_idx + items_per_page) total_items in
  iloc l start_idx end_idx.

End ReviewSession.

(** ** extract_abstract/extract_by_title_matching.py *)

Module TitleMatching.
Import Py KeywordReview.

(** [re.sub(r'[^\w\s]', ' ', s)] *)
Definition blank_punctuation (s : str) : str :=
  map (fun c => if is_word c || is_space c then c else " "%char) s.

Fixpoint collapse_runs (s : str) (in_run : bool) : str :=
  match s with
  | [] => []
  | c :: s' =>
      if is_space c
      then if in_run then collapse_runs s' true
           else " "%char :: collapse_runs s' true
      else c :: collapse_runs s' false
  end.

(** [re.sub(r'\s+', ' ', s)] *)
Definition collapse_spaces (s : str) : str := collapse_runs s false.

Definition normalize_title (title : str) : str :=
  match title with
  | [] => []
  | _ =>
      let normalized := lower title in
      let normalized := blank_punctuation normalized in
      let normalized := collapse_spaces normalized in
      strip normalized
  end.

Definition stopwords : list str :=
  map lit
    ["the"; "a"; "an"; "and"; "or"; "but"; "in"; "on"; "at"; "to"; "for";
     "of"; "with"; "by"; "from"; "up"; "about"; "into"; "through"; "during";
     "before"; "after"; "above"; "below"; "between"; "among"; "is"; "are";
     "was"; "were"; "be"; "been"; "being"; "have"; "has"; "had"; "do"; "does";
     "did"; "will"; "would"; "could"; "should"; "may"; "might"; "must"; "can";
     "using"; "based"; "study"; "research"; "analysis"; "trial"; "systematic";
     "review"; "meta"]%string.

Definition extract_keywords (title : str) (min_length : nat) : list str :=
  match title with
  | [] => []
  | _ =>
      let normalized := normalize_title title in
      let words := split normalized in
      List.filter (fun word => negb (mem word stopwords) && (min_length <=? length word))
        words
  end.

(** The loop of [load_abstracts_from_text] that keeps the record headers
    whose numbers come in sequence; a header is (position, number). *)
Fixpoint sequential_from (expected_num : nat) (record_positions : list (nat * nat))
    : list (nat * nat) :=
  match record_positions with
  | [] => []
  | (pos, num) :: rest =>
      if num =? expected_num
      then (pos, num) :: sequential_from (S expected_num) rest
      else sequential_from expected_num rest
  end.

Definition sequential_positions (record_positions : list (nat * nat)) : list (nat * nat) :=
  sequential_from 1 record_positions.

(** [value.replace('\n', ' ').replace('\r', ' ')] *)
Definition flatten_newlines (value : str) : str :=
  replace_char "013"%char (lit " ") (replace_char "010"%char (lit " ") value).

(** The cleaning loop of [save_results] over the items of a row.  A cell is
    a string ([Str]) or something else ([NaN]), which the loop skips.  One
    round makes the two assignments of the source, in their order: the
    truncated text for a long value, then the flattened value. *)
Definition clean_item (output_row : gmap string cell) (item : string * cell)
    : gmap string cell :=
  match item.2 with
  | Str value =>
      let value := RuleStage.text_of value in
      let output_row :=
        if 10000 <? length value
        then <[item.1 := Str (RuleStage.string_of
                                (firstn 5000 value ++ lit "... [TRUNCATED]"))]> output_row
        else output_row in
      <[item.1 := Str (RuleStage.string_of (flatten_newlines value))]> output_row
  | NaN => output_row
  end.

Definition clean_row (row : gmap string cell) : gmap string cell :=
  fold_left clean_item (map_to_list row) row.

End TitleMatching.

(** ** Statements of the specification *)

Module Spec.
Import Py.

(** Is the character at offset [i] of [t] a word character? Offsets outside
    the text count as non-word. *)
Definition word_at (t : str) (i : nat) : bool :=
  match nth_error t i with
  | Some c => is_word c
  | None => false
  end.

(** A word boundary at offset [i]: exactly one of the characters before and
    at [i] is a word character. *)
Definition boundary (t : str) (i : nat) : Prop :=
  match i with
  | 0 => word_at t 0 = true
  | S j => word_at t j <> word_at t i
  end.

(** [t] has, at offset [i], an occurrence of [k] up to letter case. *)
Definition occurs_at (k t : str) (i : nat) : Prop :=
  i + length k <= length t /\ lower (slice t i (i + length k)) = lower k.

(** A case-insensitive occurrence of [k] in [t] that lies between two word
    boundaries. *)
Definition occurs_bounded (k t : str) : Prop :=
  exists i, occurs_at k t i /\ boundary t i /\ boundary t (i + length k).

(** [k] is a substring of [t]. *)
Definition substring (k t : str) : Prop :=
  exists pre post, t = pre ++ k ++ post.

(** Two half-open spans share an index. *)
Definition share_index (a b : KeywordReview.hmatch) : Prop :=
  exists k, KeywordReview.m_start a <= k < KeywordReview.m_end a /\
            KeywordReview.m_start b <= k < KeywordReview.m_end b.

End Spec.

(** ** Vocabulary of the proofs

    The auxiliary notions the lemmas below are stated with: what the patterns
    of the source compile to, the invariants of its loops, and the concrete
    inputs the instances at the end are evaluated on. *)

Import Py.
Import Re.
Import RuleBasedFilter.
Import KeywordReview.
Import LLMSecondaryFilter.

(** The expression a string of literal characters stands for. *)
Definition literals (k : str) : regex := map (fun c => NOne (CLit c)) k.

(** What the pattern [\b + re.escape(k) + \b] compiles to (lemma
    [compile_escape]). *)
Definition bounded_literal (k : str) : regex := NBound :: literals k ++ [NBound].

(** The character before the cursor after a literal has been read. *)
Definition after_literal (prev : option ascii) (k : str) : option ascii :=
  fold_left (fun _ c => Some c) k prev.

(** The character before offset [j] of the text [s] that follows [prev]. *)
Definition before (prev : option ascii) (s : str) (j : nat) : option ascii :=
  match j with
  | 0 => prev
  | S j' => nth_error s j'
  end.

(** The test the keyword loop makes for one keyword. *)
Definition keyword_hit (text_lower keyword : str) : bool :=
  if length (split keyword) =? 1
  then search false (bounded_literal (lower keyword)) text_lower
  else contains (lower keyword) text_lower.

(** The example sentence the loop records for a keyword it has found. *)
Definition keyword_sentence (sentences : list str) (keyword : str) : list str :=
  if length (split keyword) =? 1
  then first_sentence (search false (bounded_literal (lower keyword))) sentences
  else first_sentence (contains (lower keyword)) sentences.

(** The rounds the scanner still needs from a state. *)
Definition rounds_left (t : str) (start : nat) (ma : bool) : nat :=
  2 * (length t - start) + (if ma then 1 else 2).

(** What the three patterns of [behavioral_patterns] compile to. *)
Definition behavioral_regexes : list regex :=
  [ NBound :: literals (lit "activity schedul") ++ [NStar CWord];
    NBound :: literals (lit "behavio") ++ [NStar CWord; NPlus CSpace] ++
      literals (lit "interven") ++ [NStar CWord];
    NBound :: literals (lit "behavio") ++ [NStar CWord; NPlus CSpace] ++
      literals (lit "therap") ++ [NStar CWord] ].

(** The loop over the matches of one pattern, then over the patterns. *)
Definition scan_matches (text_lower : str) (sentences : list str)
    (st : list str * list str) (r : regex) : list str * list str :=
  fold_left (match_step text_lower sentences) (finditer true r text_lower) st.

(** Which of the three lists of matched terms of a paper are non-empty
    (depression, mobile, behavioral). *)
Definition category_flags (title abstract : str) : option (bool * bool * bool) :=
  let full_text := title ++ lit " " ++ abstract in
  depression ← find_keywords_in_text full_text depression_keywords;
  mobile ← find_keywords_in_text full_text mobile_keywords;
  behavioral ← find_behavioral_keywords_in_text full_text;
  Some (0 <? length depression.1, 0 <? length mobile.1, 0 <? length behavioral.1).

(** A string recorded for a wildcard template: the lower-cased form of the
    substring of the text a match of one of the templates covers. *)
Definition wildcard_record (text m : str) : Prop :=
  exists r a b,
    In r behavioral_regexes /\
    In (a, b) (finditer true r (lower text)) /\
    a < b /\ b <= length text /\
    m = slice (lower text) a b /\
    m = lower (slice text a b).

(** The invariant of the two loops of the behavioural matcher. *)
Definition records_ok (text : str) (base : list str) (st : list str * list str) : Prop :=
  (exists wild, st.1 = base ++ wild /\ Forall (wildcard_record text) wild) /\
  List.NoDup (map lower st.1).

(** A candidate match lies in the text and carries the substring it covers. *)
Definition span_ok (text : str) (m : hmatch) : Prop :=
  m_start m <= m_end m /\ m_end m <= length text /\
  m_text m = slice text (m_start m) (m_end m).

(** Every span ends where the one applied before it starts, or earlier;
    the first one ends at [p] or earlier. *)
Fixpoint chain (p : nat) (kept : list hmatch) : Prop :=
  match kept with
  | [] => True
  | m :: kept' => m_end m <= p /\ chain (m_start m) kept'
  end.

(** Two continuations that always agree on the first match they find. *)
Definition same_first (k1 k2 : option ascii -> str -> list nat) : Prop :=
  forall prev s, hd_error (k1 prev s) = hd_error (k2 prev s).

(** The templates of the highlighter and the patterns of the rule-based
    matcher, side by side. *)
Definition wildcard_templates : list str :=
  map lit ["activity schedul*"; "behavio* interven*"; "behavio* therap*"]%string.

(** The columns of the rule stage, the LLM stage and the final verdict, and
    the reviewer's name. *)
Definition stage_columns : list string :=
  ["DOI"; "Title"; "Authors"; "Journal/Book"; "Publication Year"; "Abstract";
   "depression_keywords"; "mobile_keywords"; "behavioral_keywords"; "result";
   "rule_depression_keywords"; "rule_mobile_keywords"; "rule_behavioral_keywords";
   "rule_result";
   "llm_depression_keywords"; "llm_mobile_keywords"; "llm_behavioral_keywords";
   "llm_result"; "llm_depression_highlight"; "llm_mobile_highlight";
   "llm_behavioral_highlight"; "llm_reason"; "final_result";
   "reviewer_name"]%string.

(** A result dictionary of the loop over the excluded records. *)
Definition excluded_result (r : row) : Prop :=
  r !! "rule_result"%string = Some (Str "exclude") /\
  (exists v, r !! "llm_result"%string = Some v /\ r !! "final_result"%string = Some v).

(** A checkpoint the function can resume from: records it wrote itself for
    the first excluded records of the same input. *)
Definition checkpoint_ok (input : list row) (checkpoint : option (list row)) : Prop :=
  match checkpoint with
  | None => True
  | Some rs => length rs <= rule_exclude_count input /\ Forall excluded_result rs
  end.

(** The columns the second pass adds to a record the rule stage included. *)
Definition added_columns : list string :=
  ["rule_depression_keywords"; "rule_mobile_keywords"; "rule_behavioral_keywords";
   "rule_result"; "llm_depression_keywords"; "llm_mobile_keywords";
   "llm_behavioral_keywords"; "llm_result"; "llm_depression_highlight";
   "llm_mobile_highlight"; "llm_behavioral_highlight"; "llm_reason";
   "final_result"]%string.

(** A text with overlapping candidates ("Mobile", "app" and "Mobile app"),
    a selection and the spans the highlighter keeps for them. *)
Definition demo_text : str := lit "Mobile app for  Behavioral therapy: apps apply.".

Definition demo_selection : selection :=
  [(lit "mobile", [lit "mobile"; lit "app"; lit "mobile app"]);
   (lit "behavioral", [lit "behavio* therap*"])].

Definition demo_kept : list hmatch :=
  [ {| m_start := 16; m_end := 34; m_text := lit "Behavioral therapy";
       m_class := lit "highlight-behavioral" |};
    {| m_start := 7; m_end := 10; m_text := lit "app";
       m_class := lit "highlight-mobile" |};
    {| m_start := 0; m_end := 6; m_text := lit "Mobile";
       m_class := lit "highlight-mobile" |} ].

(** The first and the last character of a keyword are word characters. *)
Definition word_edged (k : str) : bool :=
  match nth_error k 0, nth_error k (length k - 1) with
  | Some first, Some last => is_word first && is_word last
  | _, _ => false
  end.

(** A record the rule stage excluded. *)
Definition demo_row : row :=
  list_to_map [("Title", Str "A Study of Exercise");
               ("Abstract", Str "Exercise improves mood.");
               ("depression_keywords", Str "");
               ("mobile_keywords", Str "");
               ("behavioral_keywords", Str "");
               ("result", Str "exclude")]%string.

(** The three keyword cells and the verdict of a result row of the rule
    stage: the verdict is "include" or "exclude", and it is "include" exactly
    when none of the three keyword cells is the empty string. *)
Definition rule_row_ok (r : row) : Prop :=
  exists d m b v,
    r !! "depression_keywords"%string = Some (Str d) /\
    r !! "mobile_keywords"%string = Some (Str m) /\
    r !! "behavioral_keywords"%string = Some (Str b) /\
    r !! "result"%string = Some (Str v) /\
    (v = "include"%string \/ v = "exclude"%string) /\
    (v = "include"%string <-> d <> ""%string /\ m <> ""%string /\ b <> ""%string).

(** What [process_dataframe] makes of one row: the result row carries the
    DOI, authors, journal and year of the row and its title and abstract as
    read, it is a well-formed rule-stage row, and a row without title and
    abstract is excluded with empty keyword cells. *)
Definition rule_stage_row (r r' : row) : Prop :=
  r' !! "DOI"%string = Some (get r "DOI" (Str "")) /\
  r' !! "Authors"%string = Some (get r "Authors" (Str "")) /\
  r' !! "Journal/Book"%string = Some (get r "Journal/Book" (Str "")) /\
  r' !! "Publication Year"%string = Some (get r "Publication Year" (Str "")) /\
  r' !! "Title"%string = Some (Str (RuleStage.field r "Title")) /\
  r' !! "Abstract"%string = Some (Str (RuleStage.field r "Abstract")) /\
  rule_row_ok r' /\
  (RuleStage.field r "Title" = ""%string -> RuleStage.field r "Abstract" = ""%string ->
   r' !! "depression_keywords"%string = Some (Str "") /\
   r' !! "mobile_keywords"%string = Some (Str "") /\
   r' !! "behavioral_keywords"%string = Some (Str "") /\
   r' !! "result"%string = Some (Str "exclude")).

(** A record of the returned frame that the rule stage had included. *)
Definition passed_through (r : row) : Prop :=
  r !! "rule_result"%string = Some (Str "include") /\
  r !! "llm_result"%string = Some (Str "not_processed") /\
  r !! "final_result"%string = Some (Str "include").

(** An input row, a reply with a verdict and collaborators for the
    instances of the second pass. *)
Definition demo_included_row : row :=
  list_to_map [("Title", Str "Mobile App for Depression");
               ("Abstract", Str "Behavioral activation on a smartphone.");
               ("depression_keywords", Str "depression");
               ("mobile_keywords", Str "mobile, smartphone, app");
               ("behavioral_keywords", Str "behavioral activation");
               ("result", Str "include")]%string.

Definition demo_untitled_row : row :=
  list_to_map [("Abstract", Str "Exercise improves mood.");
               ("result", Str "exclude")]%string.

Definition demo_reply : row :=
  list_to_map [("depression_keywords", Str "low mood");
               ("mobile_keywords", Str "");
               ("behavioral_keywords", Str "exercise");
               ("result", Str "include");
               ("reason", Str "mood and exercise")]%string.

Definition demo_chain (q : request) : option row := Some demo_reply.
Definition demo_no_chain (q : request) : option row := None.
Definition demo_llm (q : request) : option str :=
  Some (lit "```json {} ```").
Definition demo_json (s : str) : option json := Some (JDict demo_reply).
Definition demo_no_json (s : str) : option json := None.

Definition demo_input : list row :=
  [demo_included_row; demo_row; demo_untitled_row].

(** The keywords the review application offers: plain ones (non-empty,
    without wildcard) and the three wildcard templates. *)
Definition plain_keyword (k : str) : Prop :=
  k <> [] /\ existsb (Ascii.eqb "*") k = false.

Definition offered_keyword (k : str) : Prop :=
  plain_keyword k \/ In k wildcard_templates.

Definition offered_selection (sel : selection) : Prop :=
  Forall (fun item : str * list str => Forall offered_keyword item.2) sel.

(** A candidate match that covers at least one character. *)
Definition nonempty_span (m : hmatch) : Prop := m_start m < m_end m.

(** The candidate for the keyword "mobile app" in [demo_text]. *)
Definition demo_dropped : hmatch :=
  {| m_start := 0; m_end := 10; m_text := lit "Mobile app";
     m_class := lit "highlight-mobile" |}.

(** The seven columns a decision writes. *)
Definition decision_columns : list string :=
  ["human_depression_keywords"; "human_mobile_keywords";
   "human_behavioral_keywords"; "human_result"; "reviewer_name";
   "review_status"; "review_date"]%string.

(** The row of a frame at an index label (the empty row when the label is
    not in the index). *)
Definition row_at (d : gmap nat (gmap string cell)) (idx : nat) : gmap string cell :=
  default ∅ (d !! idx).

(** From [d] to [d'] nothing changed but decision columns of record
    [idx]. *)
Definition only_decision_written (idx : nat) (d d' : gmap nat (gmap string cell))
    : Prop :=
  (forall i, i <> idx -> d' !! i = d !! i) /\
  (forall col, ~ In col decision_columns -> row_at d' idx !! col = row_at d idx !! col).

(** The human verdict of a record agrees with its human keyword cells: it
    is "include" exactly when none of the three is empty. *)
Definition decision_ok (r : gmap string cell) : Prop :=
  exists human_depression human_mobile human_behavioral human_result,
    r !! "human_depression_keywords"%string = Some (Str human_depression) /\
    r !! "human_mobile_keywords"%string = Some (Str human_mobile) /\
    r !! "human_behavioral_keywords"%string = Some (Str human_behavioral) /\
    r !! "human_result"%string = Some (Str human_result) /\
    (human_result = "include"%string \/ human_result = "exclude"%string) /\
    (human_result = "include"%string <->
     human_depression <> ""%string /\ human_mobile <> ""%string /\
     human_behavioral <> ""%string).


(** No selected keyword is the empty string. *)
Definition no_empty_keyword (sel : gmap string (gset string)) : Prop :=
  forall category s, sel !! category = Some s -> ""%string ∉ s.

(** A session over a frame of twelve records, the cursor on the tenth. *)
Definition demo_frame : gmap nat (gmap string cell) :=
  map_seq 0 (replicate 12 demo_row).

Definition demo_session : session :=
  {| current_idx := 9;
     df := demo_frame;
     changes_made := false;
     reviewer_name := "kim";
     selected_keywords := load_current_paper_keywords;
     use_word_boundary := true;
     data_page := 0 |}.

(** A row with an abstract of 10001 characters and a missing year. *)
Definition demo_long_row : gmap string cell :=
  {[ "Abstract"%string := Str (RuleStage.string_of (repeat "a"%char 10001));
     "Publication Year"%string := NaN ]}.

(** [f'] is [f] with columns added: the same number of rows, every column
    of [f] still there, with the same cell in every row. *)
Definition frame_extends (f f' : ReviewSession.frame) : Prop :=
  (forall col, ReviewSession.has_column f col = true ->
               ReviewSession.has_column f' col = true) /\
  Forall2 (fun r r' : gmap string cell =>
             forall col, ReviewSession.has_column f col = true -> r' !! col = r !! col)
    (ReviewSession.rows f) (ReviewSession.rows f').

(** A word of a normalized title: not empty, made of digits, lower-case
    letters and underscores. *)
Definition proper_word (w : str) : Prop :=
  w <> [] /\ Forall (fun c => is_word c = true /\ is_upper c = false) w.

(** A frame as the pipeline writes it, without the columns of the rule
    stage under their first names. *)
Definition demo_hybrid_frame : ReviewSession.frame :=
  {| ReviewSession.columns :=
       ["Title"; "Abstract"; "rule_depression_keywords"; "rule_mobile_keywords";
        "rule_behavioral_keywords"; "rule_result"; "llm_result";
        "final_result"]%string;
     ReviewSession.rows :=
       [list_to_map [("Title", Str "A Study of Exercise");
                     ("Abstract", Str "Exercise improves mood.");
                     ("rule_depression_keywords", Str "");
                     ("rule_mobile_keywords", Str "");
                     ("rule_behavioral_keywords", Str "");
                     ("rule_result", Str "exclude");
                     ("llm_result", Str "include");
                     ("final_result", Str "include")]%string] |}.

(** A keyword that survives a round through a keyword cell: not empty, no
    whitespace at either end, none of the separators inside. *)
Definition clean_keyword (k : str) : Prop :=
  k <> [] /\
  is_space (hd " "%char k) = false /\
  is_space (hd " "%char (rev k)) = false /\
  Forall (fun c => ReviewSession.is_separator c = false) k.

(** ** Characters and strings *)

Ltac each_char c := destruct c as [[] [] [] [] [] [] [] []].

Lemma is_word_lower_char (c : ascii) : is_word (lower_char c) = is_word c.
Proof. each_char c; reflexivity. Qed.

Lemma lower_char_idem (c : ascii) : lower_char (lower_char c) = lower_char c.
Proof. each_char c; reflexivity. Qed.

Lemma lower_idem (s : str) : lower (lower s) = lower s.
Proof.
  unfold lower. rewrite map_map. apply map_ext. intros c. apply lower_char_idem.
Qed.

Lemma lower_app (a b : str) : lower (a ++ b) = lower a ++ lower b.
Proof. apply map_app. Qed.

Lemma length_lower (s : str) : length (lower s) = length s.
Proof. apply length_map. Qed.

Lemma lower_slice (s : str) (a b : nat) : lower (slice s a b) = slice (lower s) a b.
Proof.
  unfold slice, lower.
  rewrite <- firstn_map, <- skipn_map. reflexivity.
Qed.

Lemma length_slice (s : str) (a b : nat) :
  a <= b -> b <= length s -> length (slice s a b) = b - a.
Proof.
  intros Hab Hb. unfold slice.
  rewrite length_firstn, length_skipn. lia.
Qed.

Lemma startswith_spec (p s : str) :
  startswith p s = true <-> exists rest, s = p ++ rest.
Proof.
  revert s. induction p as [|a p IH]; intros s; simpl.
  - split; [intros _; exists s; reflexivity | reflexivity].
  - destruct s as [|b s].
    + split; [discriminate | intros [rest H]; discriminate].
    + destruct (Ascii.eqb_spec a b) as [->|Hne].
      * rewrite IH. split; intros [rest H]; exists rest.
        -- simpl. rewrite H. reflexivity.
        -- simpl in H. injection H as H. exact H.
      * split; [discriminate |].
        intros [rest H]. simpl in H. injection H as H1 _. congruence.
Qed.

Lemma startswith_firstn (p s : str) :
  startswith p s = true <-> firstn (length p) s = p.
Proof.
  rewrite startswith_spec. split.
  - intros [rest ->]. rewrite firstn_app, Nat.sub_diag, firstn_all.
    simpl. apply app_nil_r.
  - intros H. exists (skipn (length p) s).
    rewrite <- H at 1. symmetry. apply firstn_skipn.
Qed.

Lemma contains_spec (needle hay : str) :
  contains needle hay = true <-> Spec.substring needle hay.
Proof.
  unfold Spec.substring.
  induction hay as [|c hay IH].
  - simpl. rewrite orb_false_r, startswith_spec. split.
    + intros [rest H]. exists [], rest. exact H.
    + intros (pre & post & H). destruct pre; [exists post; exact H | discriminate].
  - cbn [contains]. rewrite orb_true_iff, IH, startswith_spec. split.
    + intros [[rest H] | (pre & post & H)].
      * exists [], rest. exact H.
      * exists (c :: pre), post. simpl. rewrite H. reflexivity.
    + intros (pre & post & H). destruct pre as [|c' pre].
      * left. exists post. exact H.
      * right. exists pre, post. simpl in H. injection H as _ H. exact H.
Qed.

Lemma mem_spec (x : str) (xs : list str) : mem x xs = true <-> In x xs.
Proof.
  unfold mem. rewrite existsb_exists. split.
  - intros (y & Hy & Hxy). apply bool_decide_eq_true in Hxy. subst. exact Hy.
  - intros H. exists x. split; [exact H | apply bool_decide_eq_true; reflexivity].
Qed.

(** ** The pattern of a literal keyword *)

Lemma tokens_escape_char (c : ascii) (p : str) :
  tokens ((if is_special c then ["\"%char; c] else [c]) ++ p) =
  cons (TSet (CLit c)) <$> tokens p.
Proof. each_char c; reflexivity. Qed.

Lemma tokens_escape (k p : str) :
  tokens (escape k ++ p) = (app (map (fun c => TSet (CLit c)) k)) <$> tokens p.
Proof.
  induction k as [|c k IH].
  - simpl. destruct (tokens p); reflexivity.
  - unfold escape. cbn [flat_map]. rewrite <- app_assoc.
    rewrite tokens_escape_char. fold (escape k). rewrite IH.
    destruct (tokens p); reflexivity.
Qed.

Lemma nodes_literals (k : str) (ts : list token) (r : regex) :
  starts_with_quantifier ts = false ->
  nodes ts = Some r ->
  nodes (map (fun c => TSet (CLit c)) k ++ ts) = Some (literals k ++ r).
Proof.
  intros Hq Hts. induction k as [|c k IH]; [exact Hts |].
  cbn [map app nodes literals].
  destruct k as [|c' k].
  - cbn [map app] in *. destruct ts as [|[] ts]; try discriminate;
      cbn [nodes] in IH |- *; rewrite ?IH; cbn in IH |- *; rewrite ?IH; reflexivity.
  - cbn [map app] in *. rewrite IH. reflexivity.
Qed.

Lemma compile_escape_bare (k : str) : compile (escape k) = Some (literals k).
Proof.
  unfold compile. rewrite <- (app_nil_r (escape k)), tokens_escape. cbn.
  rewrite <- (app_nil_r (literals k)). apply nodes_literals; reflexivity.
Qed.

Lemma compile_escape (k : str) :
  compile (lit "\b" ++ escape k ++ lit "\b") = Some (bounded_literal k).
Proof.
  unfold compile. cbn [lit list_ascii_of_string app tokens].
  cbn [Ascii.eqb Bool.eqb]. cbn [fmap option_fmap option_map].
  rewrite tokens_escape. cbn.
  destruct k as [|c k]; [reflexivity |].
  cbn [map app starts_with_quantifier].
  change (TSet (CLit c) :: map (fun c0 => TSet (CLit c0)) k ++ [TBound])
    with (map (fun c0 => TSet (CLit c0)) (c :: k) ++ [TBound]).
  rewrite (nodes_literals (c :: k) [TBound] [NBound]); reflexivity.
Qed.

(** ** The matcher *)

Lemma in_star_le (ic : bool) (cs : cset) (k : option ascii -> str -> list nat) :
  (forall prev s e, In e (k prev s) -> e <= length s) ->
  forall s prev e, In e (star ic cs k prev s) -> e <= length s.
Proof.
  intros Hk s. induction s as [|c s IH]; intros prev e; cbn [star].
  - apply Hk.
  - destruct (cset_match ic cs c); [| apply Hk].
    rewrite in_app_iff, in_map_iff. intros [(e' & <- & He') | He].
    + apply IH in He'. simpl. lia.
    + apply Hk in He. exact He.
Qed.

Lemma in_run_le (ic : bool) (r : regex) :
  forall prev s e, In e (run ic r prev s) -> e <= length s.
Proof.
  induction r as [|n r IH]; intros prev s e; cbn [run].
  - intros [<- | []]. lia.
  - destruct n as [|cs|cs|cs].
    + destruct (at_boundary prev s); [apply IH | intros []].
    + destruct s as [|c s]; [intros [] |].
      destruct (cset_match ic cs c); [| intros []].
      rewrite in_map_iff. intros (e' & <- & He'). apply IH in He'. simpl. lia.
    + apply in_star_le. exact IH.
    + destruct s as [|c s]; [intros [] |].
      destruct (cset_match ic cs c); [| intros []].
      rewrite in_map_iff. intros (e' & <- & He').
      apply in_star_le in He'; [simpl; lia | exact IH].
Qed.

Lemma run_literals (k : str) (r : regex) :
  forall prev s,
    run false (literals k ++ r) prev s =
    if startswith k s
    then map (Nat.add (length k)) (run false r (after_literal prev k) (skipn (length k) s))
    else [].
Proof.
  induction k as [|c k IH]; intros prev s.
  - cbn. rewrite map_id. reflexivity.
  - cbn [literals map app run startswith length after_literal fold_left].
    destruct s as [|c0 s]; [reflexivity |].
    cbn [cset_match skipn].
    destruct (Ascii.eqb_spec c c0) as [->|Hne]; [| reflexivity].
    fold (literals k). rewrite IH.
    destruct (startswith k s); [| reflexivity].
    rewrite map_map. reflexivity.
Qed.

Lemma run_bounded_literal (k : str) (prev : option ascii) (s : str) :
  run false (bounded_literal k) prev s =
  if at_boundary prev s && startswith k s &&
     at_boundary (after_literal prev k) (skipn (length k) s)
  then [length k] else [].
Proof.
  unfold bounded_literal. cbn [run].
  destruct (at_boundary prev s); [| reflexivity].
  rewrite run_literals. cbn [andb].
  destruct (startswith k s); [| reflexivity].
  cbn [run andb].
  destruct (at_boundary _ _); [| reflexivity].
  cbn. rewrite Nat.add_0_r. reflexivity.
Qed.

Lemma before_cons (prev : option ascii) (c : ascii) (s : str) (j : nat) :
  before prev (c :: s) (S j) = before (Some c) s j.
Proof. destruct j; reflexivity. Qed.

Lemma char_before_before (t : str) (j : nat) : char_before t j = before None t j.
Proof. reflexivity. Qed.

Lemma search_at_none (ic : bool) (r : regex) :
  forall s prev pos,
    search_at ic r prev s pos false = None <->
    (forall j, j <= length s -> run ic r (before prev s j) (skipn j s) = []).
Proof.
  induction s as [|c s IH]; intros prev pos; cbn [search_at].
  - destruct (run ic r prev []) as [|e l] eqn:E.
    + split; [| reflexivity]. intros _ j Hj. simpl in Hj.
      assert (j = 0) as -> by lia. exact E.
    + split; [discriminate |]. intros H. specialize (H 0 (Nat.le_0_l _)).
      simpl in H. congruence.
  - destruct (run ic r prev (c :: s)) as [|e l] eqn:E.
    + rewrite IH. split.
      * intros H [|j] Hj; [exact E |].
        rewrite before_cons. cbn [skipn]. apply H. simpl in Hj. lia.
      * intros H j Hj. specialize (H (S j)).
        rewrite before_cons in H. apply H. simpl. lia.
    + split; [discriminate |]. intros H. specialize (H 0 (Nat.le_0_l _)).
      simpl in H. congruence.
Qed.

Lemma search_at_some (ic : bool) (r : regex) :
  forall s prev pos ma a b,
    search_at ic r prev s pos ma = Some (a, b) ->
    pos <= a /\ a <= b /\ b <= pos + length s /\
    In (b - a) (run ic r (before prev s (a - pos)) (skipn (a - pos) s)) /\
    (ma = true -> pos < b).
Proof.
  induction s as [|c s IH]; intros prev pos ma a b; cbn [search_at].
  - destruct (if ma then _ else _) as [|e l] eqn:E; [discriminate |].
    intros [= <- <-].
    assert (Hin : In e (run ic r prev [])).
    { destruct ma.
      - assert (H : In e (List.filter (fun e => negb (e =? 0)) (run ic r prev [])))
          by (rewrite E; left; reflexivity).
        apply filter_In in H. tauto.
      - rewrite E. left. reflexivity. }
    pose proof (in_run_le _ _ _ _ _ Hin) as Hle. simpl in Hle.
    assert (e = 0) as -> by lia.
    rewrite Nat.sub_diag, Nat.add_0_r, Nat.sub_diag. simpl.
    repeat split; try lia; try exact Hin.
    intros ->.
    assert (H : In 0 (List.filter (fun e => negb (e =? 0)) (run ic r prev [])))
      by (rewrite E; left; reflexivity).
    apply filter_In in H. destruct H as [_ H]. discriminate.
  - destruct (if ma then _ else _) as [|e l] eqn:E.
    + intros H. apply IH in H. destruct H as (H1 & H2 & H3 & H4 & _).
      replace (a - pos) with (S (a - S pos)) by lia.
      rewrite before_cons. cbn [skipn length].
      repeat split; try lia; try exact H4.
    + intros [= <- <-].
      assert (Hin : In e (run ic r prev (c :: s)) /\ (ma = true -> e <> 0)).
      { destruct ma.
        - assert (H : In e (List.filter (fun e => negb (e =? 0)) (run ic r prev (c :: s))))
            by (rewrite E; left; reflexivity).
          apply filter_In in H. destruct H as [H1 H2]. split; [exact H1 |].
          intros _ ->. discriminate.
        - split; [rewrite E; left; reflexivity | discriminate]. }
      destruct Hin as [Hin Hne].
      pose proof (in_run_le _ _ _ _ _ Hin) as Hle.
      rewrite Nat.sub_diag. replace (pos + e - pos) with e by lia.
      repeat split; try lia; try exact Hin.
      intros Hma. specialize (Hne Hma). lia.
Qed.

Lemma before_skipn (t : str) (start j : nat) :
  start <= length t ->
  before (char_before t start) (skipn start t) j = char_before t (start + j).
Proof.
  intros Hs. destruct j as [|j].
  - rewrite Nat.add_0_r. reflexivity.
  - replace (start + S j) with (S (start + j)) by lia. cbn [before char_before].
    rewrite nth_error_skipn. reflexivity.
Qed.

Lemma search_from_some (ic : bool) (r : regex) (t : str) (start : nat)
    (ma : bool) (a b : nat) :
  search_from ic r t start ma = Some (a, b) ->
  start <= a /\ a <= b /\ b <= length t /\
  In (b - a) (run ic r (char_before t a) (skipn a t)) /\
  (ma = true -> start < b).
Proof.
  unfold search_from. destruct (Nat.leb_spec start (length t)) as [Hs|Hs]; [| discriminate].
  intros H. apply search_at_some in H.
  destruct H as (H1 & H2 & H3 & H4 & H5).
  rewrite length_skipn in H3.
  rewrite before_skipn in H4 by exact Hs.
  rewrite skipn_skipn in H4.
  replace (start + (a - start)) with a in H4 by lia.
  replace (a - start + start) with a in H4 by lia.
  repeat split; try lia; assumption.
Qed.

Lemma search_spec (ic : bool) (r : regex) (t : str) :
  search ic r t = true <->
  exists i, i <= length t /\ run ic r (char_before t i) (skipn i t) <> [].
Proof.
  unfold search, search_from. cbn [Nat.leb char_before]. rewrite skipn_O.
  destruct (search_at ic r None t 0 false) as [[a b]|] eqn:E.
  - split; [intros _ | reflexivity].
    apply search_at_some in E. destruct E as (H1 & H2 & H3 & H4 & _).
    rewrite Nat.sub_0_r in H4. exists a. split; [simpl in H3; lia |].
    rewrite char_before_before. intros Hnil. rewrite Hnil in H4. destruct H4.
  - split; [discriminate |]. intros (i & Hi & Hr).
    exfalso. apply Hr. rewrite char_before_before.
    apply (proj1 (search_at_none ic r t None 0) E). exact Hi.
Qed.

(** ** Word boundaries and literal occurrences *)

Lemma word_opt_nth (t : str) (i : nat) : word_opt (nth_error t i) = Spec.word_at t i.
Proof. reflexivity. Qed.

Lemma head_skipn (t : str) (i : nat) : head (skipn i t) = nth_error t i.
Proof.
  revert i. induction t as [|c t IH]; intros [|i]; try reflexivity.
  cbn [skipn nth_error]. apply IH.
Qed.

Lemma at_boundary_spec (t : str) (i : nat) :
  at_boundary (char_before t i) (skipn i t) = true <-> Spec.boundary t i.
Proof.
  unfold at_boundary. rewrite head_skipn, word_opt_nth.
  destruct i as [|j]; cbn [char_before Spec.boundary word_opt].
  - rewrite xorb_false_l. reflexivity.
  - rewrite word_opt_nth.
    destruct (Spec.word_at t j), (Spec.word_at t (S j)); cbn;
      split; congruence.
Qed.

Lemma word_at_lower (t : str) (i : nat) : Spec.word_at (lower t) i = Spec.word_at t i.
Proof.
  unfold Spec.word_at, lower. rewrite nth_error_map.
  destruct (nth_error t i); cbn; [apply is_word_lower_char | reflexivity].
Qed.

Lemma boundary_lower (t : str) (i : nat) : Spec.boundary (lower t) i <-> Spec.boundary t i.
Proof.
  destruct i; cbn [Spec.boundary]; rewrite !word_at_lower; reflexivity.
Qed.

Lemma after_literal_startswith (k : str) :
  forall prev s, startswith k s = true ->
    after_literal prev k = before prev s (length k).
Proof.
  induction k as [|c k IH]; intros prev s H; [reflexivity |].
  destruct s as [|c0 s]; [discriminate |].
  cbn [startswith] in H. destruct (Ascii.eqb_spec c c0) as [->|]; [| discriminate].
  cbn [length after_literal fold_left]. rewrite before_cons.
  apply (IH (Some c0) s H).
Qed.

(** The run of the pattern of a literal keyword at offset [i] of [t]. *)
Lemma run_bounded_literal_at (k t : str) (i : nat) :
  i <= length t ->
  (run false (bounded_literal k) (char_before t i) (skipn i t) <> [] <->
   Spec.boundary t i /\ startswith k (skipn i t) = true /\
   Spec.boundary t (i + length k)).
Proof.
  intros Hi. rewrite run_bounded_literal.
  destruct (startswith k (skipn i t)) eqn:Hs.
  - rewrite (after_literal_startswith _ _ _ Hs), before_skipn by exact Hi.
    rewrite skipn_skipn, (Nat.add_comm (length k) i).
    rewrite <- !at_boundary_spec.
    destruct (at_boundary (char_before t i) (skipn i t));
      destruct (at_boundary (char_before t (i + length k)) (skipn (i + length k) t));
      cbn; split; try congruence; try tauto; intros (? & ? & ?); congruence.
  - rewrite andb_false_r. cbn. split; [congruence | intros (_ & ? & _); congruence].
Qed.

Lemma startswith_occurs (k t : str) (i : nat) :
  i <= length t ->
  (startswith (lower k) (skipn i (lower t)) = true <-> Spec.occurs_at k t i).
Proof.
  intros Hi. unfold Spec.occurs_at.
  rewrite startswith_firstn, lower_slice, length_lower.
  unfold slice. replace (i + length k - i) with (length k) by lia.
  split.
  - intros H. split; [| exact H].
    apply (f_equal (@length ascii)) in H.
    rewrite length_firstn, length_skipn, !length_lower in H. lia.
  - intros [_ H]. exact H.
Qed.

(** A single-word keyword is found exactly where the text has an occurrence
    of it, up to case, between two word boundaries. *)
Lemma search_bounded_literal (k t : str) :
  search false (bounded_literal (lower k)) (lower t) = true <->
  Spec.occurs_bounded k t.
Proof.
  rewrite search_spec. unfold Spec.occurs_bounded.
  split.
  - intros (i & Hi & Hrun). exists i.
    apply run_bounded_literal_at in Hrun; [| exact Hi].
    rewrite length_lower in Hi, Hrun.
    destruct Hrun as (Hb1 & Hs & Hb2).
    rewrite boundary_lower in Hb1, Hb2.
    apply startswith_occurs in Hs; [| exact Hi]. tauto.
  - intros (i & Hocc & Hb1 & Hb2).
    assert (Hi : i <= length t) by (destruct Hocc; lia).
    exists i. rewrite length_lower. split; [exact Hi |].
    apply run_bounded_literal_at; [rewrite length_lower; exact Hi |].
    rewrite length_lower, !boundary_lower.
    rewrite startswith_occurs by exact Hi. tauto.
Qed.

(** ** The literal matcher *)

Lemma keyword_step_eq (text_lower : str) (sentences : list str)
    (st : list str * list str) (keyword : str) :
  keyword_step text_lower sentences st keyword =
  Some (if keyword_hit text_lower keyword
        then (st.1 ++ [keyword], st.2 ++ keyword_sentence sentences keyword)
        else st).
Proof.
  unfold keyword_step, keyword_hit, keyword_sentence.
  destruct (length (split keyword) =? 1); [| reflexivity].
  rewrite compile_escape. reflexivity.
Qed.

Lemma keyword_loop_eq (text_lower : str) (sentences : list str) (keywords : list str) :
  forall st,
    for_each (keyword_step text_lower sentences) keywords st =
    Some (st.1 ++ List.filter (keyword_hit text_lower) keywords,
          st.2 ++ flat_map (keyword_sentence sentences)
                    (List.filter (keyword_hit text_lower) keywords)).
Proof.
  induction keywords as [|k ks IH]; intros [found sents].
  - cbn. rewrite !app_nil_r. reflexivity.
  - cbn [for_each]. rewrite keyword_step_eq. cbn [mbind option_bind].
    rewrite IH. cbn [List.filter].
    destruct (keyword_hit text_lower k); cbn [fst snd flat_map].
    + rewrite <- !app_assoc. reflexivity.
    + reflexivity.
Qed.

Lemma find_keywords_in_text_eq (text : str) (keywords : list str) :
  find_keywords_in_text text keywords =
  Some (match text with
        | [] => ([], [])
        | _ => (List.filter (keyword_hit (lower text)) keywords,
                flat_map (keyword_sentence (split_sentences text))
                  (List.filter (keyword_hit (lower text)) keywords))
        end).
Proof.
  unfold find_keywords_in_text. destruct text as [|c text]; [reflexivity |].
  rewrite keyword_loop_eq. reflexivity.
Qed.

Lemma filter_sublist {A : Type} (f : A -> bool) (l : list A) :
  sublist (List.filter f l) l.
Proof.
  induction l as [|x l IH]; cbn.
  - constructor.
  - destruct (f x); constructor; exact IH.
Qed.

Lemma sublist_In {A : Type} (l1 l2 : list A) (x : A) :
  sublist l1 l2 -> In x l1 -> In x l2.
Proof.
  induction 1 as [|y l1 l2 _ IH|y l1 l2 _ IH]; cbn; tauto.
Qed.

Lemma sublist_NoDup_std {A : Type} (l1 l2 : list A) :
  sublist l1 l2 -> List.NoDup l2 -> List.NoDup l1.
Proof.
  induction 1 as [|y l1 l2 Hs IH|y l1 l2 Hs IH]; intros Hnd.
  - constructor.
  - inversion Hnd as [|? ? Hy Hnd']; subst. constructor.
    + intros Hin. apply Hy. eapply sublist_In; eassumption.
    + apply IH. exact Hnd'.
  - inversion Hnd; subst. apply IH. assumption.
Qed.

Lemma split_nil_tokens (k : str) : 1 <= length (split k) -> k <> [].
Proof. intros H ->. cbn in H. lia. Qed.

Lemma occurs_bounded_nonempty (k : str) : k <> [] -> ~ Spec.occurs_bounded k [].
Proof.
  intros Hk (i & [Hlen _] & _). destruct k; [congruence | cbn in Hlen; lia].
Qed.

Lemma substring_nil (k : str) : k <> [] -> ~ Spec.substring k [].
Proof.
  intros Hk (pre & post & H). destruct pre, k; try discriminate. congruence.
Qed.

(** The literal matcher always returns, and what it reports is a
    subsequence of the keyword list. *)
Lemma find_keywords_in_text_sublist (text : str) (keywords : list str) :
  exists found sentences,
    find_keywords_in_text text keywords = Some (found, sentences) /\
    sublist found keywords.
Proof.
  rewrite find_keywords_in_text_eq.
  destruct text; eexists _, _; (split; [reflexivity |]);
    [apply sublist_nil_l | apply filter_sublist].
Qed.

(** C1. For every text and keyword list, the literal matcher returns, and
    what it reports is a subsequence of the keyword list (input order); a
    single-token keyword of the list is reported exactly when the text has a
    case-insensitive occurrence of it between two word boundaries, and a
    multi-token keyword exactly when its lower-cased phrase is a substring
    of the lower-cased text. *)
Theorem find_keywords_in_text_matches (text : str) (keywords : list str) :
  exists found sentences,
    find_keywords_in_text text keywords = Some (found, sentences) /\
    sublist found keywords /\
    forall k, In k keywords ->
      (length (split k) = 1 -> (In k found <-> Spec.occurs_bounded k text)) /\
      (2 <= length (split k) ->
       (In k found <-> Spec.substring (lower k) (lower text))).
Proof.
  rewrite find_keywords_in_text_eq.
  destruct text as [|c text].
  - exists [], []. split; [reflexivity |]. split; [apply sublist_nil_l |].
    intros k _. split; intros Hk.
    + split; [intros [] |]. intros H. exfalso.
      apply (occurs_bounded_nonempty k); [apply split_nil_tokens; lia | exact H].
    + split; [intros [] |]. intros H. exfalso.
      apply (substring_nil (lower k)); [| exact H].
      intros Hnil. apply (split_nil_tokens k); [lia |].
      destruct k; [reflexivity | discriminate].
  - eexists _, _. split; [reflexivity |]. split; [apply filter_sublist |].
    intros k Hin. rewrite filter_In. unfold keyword_hit. split; intros Hk.
    + rewrite Hk. cbn [Nat.eqb]. rewrite search_bounded_literal. tauto.
    + destruct (Nat.eqb_spec (length (split k)) 1) as [E|_]; [lia |].
      rewrite contains_spec. tauto.
Qed.

(** C10. Every string the literal matcher reports is an element of the
    keyword list, exactly as it is written there; the report is a
    subsequence of the list, so a list without duplicates gives a report
    without duplicates. *)
Theorem find_keywords_in_text_reports_keywords (text : str) (keywords : list str) :
  exists found sentences,
    find_keywords_in_text text keywords = Some (found, sentences) /\
    (forall k, In k found -> In k keywords) /\
    sublist found keywords /\
    (List.NoDup keywords -> List.NoDup found).
Proof.
  destruct (find_keywords_in_text_sublist text keywords)
    as (found & sentences & Heq & Hsub).
  exists found, sentences. split; [exact Heq |].
  repeat split.
  - intros k. apply sublist_In. exact Hsub.
  - exact Hsub.
  - apply sublist_NoDup_std. exact Hsub.
Qed.

(** ** The scanner behind [finditer] *)

Lemma finditer_loop_spans (ic : bool) (r : regex) (t : str) :
  forall fuel start ma a b,
    In (a, b) (finditer_loop fuel ic r t start ma) ->
    start <= a /\ a <= b /\ b <= length t /\
    In (b - a) (run ic r (char_before t a) (skipn a t)).
Proof.
  induction fuel as [|fuel IH]; intros start ma a b; cbn [finditer_loop]; [intros [] |].
  destruct (search_from ic r t start ma) as [[s e]|] eqn:E; [| intros []].
  apply search_from_some in E. destruct E as (H1 & H2 & H3 & H4 & _).
  intros [[= <- <-] | Hin].
  - tauto.
  - apply IH in Hin. destruct Hin as (H5 & H6 & H7 & H8).
    repeat split; try lia; exact H8.
Qed.

Lemma finditer_spans (ic : bool) (r : regex) (t : str) (a b : nat) :
  In (a, b) (finditer ic r t) ->
  a <= b /\ b <= length t /\ In (b - a) (run ic r (char_before t a) (skipn a t)).
Proof.
  intros H. apply finditer_loop_spans in H. tauto.
Qed.

Lemma finditer_loop_fuel (ic : bool) (r : regex) (t : str) :
  forall fuel1 fuel2 start ma,
    rounds_left t start ma <= fuel1 ->
    rounds_left t start ma <= fuel2 ->
    finditer_loop fuel1 ic r t start ma = finditer_loop fuel2 ic r t start ma.
Proof.
  unfold rounds_left.
  induction fuel1 as [|fuel1 IH]; intros fuel2 start ma H1 H2.
  - destruct ma; lia.
  - destruct fuel2 as [|fuel2]; [destruct ma; lia |].
    cbn [finditer_loop].
    destruct (search_from ic r t start ma) as [[s e]|] eqn:E; [| reflexivity].
    apply search_from_some in E. destruct E as (E1 & E2 & E3 & _ & E5).
    f_equal.
    destruct (Nat.eqb_spec e s) as [->|Hne].
    + destruct ma.
      * specialize (E5 eq_refl). apply IH; lia.
      * apply IH; lia.
    + apply IH; destruct ma; lia.
Qed.

(** The fuel of [finditer] is enough: more rounds find nothing more. *)
Lemma finditer_fuel_enough (ic : bool) (r : regex) (t : str) (fuel : nat) :
  2 * length t + 2 <= fuel ->
  finditer_loop fuel ic r t 0 false = finditer ic r t.
Proof.
  intros H. unfold finditer. apply finditer_loop_fuel; unfold rounds_left; lia.
Qed.

(** ** The behavioural matcher *)

Lemma behavioral_patterns_compile :
  map compile behavioral_patterns = map Some behavioral_regexes.
Proof. reflexivity. Qed.

Lemma pattern_loop_eq (text_lower : str) (sentences : list str) (st : list str * list str) :
  for_each (pattern_step text_lower sentences) behavioral_patterns st =
  Some (fold_left (scan_matches text_lower sentences) behavioral_regexes st).
Proof. reflexivity. Qed.

Lemma find_behavioral_keywords_in_text_eq (text : str) :
  find_behavioral_keywords_in_text text =
  match text with
  | [] => Some ([], [])
  | _ =>
      base ← find_keywords_in_text text behavioral_base_keywords;
      Some (fold_left (scan_matches (lower text) (split_sentences text))
              behavioral_regexes base)
  end.
Proof.
  unfold find_behavioral_keywords_in_text. destruct text as [|c text]; [reflexivity |].
  destruct (find_keywords_in_text (c :: text) behavioral_base_keywords); [| reflexivity].
  cbn [mbind option_bind]. apply pattern_loop_eq.
Qed.

Lemma find_behavioral_keywords_in_text_total (text : str) :
  exists found sentences,
    find_behavioral_keywords_in_text text = Some (found, sentences).
Proof.
  rewrite find_behavioral_keywords_in_text_eq.
  destruct text as [|c text]; [exists [], []; reflexivity |].
  rewrite find_keywords_in_text_eq. cbn [mbind option_bind].
  destruct (fold_left _ _ _) as [found sentences].
  exists found, sentences. reflexivity.
Qed.

(** ** The category evaluator *)

Lemma length_pos_nonempty {A : Type} (l : list A) : (0 <? length l) = true <-> l <> [].
Proof.
  destruct l; cbn; split; congruence.
Qed.

(** C2. The evaluator matches the three categories against the title, one
    space and the abstract, and its result is "include" exactly when the
    three lists of matched terms are all non-empty, and "exclude"
    otherwise. *)
Theorem evaluate_single_paper_decision (title abstract : str) :
  exists depression mobile behavioral ev,
    find_keywords_in_text (title ++ lit " " ++ abstract) depression_keywords
      = Some depression /\
    find_keywords_in_text (title ++ lit " " ++ abstract) mobile_keywords
      = Some mobile /\
    find_behavioral_keywords_in_text (title ++ lit " " ++ abstract)
      = Some behavioral /\
    evaluate_single_paper title abstract = Some ev /\
    (ev_result ev = lit "include" <->
     depression.1 <> [] /\ mobile.1 <> [] /\ behavioral.1 <> []) /\
    (ev_result ev = lit "exclude" <->
     ~ (depression.1 <> [] /\ mobile.1 <> [] /\ behavioral.1 <> [])).
Proof.
  unfold evaluate_single_paper.
  destruct (find_keywords_in_text_sublist (title ++ lit " " ++ abstract)
              depression_keywords) as (d & ds & Hd & _).
  destruct (find_keywords_in_text_sublist (title ++ lit " " ++ abstract)
              mobile_keywords) as (m & ms & Hm & _).
  destruct (find_behavioral_keywords_in_text_total (title ++ lit " " ++ abstract))
    as (b & bs & Hb).
  rewrite Hd, Hm, Hb. cbn [mbind option_bind fst].
  eexists (d, ds), (m, ms), (b, bs), _.
  repeat (split; [reflexivity |]). cbn [ev_result fst].
  rewrite <- !length_pos_nonempty.
  destruct (0 <? length d), (0 <? length m), (0 <? length b); cbn;
    (split; split; try discriminate; try tauto; try reflexivity;
     try (intros (? & ? & ?); discriminate);
     try (intros _ (? & ? & ?); discriminate);
     try (intros H; exfalso; apply H; repeat split; reflexivity)).
Qed.

(** The eight combinations of empty and non-empty categories, each on a
    concrete abstract (with an empty title). *)
Example evaluate_single_paper_eight_cases :
  map (fun abstract =>
         (category_flags [] (lit abstract),
          ev_result <$> evaluate_single_paper [] (lit abstract)))
      ["Exercise improves mood.";
       "behavioural activation";
       "a smartphone app";
       "an app for behavior therapy";
       "depression";
       "depressive symptoms and activity scheduling";
       "depression, digital";
       "Depression: a mobile Behavioral  Intervention"]%string
  = [(Some (false, false, false), Some (lit "exclude"));
     (Some (false, false, true), Some (lit "exclude"));
     (Some (false, true, false), Some (lit "exclude"));
     (Some (false, true, true), Some (lit "exclude"));
     (Some (true, false, false), Some (lit "exclude"));
     (Some (true, false, true), Some (lit "exclude"));
     (Some (true, true, false), Some (lit "exclude"));
     (Some (true, true, true), Some (lit "include"))].
Proof. vm_compute. reflexivity. Qed.

(** Word boundaries at work: "app" is not found inside "apply", and a
    phrase is found as a substring. *)
Example find_keywords_in_text_app_apply :
  find_keywords_in_text (lit "We apply a Mobile Application.") mobile_keywords
  = Some ([lit "mobile application"; lit "mobile"],
          [lit "We apply a Mobile Application"; lit "We apply a Mobile Application"]).
Proof. vm_compute. reflexivity. Qed.

(** ** What the behavioural matcher records *)

Lemma behavioral_run_pos (r : regex) (prev : option ascii) (s : str) (e : nat) :
  In r behavioral_regexes -> In e (run true r prev s) -> 0 < e.
Proof.
  intros Hr He.
  assert (Hshape : exists cs r', r = NBound :: NOne cs :: r').
  { destruct Hr as [<- | [<- | [<- | []]]]; eexists _, _; reflexivity. }
  destruct Hshape as (cs & r' & ->). cbn [run] in He.
  destruct (at_boundary prev s); [| destruct He].
  destruct s as [|c s]; [destruct He |].
  destruct (cset_match true cs c); [| destruct He].
  apply in_map_iff in He. destruct He as (e' & <- & _). lia.
Qed.

Lemma NoDup_snoc {A : Type} (l : list A) (x : A) :
  List.NoDup l -> ~ In x l -> List.NoDup (l ++ [x]).
Proof.
  intros Hl Hx. induction Hl as [|y l Hy Hl IH]; cbn.
  - constructor; [intros [] | constructor].
  - constructor.
    + rewrite in_app_iff. cbn. intros [H | [-> | []]]; [tauto |].
      apply Hx. left. reflexivity.
    + apply IH. intros H. apply Hx. right. exact H.
Qed.

Lemma match_step_ok (text : str) (sentences base : list str) (r : regex)
    (st : list str * list str) (m : nat * nat) :
  In r behavioral_regexes ->
  In m (finditer true r (lower text)) ->
  records_ok text base st ->
  records_ok text base (match_step (lower text) sentences st m).
Proof.
  intros Hr Hm [(wild & Hst & Hwild) Hnd]. destruct m as [a b].
  unfold match_step. cbn [fst snd].
  destruct (mem (slice (lower text) a b) (map lower st.1)) eqn:Hmem.
  - split; [exists wild; tauto | exact Hnd].
  - cbn [fst]. split.
    + exists (wild ++ [slice (lower text) a b]). split.
      * rewrite Hst, app_assoc. reflexivity.
      * apply Forall_app. split; [exact Hwild |].
        constructor; [| constructor].
        pose proof (finditer_spans _ _ _ _ _ Hm) as (H1 & H2 & H3).
        apply (behavioral_run_pos _ _ _ _ Hr) in H3.
        rewrite length_lower in H2.
        exists r, a, b. repeat split; try assumption; try lia.
        symmetry. apply lower_slice.
    + cbn [fst]. rewrite List.map_app. cbn [map]. apply NoDup_snoc; [exact Hnd |].
      rewrite <- lower_slice, lower_idem, lower_slice.
      rewrite <- mem_spec, Hmem. discriminate.
Qed.

Lemma scan_matches_ok (text : str) (sentences base : list str) (r : regex)
    (st : list str * list str) :
  In r behavioral_regexes ->
  records_ok text base st ->
  records_ok text base (scan_matches (lower text) sentences st r).
Proof.
  intros Hr. unfold scan_matches.
  assert (H : forall ms, (forall m, In m ms -> In m (finditer true r (lower text))) ->
            forall st, records_ok text base st ->
              records_ok text base (fold_left (match_step (lower text) sentences) ms st)).
  { induction ms as [|m ms IH]; intros Hms st0 Hst0; [exact Hst0 |].
    cbn [fold_left]. apply IH.
    - intros m' Hm'. apply Hms. right. exact Hm'.
    - apply (match_step_ok _ _ _ r); [exact Hr | apply Hms; left; reflexivity | exact Hst0]. }
  apply H. tauto.
Qed.

Lemma sublist_map {A B : Type} (f : A -> B) (l1 l2 : list A) :
  sublist l1 l2 -> sublist (map f l1) (map f l2).
Proof.
  induction 1; cbn; constructor; assumption.
Qed.

Lemma behavioral_base_keywords_NoDup : List.NoDup (map lower behavioral_base_keywords).
Proof.
  cbn. constructor; [| constructor; [intros [] | constructor]].
  intros [H | []]. discriminate.
Qed.

(** C4, as the code has it.  The terms the behavioural matcher reports are
    the literal phrases found, followed by the wildcard matches; every
    wildcard match is recorded as the lower-cased form of the non-empty
    substring of the text it covers (the same span of the lower-cased text),
    never as the template; and no two reported terms have the same
    lower-cased form. *)
Theorem find_behavioral_keywords_in_text_records (text : str) :
  exists base base_sentences wild sentences,
    find_keywords_in_text text behavioral_base_keywords = Some (base, base_sentences) /\
    find_behavioral_keywords_in_text text = Some (base ++ wild, sentences) /\
    Forall (wildcard_record text) wild /\
    List.NoDup (map lower (base ++ wild)).
Proof.
  destruct (find_keywords_in_text_sublist text behavioral_base_keywords)
    as (base & bs & Hbase & Hsub).
  rewrite find_behavioral_keywords_in_text_eq.
  destruct text as [|c text].
  - rewrite find_keywords_in_text_eq in Hbase. injection Hbase as <- <-.
    exists [], [], [], []. repeat split; constructor.
  - rewrite Hbase. cbn [mbind option_bind].
    assert (Hok : records_ok (c :: text) base
              (fold_left (scan_matches (lower (c :: text)) (split_sentences (c :: text)))
                 behavioral_regexes (base, bs))).
    { assert (H : forall rs, (forall r, In r rs -> In r behavioral_regexes) ->
                forall st, records_ok (c :: text) base st ->
                  records_ok (c :: text) base
                    (fold_left (scan_matches (lower (c :: text))
                                  (split_sentences (c :: text))) rs st)).
      { induction rs as [|r rs IH]; intros Hrs st Hst; [exact Hst |].
        cbn [fold_left]. apply IH.
        - intros r' Hr'. apply Hrs. right. exact Hr'.
        - apply scan_matches_ok; [apply Hrs; left; reflexivity | exact Hst]. }
      apply H; [tauto |]. split.
      - exists []. cbn [fst]. rewrite app_nil_r. split; [reflexivity | constructor].
      - cbn [fst]. eapply sublist_NoDup_std.
        + apply sublist_map. exact Hsub.
        + apply behavioral_base_keywords_NoDup. }
    destruct (fold_left _ _ _) as [found sentences].
    destruct Hok as [(wild & Hfound & Hwild) Hnd]. cbn [fst] in *. subst found.
    exists base, bs, wild, sentences. tauto.
Qed.

(** C4, as the specification words it, fails: the term recorded for
    "Behavioral Therapy" is "behavioral therapy", which is no substring of
    the text. *)
Lemma find_behavioral_keywords_in_text_loses_case :
  find_behavioral_keywords_in_text (lit "Behavioral Therapy")
    = Some ([lit "behavioral therapy"], [lit "Behavioral Therapy"]) /\
  find_keywords_in_text (lit "Behavioral Therapy") behavioral_base_keywords
    = Some ([], []) /\
  contains (lit "behavioral therapy") (lit "Behavioral Therapy") = false /\
  slice (lit "Behavioral Therapy") 0 18 = lit "Behavioral Therapy".
Proof. vm_compute. repeat split; reflexivity. Qed.

(** ** The spans the highlighter keeps *)

Lemma overlaps_sym (a b : hmatch) : overlaps a b = overlaps b a.
Proof. unfold overlaps. apply andb_comm. Qed.

Lemma overlaps_share_index (a b : hmatch) :
  overlaps a b = false -> ~ Spec.share_index a b.
Proof.
  unfold overlaps, Spec.share_index. intros H (k & Ha & Hb).
  apply andb_false_iff in H. destruct H as [H | H];
    apply Nat.ltb_ge in H; lia.
Qed.

Lemma FOP_snoc {A : Type} (R : A -> A -> Prop) (l : list A) (x : A) :
  ForallOrdPairs R l -> Forall (fun y => R y x) l -> ForallOrdPairs R (l ++ [x]).
Proof.
  intros Hl Hx. induction Hl as [|y l Hy Hl IH]; cbn.
  - constructor; constructor.
  - inversion Hx as [|? ? Hyx Hx']; subst. constructor.
    + apply Forall_app. split; [exact Hy | constructor; [exact Hyx | constructor]].
    + apply IH. exact Hx'.
Qed.

Lemma FOP_sublist {A : Type} (R : A -> A -> Prop) (l1 l2 : list A) :
  sublist l1 l2 -> ForallOrdPairs R l2 -> ForallOrdPairs R l1.
Proof.
  induction 1 as [|y l1 l2 Hs IH|y l1 l2 Hs IH]; intros H.
  - constructor.
  - inversion H as [|? ? Hy H']; subst. constructor.
    + rewrite List.Forall_forall in *. intros z Hz. apply Hy.
      eapply sublist_In; eassumption.
    + apply IH. exact H'.
  - inversion H; subst. apply IH. assumption.
Qed.

Lemma FOP_nth {A : Type} (R : A -> A -> Prop) (l : list A) :
  ForallOrdPairs R l ->
  forall i j a b, i < j -> nth_error l i = Some a -> nth_error l j = Some b -> R a b.
Proof.
  induction 1 as [|x l Hx Hl IH]; intros i j a b Hij Ha Hb.
  - destruct i; discriminate.
  - destruct j as [|j]; [lia |]. cbn in Hb. destruct i as [|i].
    + cbn in Ha. injection Ha as ->.
      rewrite List.Forall_forall in Hx. apply Hx.
      eapply nth_error_In. exact Hb.
    + cbn in Ha. apply (IH i j); [lia | assumption | assumption].
Qed.

Lemma keep_loop_separated (l : list hmatch) :
  forall acc,
    ForallOrdPairs (fun a b => overlaps a b = false) acc ->
    ForallOrdPairs (fun a b => overlaps a b = false) (fold_left keep_step l acc).
Proof.
  induction l as [|m l IH]; intros acc Hacc; [exact Hacc |].
  cbn [fold_left]. apply IH. unfold keep_step.
  destruct (existsb (overlaps m) acc) eqn:E; [exact Hacc |].
  apply FOP_snoc; [exact Hacc |].
  rewrite List.Forall_forall. intros y Hy.
  rewrite overlaps_sym.
  destruct (overlaps m y) eqn:E2; [| reflexivity].
  assert (existsb (overlaps m) acc = true)
    by (apply existsb_exists; exists y; tauto).
  congruence.
Qed.

Lemma keep_loop_sublist (l : list hmatch) :
  forall acc, exists l', fold_left keep_step l acc = acc ++ l' /\ sublist l' l.
Proof.
  induction l as [|m l IH]; intros acc.
  - exists []. rewrite app_nil_r. split; [reflexivity | constructor].
  - cbn [fold_left]. destruct (IH (keep_step acc m)) as (l' & Heq & Hsub).
    unfold keep_step in *. destruct (existsb (overlaps m) acc).
    + exists l'. split; [exact Heq | constructor; exact Hsub].
    + exists (m :: l'). rewrite Heq, <- app_assoc. split; [reflexivity |].
      constructor. exact Hsub.
Qed.

Lemma filter_overlaps_sublist (l : list hmatch) : sublist (filter_overlaps l) l.
Proof.
  unfold filter_overlaps. destruct (keep_loop_sublist l []) as (l' & -> & H). exact H.
Qed.

Lemma insert_desc_In (m x : hmatch) (l : list hmatch) :
  In x (insert_desc m l) <-> x = m \/ In x l.
Proof.
  induction l as [|y l IH]; cbn.
  - split; intros [H | H]; auto.
  - destruct (m_start y <=? m_start m); cbn; [split; intros [H | H]; auto |].
    rewrite IH. tauto.
Qed.

Lemma insert_desc_sorted (m : hmatch) (l : list hmatch) :
  ForallOrdPairs (fun a b => m_start b <= m_start a) l ->
  ForallOrdPairs (fun a b => m_start b <= m_start a) (insert_desc m l).
Proof.
  induction 1 as [|y l Hy Hl IH]; cbn.
  - constructor; constructor.
  - destruct (Nat.leb_spec (m_start y) (m_start m)) as [Hle | Hgt].
    + constructor; [| constructor; assumption].
      constructor; [exact Hle |].
      rewrite List.Forall_forall in *. intros z Hz. specialize (Hy z Hz). lia.
    + constructor; [| exact IH].
      rewrite List.Forall_forall in *. intros z Hz.
      apply insert_desc_In in Hz. destruct Hz as [-> | Hz]; [lia | apply Hy; exact Hz].
Qed.

Lemma sort_matches_sorted (l : list hmatch) :
  ForallOrdPairs (fun a b => m_start b <= m_start a) (sort_matches l).
Proof.
  induction l as [|m l IH]; cbn; [constructor | apply insert_desc_sorted; exact IH].
Qed.

Lemma sort_matches_In (l : list hmatch) (x : hmatch) :
  In x (sort_matches l) <-> In x l.
Proof.
  induction l as [|m l IH]; cbn; [reflexivity |].
  rewrite insert_desc_In, IH. split; intros [H | H]; auto.
Qed.

Lemma keyword_matches_ok (uwb : bool) (text class_name : str)
    (acc acc' : list hmatch) (keyword : str) :
  keyword_matches uwb text class_name acc keyword = Some acc' ->
  Forall (span_ok text) acc -> Forall (span_ok text) acc'.
Proof.
  unfold keyword_matches.
  destruct (compile (keyword_pattern uwb keyword)) as [r|]; [| discriminate].
  cbn [mbind option_bind]. intros [= <-] Hacc.
  apply Forall_app. split; [exact Hacc |].
  rewrite List.Forall_forall. intros m Hm.
  apply in_map_iff in Hm. destruct Hm as ([a b] & <- & Hab).
  apply finditer_spans in Hab. unfold span_ok. cbn. tauto.
Qed.

Lemma for_each_preserves {A B : Type} (P : A -> Prop) (f : A -> B -> option A)
    (xs : list B) :
  (forall a a' x, f a x = Some a' -> P a -> P a') ->
  forall a a', for_each f xs a = Some a' -> P a -> P a'.
Proof.
  intros Hf. induction xs as [|x xs IH]; intros a a'; cbn [for_each].
  - intros [= <-]. tauto.
  - destruct (f a x) as [a1|] eqn:E; [| discriminate].
    cbn [mbind option_bind]. intros H Ha. apply (IH a1 a' H).
    apply (Hf a a1 x E Ha).
Qed.

Lemma collect_matches_ok (uwb : bool) (text : str) (sel : selection)
    (all_matches : list hmatch) :
  collect_matches uwb text sel = Some all_matches ->
  Forall (span_ok text) all_matches.
Proof.
  intros H. unfold collect_matches in H.
  apply (for_each_preserves (Forall (span_ok text)) _ _) in H;
    [exact H | | constructor].
  intros a a' [category keywords] Hc Ha. unfold category_matches in Hc.
  cbn [fst snd] in Hc.
  destruct keywords as [|k ks]; [injection Hc as <-; exact Ha |].
  revert Hc Ha. apply for_each_preserves.
  intros b b' x. apply keyword_matches_ok.
Qed.

Lemma kept_matches_spans_ok (uwb : bool) (text : str) (sel : selection)
    (kept : list hmatch) :
  kept_matches uwb text sel = Some kept -> Forall (span_ok text) kept.
Proof.
  unfold kept_matches.
  destruct (collect_matches uwb text sel) as [all_matches|] eqn:E; [| discriminate].
  cbn [mbind option_bind]. intros [= <-].
  apply collect_matches_ok in E. rewrite List.Forall_forall in *.
  intros m Hm. apply E. apply sort_matches_In.
  eapply sublist_In; [apply filter_overlaps_sublist | exact Hm].
Qed.

(** C6. The spans the highlighter applies are pairwise disjoint in the
    coordinates of the text: no two of them share an index.  They stand in
    descending order of their start offset, and each lies inside the text and
    carries the substring it covers. *)
Theorem kept_matches_disjoint (use_word_boundary : bool) (text : str)
    (all_selected_keywords : selection) (kept : list hmatch) :
  kept_matches use_word_boundary text all_selected_keywords = Some kept ->
  (forall i j a b, i <> j ->
     nth_error kept i = Some a -> nth_error kept j = Some b ->
     ~ Spec.share_index a b) /\
  (forall i j a b, i < j ->
     nth_error kept i = Some a -> nth_error kept j = Some b ->
     m_start b <= m_start a) /\
  Forall (span_ok text) kept.
Proof.
  intros Hkept. pose proof (kept_matches_spans_ok _ _ _ _ Hkept) as Hok.
  revert Hkept. unfold kept_matches.
  destruct (collect_matches use_word_boundary text all_selected_keywords)
    as [all_matches|] eqn:E; [| discriminate].
  cbn [mbind option_bind]. intros [= <-].
  pose proof (filter_overlaps_sublist (sort_matches all_matches)) as Hsub.
  assert (Hsep : ForallOrdPairs (fun a b => overlaps a b = false)
                   (filter_overlaps (sort_matches all_matches)))
    by (apply keep_loop_separated; constructor).
  split; [| split].
  - intros i j a b Hij Ha Hb.
    destruct (Nat.lt_total i j) as [Hlt | [Heq | Hgt]]; [| congruence |].
    + apply overlaps_share_index. apply (FOP_nth _ _ Hsep i j); assumption.
    + apply overlaps_share_index. rewrite overlaps_sym.
      apply (FOP_nth _ _ Hsep j i); assumption.
  - apply FOP_nth. eapply FOP_sublist; [exact Hsub | apply sort_matches_sorted].
  - exact Hok.
Qed.

(** ** Applying the spans *)

Lemma erase_apply_match_tracked (t : tracked) (m : hmatch) :
  erase (apply_match_tracked t m) = apply_match (erase t) m.
Proof.
  unfold erase, apply_match_tracked, apply_match, markup, content.
  rewrite !List.map_app, !map_map, <- firstn_map, <- skipn_map.
  cbn [fst]. rewrite !map_id. reflexivity.
Qed.

Lemma erase_fold (kept : list hmatch) :
  forall t, erase (fold_left apply_match_tracked kept t)
            = fold_left apply_match kept (erase t).
Proof.
  induction kept as [|m kept IH]; intros t; [reflexivity |].
  cbn [fold_left]. rewrite IH, erase_apply_match_tracked. reflexivity.
Qed.

Lemma erase_content (s : str) : erase (content s) = s.
Proof. unfold erase, content. rewrite map_map. cbn. apply map_id. Qed.

(** Forgetting the marks of the tracked computation gives the string the
    highlighter returns. *)
Lemma erase_highlight_tracked (uwb : bool) (text : str) (sel : selection) :
  erase <$> highlight_tracked uwb text sel = highlight_all_keywords uwb text sel.
Proof.
  unfold highlight_tracked, highlight_all_keywords.
  destruct text as [|c text]; [reflexivity |].
  destruct (kept_matches uwb (c :: text) sel) as [kept|]; [| reflexivity].
  cbn [mbind option_bind fmap option_fmap option_map].
  rewrite erase_fold, erase_content. reflexivity.
Qed.

Lemma strip_markers_app (a b : tracked) :
  strip_markers (a ++ b) = strip_markers a ++ strip_markers b.
Proof. unfold strip_markers. rewrite List.filter_app, List.map_app. reflexivity. Qed.

Lemma strip_markers_markup (s : str) : strip_markers (markup s) = [].
Proof. induction s as [|c s IH]; [reflexivity | exact IH]. Qed.

Lemma strip_markers_content (s : str) : strip_markers (content s) = s.
Proof.
  induction s as [|c s IH]; [reflexivity |].
  unfold strip_markers, content in *. cbn. rewrite IH. reflexivity.
Qed.

Lemma firstn_content (n : nat) (s : str) : firstn n (content s) = content (firstn n s).
Proof. unfold content. apply firstn_map. Qed.

Lemma skipn_content (n : nat) (s : str) : skipn n (content s) = content (skipn n s).
Proof. unfold content. apply skipn_map. Qed.

Lemma slice_glue (text : str) (a b c : nat) :
  a <= b -> b <= c ->
  firstn a text ++ slice text a b ++ slice text b c = firstn c text.
Proof.
  intros Hab Hbc. unfold slice.
  rewrite <- (firstn_skipn a (firstn c text)).
  rewrite firstn_firstn, Nat.min_l by lia. f_equal.
  rewrite <- (firstn_skipn (b - a) (skipn a (firstn c text))).
  rewrite skipn_firstn_comm, firstn_firstn, Nat.min_l by lia. f_equal.
  rewrite skipn_firstn_comm, skipn_skipn.
  replace (c - a - (b - a)) with (c - b) by lia.
  replace (b - a + a) with b by lia. reflexivity.
Qed.

Lemma apply_chain (text : str) (kept : list hmatch) :
  forall (t : tracked) (p : nat),
    firstn p t = content (firstn p text) ->
    strip_markers t = text ->
    p <= length text ->
    Forall (span_ok text) kept ->
    chain p kept ->
    strip_markers (fold_left apply_match_tracked kept t) = text.
Proof.
  induction kept as [|m kept IH]; intros t p Hpre Hstrip Hp Hok Hchain; [exact Hstrip |].
  cbn [fold_left]. destruct Hchain as [Hend Hchain].
  pose proof (List.Forall_inv Hok) as (Hse & _ & Htext).
  pose proof (List.Forall_inv_tail Hok) as Hok'.
  assert (Hsplit : t = content (firstn p text) ++ skipn p t)
    by (rewrite <- Hpre; symmetry; apply firstn_skipn).
  assert (Hlen : length (content (firstn p text)) = p).
  { unfold content. rewrite length_map, length_firstn. lia. }
  assert (Hfirst : firstn (m_start m) t = content (firstn (m_start m) text)).
  { rewrite Hsplit, firstn_app, Hlen.
    replace (m_start m - p) with 0 by lia. cbn [firstn]. rewrite app_nil_r.
    rewrite firstn_content, firstn_firstn, Nat.min_l by lia. reflexivity. }
  assert (Hskip : skipn (m_end m) t = content (slice text (m_end m) p) ++ skipn p t).
  { rewrite Hsplit at 1. rewrite skipn_app, Hlen.
    replace (m_end m - p) with 0 by lia. cbn [skipn].
    rewrite skipn_content, skipn_firstn_comm. reflexivity. }
  apply (IH _ (m_start m)); try assumption; try lia.
  - unfold apply_match_tracked. rewrite Hfirst, firstn_app.
    assert (Hl : length (content (firstn (m_start m) text)) = m_start m).
    { unfold content. rewrite length_map, length_firstn. lia. }
    rewrite Hl, Nat.sub_diag. cbn [firstn]. rewrite app_nil_r.
    rewrite firstn_content, firstn_firstn, Nat.min_id. reflexivity.
  - unfold apply_match_tracked. rewrite Hfirst, Hskip.
    rewrite !strip_markers_app, !strip_markers_markup, !strip_markers_content.
    cbn [app]. rewrite Htext.
    rewrite Hsplit, strip_markers_app, strip_markers_content in Hstrip.
    rewrite !app_assoc, <- (app_assoc (firstn _ _)), slice_glue by lia.
    exact Hstrip.
Qed.

Lemma sorted_separated_chain (m : hmatch) (kept : list hmatch) :
  ForallOrdPairs (fun a b => m_start b <= m_start a) (m :: kept) ->
  ForallOrdPairs (fun a b => overlaps a b = false) (m :: kept) ->
  Forall (fun x => m_start x < m_end x) (m :: kept) ->
  chain (m_start m) kept.
Proof.
  revert m. induction kept as [|n kept IH]; intros m Hsort Hsep Hne; [exact I |].
  inversion Hsort as [|? ? Hs1 Hsort']; subst.
  inversion Hsep as [|? ? Hp1 Hsep']; subst.
  inversion Hne as [|? ? Hm Hne']; subst.
  inversion Hs1 as [|? ? Hmn _]; subst.
  inversion Hp1 as [|? ? Hov _]; subst.
  inversion Hne' as [|? ? Hn _]; subst.
  cbn [chain]. split; [| apply IH; assumption].
  unfold overlaps in Hov. apply andb_false_iff in Hov.
  destruct Hov as [H | H]; apply Nat.ltb_ge in H; lia.
Qed.

(** The round trip of the highlighter, where it holds: when no candidate
    match is empty, dropping the inserted markers from the output gives the
    text back. *)
Lemma highlight_preserves_content (uwb : bool) (text : str) (sel : selection)
    (all_matches : list hmatch) :
  collect_matches uwb text sel = Some all_matches ->
  Forall (fun m => m_start m < m_end m) all_matches ->
  exists out,
    highlight_tracked uwb text sel = Some out /\
    highlight_all_keywords uwb text sel = Some (erase out) /\
    strip_markers out = text.
Proof.
  intros Hc Hne.
  assert (Hex : exists out, highlight_tracked uwb text sel = Some out /\
                            strip_markers out = text).
  { unfold highlight_tracked. destruct text as [|c text].
    - exists []. split; reflexivity.
    - pose proof (kept_matches_spans_ok uwb (c :: text) sel) as Hok.
      unfold kept_matches in *. rewrite Hc in *. cbn [mbind option_bind] in *.
      specialize (Hok _ eq_refl).
      eexists. split; [reflexivity |].
      set (kept := filter_overlaps (sort_matches all_matches)) in *.
      pose proof (filter_overlaps_sublist (sort_matches all_matches)) as Hsub.
      fold kept in Hsub.
      assert (Hsort : ForallOrdPairs (fun a b => m_start b <= m_start a) kept)
        by (eapply FOP_sublist; [exact Hsub | apply sort_matches_sorted]).
      assert (Hsep : ForallOrdPairs (fun a b => overlaps a b = false) kept)
        by (apply keep_loop_separated; constructor).
      assert (Hne' : Forall (fun m => m_start m < m_end m) kept).
      { rewrite List.Forall_forall in *. intros m Hm. apply Hne.
        apply sort_matches_In. eapply sublist_In; eassumption. }
      apply (apply_chain _ _ _ (length (c :: text))); try assumption.
      + rewrite firstn_all2 by (unfold content; rewrite length_map; lia).
        rewrite firstn_all. reflexivity.
      + apply strip_markers_content.
      + lia.
      + destruct kept as [|m kept']; [exact I |]. cbn [chain]. split.
        * inversion Hok as [|? ? (_ & H & _) _]. exact H.
        * apply sorted_separated_chain; assumption. }
  destruct Hex as (out & Hout & Hstrip). exists out.
  split; [exact Hout |]. split; [| exact Hstrip].
  rewrite <- erase_highlight_tracked, Hout. reflexivity.
Qed.


(** ** The two expansions of the wildcard templates *)

Lemma hd_error_app {A : Type} (l1 l2 l1' l2' : list A) :
  hd_error l1 = hd_error l1' -> hd_error l2 = hd_error l2' ->
  hd_error (l1 ++ l2) = hd_error (l1' ++ l2').
Proof.
  destruct l1, l1'; cbn; intros H1 H2; try discriminate; assumption.
Qed.

Lemma hd_error_map {A B : Type} (f : A -> B) (l l' : list A) :
  hd_error l = hd_error l' -> hd_error (map f l) = hd_error (map f l').
Proof.
  destruct l, l'; cbn; intros H; try discriminate; [reflexivity | congruence].
Qed.

Lemma star_same_first (ic : bool) (cs : cset) (k1 k2 : option ascii -> str -> list nat) :
  same_first k1 k2 -> same_first (star ic cs k1) (star ic cs k2).
Proof.
  intros Hk prev s. revert prev. induction s as [|c s IH]; intros prev; cbn [star].
  - apply Hk.
  - destruct (cset_match ic cs c); [| apply Hk].
    apply hd_error_app; [apply hd_error_map, IH | apply Hk].
Qed.

Lemma run_cons_same_first (ic : bool) (n : node) (r1 r2 : regex) :
  same_first (run ic r1) (run ic r2) ->
  same_first (run ic (n :: r1)) (run ic (n :: r2)).
Proof.
  intros H prev s. destruct n as [|cs|cs|cs]; cbn [run].
  - destruct (at_boundary prev s); [apply H | reflexivity].
  - destruct s as [|c s]; [reflexivity |].
    destruct (cset_match ic cs c); [apply hd_error_map, H | reflexivity].
  - apply star_same_first. exact H.
  - destruct s as [|c s]; [reflexivity |].
    destruct (cset_match ic cs c); [| reflexivity].
    apply hd_error_map, star_same_first. exact H.
Qed.

Lemma run_app_same_first (ic : bool) (pre r1 r2 : regex) :
  same_first (run ic r1) (run ic r2) ->
  same_first (run ic (pre ++ r1)) (run ic (pre ++ r2)).
Proof.
  intros H. induction pre as [|n pre IH]; [exact H |].
  cbn [app]. apply run_cons_same_first. exact IH.
Qed.

(** After a word character, a greedy [\w*] stops at a word boundary: the
    closing [\b] of the highlighter's pattern changes nothing in the first
    match found. *)
Lemma word_star_boundary (s : str) :
  forall prev, exists e,
    hd_error (star true CWord (run true []) prev s) = Some e /\
    (word_opt prev = true ->
     hd_error (star true CWord (run true [NBound]) prev s) = Some e).
Proof.
  induction s as [|c s IH]; intros prev.
  - exists 0. split; [reflexivity |]. intros Hw. cbn.
    unfold at_boundary. rewrite Hw. reflexivity.
  - cbn [star cset_match]. destruct (is_word c) eqn:Hc.
    + destruct (IH (Some c)) as (e & H1 & H2). specialize (H2 Hc).
      exists (S e). split.
      * destruct (star true CWord (run true []) (Some c) s); [discriminate |].
        cbn in *. congruence.
      * intros _.
        destruct (star true CWord (run true [NBound]) (Some c) s); [discriminate |].
        cbn in *. congruence.
    + exists 0. split; [reflexivity |]. intros Hw. cbn [run].
      unfold at_boundary. rewrite Hw. cbn. rewrite Hc. reflexivity.
Qed.

Lemma closing_boundary_same_first (c : ascii) :
  is_word c = true ->
  same_first (run true [NOne (CLit c); NStar CWord])
             (run true [NOne (CLit c); NStar CWord; NBound]).
Proof.
  intros Hc prev s. cbn [run]. destruct s as [|c0 s]; [reflexivity |].
  cbn [cset_match]. destruct (Ascii.eqb_spec (lower_char c) (lower_char c0)) as [E|_];
    [| reflexivity].
  assert (Hc0 : is_word c0 = true)
    by (rewrite <- is_word_lower_char, <- E, is_word_lower_char; exact Hc).
  apply hd_error_map.
  destruct (word_star_boundary s (Some c0)) as (e & H1 & H2).
  specialize (H2 Hc0). cbn [run] in H1, H2.
  etransitivity; [exact H1 | symmetry; exact H2].
Qed.

Lemma run_pos (ic : bool) (cs : cset) (r : regex) (prev : option ascii) (s : str) (e : nat) :
  In e (run ic (NBound :: NOne cs :: r) prev s) -> 0 < e.
Proof.
  cbn [run]. intros He.
  destruct (at_boundary prev s); [| destruct He].
  destruct s as [|c s]; [destruct He |].
  destruct (cset_match ic cs c); [| destruct He].
  apply in_map_iff in He. destruct He as (e' & <- & _). lia.
Qed.

Lemma filter_nonzero (l : list nat) :
  (forall e, In e l -> 0 < e) -> List.filter (fun e => negb (e =? 0)) l = l.
Proof.
  induction l as [|x l IH]; intros H; [reflexivity |].
  cbn. destruct (Nat.eqb_spec x 0) as [->|_].
  - specialize (H 0 (or_introl eq_refl)). lia.
  - cbn. f_equal. apply IH. intros e He. apply H. right. exact He.
Qed.

Lemma search_at_same_first (ic : bool) (r1 r2 : regex) :
  same_first (run ic r1) (run ic r2) ->
  (forall prev s e, In e (run ic r1 prev s) -> 0 < e) ->
  (forall prev s e, In e (run ic r2 prev s) -> 0 < e) ->
  forall s prev pos ma,
    search_at ic r1 prev s pos ma = search_at ic r2 prev s pos ma.
Proof.
  intros Hsame Hp1 Hp2. induction s as [|c s IH]; intros prev pos ma; cbn [search_at].
  - assert (E1 : (if ma then List.filter (fun e => negb (e =? 0)) (run ic r1 prev [])
                  else run ic r1 prev []) = run ic r1 prev [])
      by (destruct ma; [apply filter_nonzero, Hp1 | reflexivity]).
    assert (E2 : (if ma then List.filter (fun e => negb (e =? 0)) (run ic r2 prev [])
                  else run ic r2 prev []) = run ic r2 prev [])
      by (destruct ma; [apply filter_nonzero, Hp2 | reflexivity]).
    rewrite E1, E2. specialize (Hsame prev []).
    destruct (run ic r1 prev []), (run ic r2 prev []); cbn in Hsame;
      try discriminate; congruence.
  - assert (E1 : (if ma then List.filter (fun e => negb (e =? 0)) (run ic r1 prev (c :: s))
                  else run ic r1 prev (c :: s)) = run ic r1 prev (c :: s))
      by (destruct ma; [apply filter_nonzero, Hp1 | reflexivity]).
    assert (E2 : (if ma then List.filter (fun e => negb (e =? 0)) (run ic r2 prev (c :: s))
                  else run ic r2 prev (c :: s)) = run ic r2 prev (c :: s))
      by (destruct ma; [apply filter_nonzero, Hp2 | reflexivity]).
    rewrite E1, E2. specialize (Hsame prev (c :: s)).
    destruct (run ic r1 prev (c :: s)), (run ic r2 prev (c :: s)); cbn in Hsame;
      try discriminate; [apply IH | congruence].
Qed.

Lemma finditer_same_first (ic : bool) (r1 r2 : regex) (t : str) :
  same_first (run ic r1) (run ic r2) ->
  (forall prev s e, In e (run ic r1 prev s) -> 0 < e) ->
  (forall prev s e, In e (run ic r2 prev s) -> 0 < e) ->
  finditer ic r1 t = finditer ic r2 t.
Proof.
  intros Hsame Hp1 Hp2. unfold finditer.
  assert (H : forall fuel start ma,
             finditer_loop fuel ic r1 t start ma = finditer_loop fuel ic r2 t start ma).
  { induction fuel as [|fuel IH]; intros start ma; [reflexivity |].
    cbn [finditer_loop]. unfold search_from.
    rewrite (search_at_same_first ic r1 r2 Hsame Hp1 Hp2).
    destruct (start <=? length t); [| reflexivity].
    destruct (search_at ic r2 _ _ _ _) as [[a b]|]; [| reflexivity].
    rewrite IH. reflexivity. }
  apply H.
Qed.

(** For "behavio* interven*" and "behavio* therap*" the highlighter's
    expansion and the rule-based pattern find the same spans in every
    text. *)
Lemma behavio_templates_agree (i : nat) (template pattern : str) :
  i = 1 \/ i = 2 ->
  nth_error wildcard_templates i = Some template ->
  nth_error behavioral_patterns i = Some pattern ->
  exists rh rr,
    convert_wildcard_to_regex template ≫= compile = Some rh /\
    compile pattern = Some rr /\
    forall t, finditer true rh t = finditer true rr t.
Proof.
  intros [-> | ->]; cbn [nth_error wildcard_templates behavioral_patterns map];
    intros [= <-] [= <-].
  - exists (NBound :: literals (lit "behavio") ++ [NStar CWord; NPlus CSpace] ++
            literals (lit "interve") ++ [NOne (CLit "n"); NStar CWord; NBound]),
           (NBound :: literals (lit "behavio") ++ [NStar CWord; NPlus CSpace] ++
            literals (lit "interve") ++ [NOne (CLit "n"); NStar CWord]).
    split; [reflexivity |]. split; [reflexivity |].
    intros t. symmetry. apply finditer_same_first.
    + apply (run_app_same_first true
               (NBound :: literals (lit "behavio") ++ [NStar CWord; NPlus CSpace] ++
                literals (lit "interve"))
               [NOne (CLit "n"); NStar CWord] [NOne (CLit "n"); NStar CWord; NBound]).
      apply closing_boundary_same_first. reflexivity.
    + intros prev s e. apply run_pos.
    + intros prev s e. apply run_pos.
  - exists (NBound :: literals (lit "behavio") ++ [NStar CWord; NPlus CSpace] ++
            literals (lit "thera") ++ [NOne (CLit "p"); NStar CWord; NBound]),
           (NBound :: literals (lit "behavio") ++ [NStar CWord; NPlus CSpace] ++
            literals (lit "thera") ++ [NOne (CLit "p"); NStar CWord]).
    split; [reflexivity |]. split; [reflexivity |].
    intros t. symmetry. apply finditer_same_first.
    + apply (run_app_same_first true
               (NBound :: literals (lit "behavio") ++ [NStar CWord; NPlus CSpace] ++
                literals (lit "thera"))
               [NOne (CLit "p"); NStar CWord] [NOne (CLit "p"); NStar CWord; NBound]).
      apply closing_boundary_same_first. reflexivity.
    + intros prev s e. apply run_pos.
    + intros prev s e. apply run_pos.
Qed.

(** C3 fails for "activity schedul*".  The highlighter expands the blank of
    the template to [\s+], the rule-based pattern keeps one literal space:
    on a text with two blanks between the words the highlighter finds and
    marks the phrase and the rule-based matcher finds nothing. *)
Theorem activity_schedul_expansions_differ :
  convert_wildcard_to_regex (lit "activity schedul*")
    = Some (lit "\bactivity\s+schedul\w*\b") /\
  nth_error behavioral_patterns 0 = Some (lit "\bactivity schedul\w*") /\
  (fun r => finditer true r (lit "Activity  scheduling"))
    <$> compile (lit "\bactivity\s+schedul\w*\b") = Some [(0, 20)] /\
  (fun r => finditer true r (lower (lit "Activity  scheduling")))
    <$> compile (lit "\bactivity schedul\w*") = Some [] /\
  highlight_all_keywords true (lit "Activity  scheduling")
    [(lit "behavioral", [lit "activity schedul*"])]
    = Some (span_open (lit "highlight-behavioral") ++
            lit "Activity  scheduling" ++ span_close) /\
  find_behavioral_keywords_in_text (lit "Activity  scheduling") = Some ([], []).
Proof. vm_compute. repeat split; reflexivity. Qed.

(** ** The reset button *)

Lemma at_set_same (idx : nat) (col : string) (v : cell) (d : gmap nat (gmap string cell)) :
  default ∅ (at_set idx col v d !! idx) = <[col := v]> (default ∅ (d !! idx)).
Proof. unfold at_set. rewrite lookup_insert_eq. reflexivity. Qed.

Lemma at_set_is_Some (idx : nat) (col : string) (v : cell) (d : gmap nat (gmap string cell)) :
  at_set idx col v d !! idx = Some (default ∅ (at_set idx col v d !! idx)).
Proof. unfold at_set. rewrite lookup_insert_eq. reflexivity. Qed.

Lemma at_set_other (idx idx' : nat) (col : string) (v : cell)
    (d : gmap nat (gmap string cell)) :
  idx' <> idx -> at_set idx col v d !! idx' = d !! idx'.
Proof. intros H. unfold at_set. apply lookup_insert_ne. congruence. Qed.

(** C9. Reset writes the empty string to the four human fields of the
    current record, "미완료" (not reviewed) to its review status and no date
    to its review date.  Every other column of the record, the rule-stage and
    LLM-stage columns among them, keeps its cell; every other record is
    untouched; the cursor does not move.  Of the session around the record,
    the handler marks it changed and puts the keyword selection back to all
    keywords. *)
Theorem reset_clears_human_fields_only (st : session) :
  current_idx (reset st) = current_idx st /\
  (exists row',
     df (reset st) !! current_idx st = Some row' /\
     row' !! "human_depression_keywords"%string = Some (Str "") /\
     row' !! "human_mobile_keywords"%string = Some (Str "") /\
     row' !! "human_behavioral_keywords"%string = Some (Str "") /\
     row' !! "human_result"%string = Some (Str "") /\
     row' !! "review_status"%string = Some (Str "미완료") /\
     row' !! "review_date"%string = Some NaN /\
     (forall col, ~ In col reset_columns ->
        row' !! col = default ∅ (df st !! current_idx st) !! col) /\
     Forall (fun col => row' !! col = default ∅ (df st !! current_idx st) !! col)
       stage_columns) /\
  (forall idx, idx <> current_idx st -> df (reset st) !! idx = df st !! idx) /\
  reviewer_name (reset st) = reviewer_name st /\
  data_page (reset st) = data_page st /\
  use_word_boundary (reset st) = use_word_boundary st /\
  changes_made (reset st) = true /\
  selected_keywords (reset st) = load_current_paper_keywords.
Proof.
  split; [reflexivity |]. split; [| split; [| repeat split]].
  - unfold reset. cbn [df].
    eexists. split; [apply at_set_is_Some |].
    rewrite !at_set_same.
    assert (Hother : forall col, ~ In col reset_columns ->
      (<["review_date"%string := NaN]>
        (<["review_status"%string := Str "미완료"]>
          (<["human_result"%string := Str ""]>
            (<["human_behavioral_keywords"%string := Str ""]>
              (<["human_mobile_keywords"%string := Str ""]>
                (<["human_depression_keywords"%string := Str ""]>
                  (default ∅ (df st !! current_idx st)))))))) !! col
      = default ∅ (df st !! current_idx st) !! col).
    { intros col Hcol. unfold reset_columns in Hcol. cbn [In] in Hcol.
      rewrite !lookup_insert_ne; [reflexivity | | | | | |]; intros <-; tauto. }
    repeat split.
    + rewrite !lookup_insert_ne by discriminate. apply lookup_insert_eq.
    + rewrite !lookup_insert_ne by discriminate. apply lookup_insert_eq.
    + rewrite !lookup_insert_ne by discriminate. apply lookup_insert_eq.
    + rewrite !lookup_insert_ne by discriminate. apply lookup_insert_eq.
    + rewrite !lookup_insert_ne by discriminate. apply lookup_insert_eq.
    + apply lookup_insert_eq.
    + exact Hother.
    + unfold stage_columns. repeat constructor; apply Hother;
        unfold reset_columns; cbn [In]; intros H;
        repeat (destruct H as [H | H]; [discriminate |]); exact H.
  - intros idx Hidx. unfold reset. cbn [df].
    rewrite !at_set_other by exact Hidx. reflexivity.
Qed.

(** ** The LLM second pass *)

Section SecondPass.

Variable chain_invoke : request -> option row.
Variable llm_invoke : request -> option Py.str.
Variable json_loads : Py.str -> option json.

Local Abbreviation process_single_article :=
  (LLMSecondaryFilter.process_single_article chain_invoke llm_invoke json_loads).
Local Abbreviation process_row :=
  (LLMSecondaryFilter.process_row chain_invoke llm_invoke json_loads).
Local Abbreviation process_rows :=
  (LLMSecondaryFilter.process_rows chain_invoke llm_invoke json_loads).
Local Abbreviation process_exclude_papers :=
  (LLMSecondaryFilter.process_exclude_papers chain_invoke llm_invoke json_loads).

Lemma lookup_rule_entries_result (r : row) (t a d m b : string)
    (rest : list (string * cell)) :
  (list_to_map (rule_entries r t a d m b ++ rest) : row) !! "rule_result"%string
  = Some (Str "exclude").
Proof.
  unfold rule_entries. cbn [app list_to_map foldr uncurry fst snd curry].
  rewrite !lookup_insert_ne by discriminate. apply lookup_insert_eq.
Qed.

Lemma lookup_after_rule_entries (r : row) (t a d m b : string)
    (rest : list (string * cell)) (col : string) :
  ~ In col ["DOI"; "Title"; "Authors"; "Journal/Book"; "Publication Year";
            "Abstract"; "rule_depression_keywords"; "rule_mobile_keywords";
            "rule_behavioral_keywords"; "rule_result"]%string ->
  (list_to_map (rule_entries r t a d m b ++ rest) : row) !! col
  = (list_to_map rest : row) !! col.
Proof.
  intros H. unfold rule_entries. cbn [app list_to_map foldr uncurry fst snd curry].
  cbn [In] in H.
  rewrite !lookup_insert_ne; [reflexivity | | | | | | | | | |]; intros <-; tauto.
Qed.

Lemma excluded_entries_lookup (reason : string) :
  (list_to_map (excluded_entries reason) : row) !! "llm_result"%string
    = Some (Str "exclude") /\
  (list_to_map (excluded_entries reason) : row) !! "llm_reason"%string
    = Some (Str reason) /\
  (list_to_map (excluded_entries reason) : row) !! "final_result"%string
    = Some (Str "exclude").
Proof.
  unfold excluded_entries. cbn [list_to_map foldr uncurry fst snd curry].
  repeat split;
    rewrite ?lookup_insert_ne by discriminate; apply lookup_insert_eq.
Qed.

Lemma llm_entries_lookup (d : row) :
  (list_to_map (llm_entries d) : row) !! "llm_result"%string
    = Some (get d "result" (Str "exclude")) /\
  (list_to_map (llm_entries d) : row) !! "final_result"%string
    = Some (get d "result" (Str "exclude")).
Proof.
  unfold llm_entries. cbn [list_to_map foldr uncurry fst snd curry].
  repeat split;
    rewrite ?lookup_insert_ne by discriminate; apply lookup_insert_eq.
Qed.

Ltac not_a_rule_column :=
  cbn [In]; intros H; repeat (destruct H as [H | H]; [discriminate |]); exact H.

Lemma failed_row (r : row) (reason : string) :
  let q := request_of r in
  let result : row :=
    list_to_map (rule_entries r (q_title q) (q_abstract q) (q_existing_depression q)
                   (q_existing_mobile q) (q_existing_behavioral q)
                 ++ excluded_entries reason) in
  result !! "rule_result"%string = Some (Str "exclude") /\
  result !! "llm_result"%string = Some (Str "exclude") /\
  result !! "llm_reason"%string = Some (Str reason) /\
  result !! "final_result"%string = Some (Str "exclude").
Proof.
  cbv zeta. destruct (excluded_entries_lookup reason) as (H1 & H2 & H3).
  split; [apply lookup_rule_entries_result |].
  rewrite !lookup_after_rule_entries by not_a_rule_column. tauto.
Qed.

(** Whatever happens to a record, the dictionary built for it is the
    dictionary of an excluded record whose final verdict is its LLM
    verdict. *)
Lemma process_row_excluded (r result : row) :
  process_row r = Some result -> excluded_result result.
Proof.
  unfold LLMSecondaryFilter.process_row, excluded_result.
  destruct (missing_text (request_of r)).
  - intros Hres; apply (inj Some) in Hres; subst result. destruct (failed_row r "제목 또는 초록 누락") as (H1 & H2 & _ & H4).
    split; [exact H1 |]. exists (Str "exclude"). tauto.
  - destruct (process_single_article (request_of r)) as [[d | []] |];
      try discriminate.
    + destruct (truthy (JDict d)); intros Hres; apply (inj Some) in Hres; subst result.
      * split; [apply lookup_rule_entries_result |].
        rewrite !lookup_after_rule_entries by not_a_rule_column.
        destruct (llm_entries_lookup d) as (H1 & H2). eexists. split; eassumption.
      * destruct (failed_row r "LLM 처리 실패") as (H1 & H2 & _ & H4).
        split; [exact H1 |]. exists (Str "exclude"). tauto.
    + intros Hres; apply (inj Some) in Hres; subst result. destruct (failed_row r "LLM 처리 실패") as (H1 & H2 & _ & H4).
      split; [exact H1 |]. exists (Str "exclude"). tauto.
    + intros Hres; apply (inj Some) in Hres; subst result. destruct (failed_row r "LLM 처리 실패") as (H1 & H2 & _ & H4).
      split; [exact H1 |]. exists (Str "exclude"). tauto.
Qed.


End SecondPass.

Section ExcludePapers.

Variable chain_invoke : request -> option row.
Variable llm_invoke : request -> option Py.str.
Variable json_loads : Py.str -> option json.

Local Abbreviation process_rows :=
  (LLMSecondaryFilter.process_rows chain_invoke llm_invoke json_loads).
Local Abbreviation process_exclude_papers :=
  (LLMSecondaryFilter.process_exclude_papers chain_invoke llm_invoke json_loads).

Lemma process_rows_results (rows : list row) :
  forall results final,
    process_rows rows results = Some final ->
    exists new, final = results ++ new /\ length new = length rows /\
                Forall excluded_result new.
Proof.
  induction rows as [|r rows IH]; intros results final; cbn [LLMSecondaryFilter.process_rows].
  - intros [= <-]. exists []. rewrite app_nil_r. repeat split. constructor.
  - destruct (LLMSecondaryFilter.process_row chain_invoke llm_invoke json_loads r)
      as [result|] eqn:E; [| discriminate].
    cbn [mbind option_bind]. intros H. apply IH in H.
    destruct H as (new & -> & Hlen & Hnew).
    exists (result :: new). rewrite <- app_assoc. repeat split.
    + cbn. congruence.
    + constructor; [| exact Hnew]. eapply process_row_excluded. exact E.
Qed.

(** A record the rule stage included keeps its columns and gets the LLM
    verdict "not_processed" and the final verdict "include". *)
Lemma include_with_llm_lookup (r : row) :
  include_with_llm r !! "llm_result"%string = Some (Str "not_processed") /\
  include_with_llm r !! "final_result"%string = Some (Str "include") /\
  include_with_llm r !! "rule_result"%string = Some (get r "result" NaN) /\
  (forall col, ~ In col added_columns -> include_with_llm r !! col = r !! col).
Proof.
  unfold include_with_llm. repeat split.
  - rewrite !lookup_insert_ne by discriminate. apply lookup_insert_eq.
  - apply lookup_insert_eq.
  - rewrite !lookup_insert_ne by discriminate. rewrite lookup_insert_eq.
    unfold get. rewrite !lookup_insert_ne by discriminate. reflexivity.
  - intros col H. unfold added_columns in H. cbn [In] in H.
    rewrite !lookup_insert_ne; [reflexivity | | | | | | | | | | | | |];
      intros <-; tauto.
Qed.

Lemma filter_all {A : Type} (f : A -> bool) (l : list A) :
  Forall (fun x => f x = true) l -> List.filter f l = l.
Proof.
  induction 1 as [|x l Hx _ IH]; cbn; [reflexivity |]. rewrite Hx, IH. reflexivity.
Qed.

Lemma filter_none {A : Type} (f : A -> bool) (l : list A) :
  Forall (fun x => f x = false) l -> List.filter f l = [].
Proof.
  induction 1 as [|x l Hx _ IH]; cbn; [reflexivity |]. rewrite Hx, IH. reflexivity.
Qed.

Lemma filter_length_le {A : Type} (f : A -> bool) (l : list A) :
  length (List.filter f l) <= length l.
Proof.
  induction l as [|x l IH]; cbn; [lia |]. destruct (f x); cbn; lia.
Qed.

(** The main path of the second pass.  When the rule stage excluded at
    least one record (and the checkpoint, if any, is one the function can
    resume from), the frame returned holds the included records first, each
    with its columns kept, the LLM verdict "not_processed" and the final
    verdict "include", and then one result per excluded record whose final
    verdict is its LLM verdict; so the LLM stage only adds includes. *)
Lemma process_exclude_papers_main_path (input : list row)
    (checkpoint : option (list row)) (final : list row) :
  rule_exclude_count input <> 0 ->
  checkpoint_ok input checkpoint ->
  process_exclude_papers input checkpoint = Some final ->
  exists results,
    final = map include_with_llm (List.filter (has_result "include") input) ++ results /\
    length results = rule_exclude_count input /\
    Forall excluded_result results /\
    rule_include_count input <= final_include_count final /\
    rescue_count final <= rule_exclude_count input.
Proof.
  intros Hex Hck. unfold LLMSecondaryFilter.process_exclude_papers.
  change (List.filter (has_result "exclude") input)
    with (List.filter (is_verdict "result" "exclude") input).
  fold (rule_exclude_count input).
  destruct (Nat.eqb_spec (rule_exclude_count input) 0) as [E|_]; [contradiction |].
  destruct (process_rows _ _) as [results|] eqn:Hrows; [| discriminate].
  cbn [mbind option_bind]. intros [= <-].
  apply process_rows_results in Hrows. destruct Hrows as (new & -> & Hlen & Hnew).
  set (old := match checkpoint with Some rs => rs | None => [] end) in *.
  assert (Hold : length old <= rule_exclude_count input /\ Forall excluded_result old).
  { unfold old. destruct checkpoint as [rs|]; [exact Hck |].
    split; [cbn; lia | constructor]. }
  destruct Hold as [Hold1 Hold2].
  rewrite length_skipn in Hlen. fold (rule_exclude_count input) in Hlen.
  exists (old ++ new). split; [reflexivity |].
  split; [rewrite length_app; lia |].
  split; [apply Forall_app; tauto |].
  unfold final_include_count, rescue_count, rule_include_count.
  rewrite !List.filter_app, !length_app.
  change (List.filter (has_result "include") input)
    with (List.filter (is_verdict "result" "include") input).
  set (incl := List.filter (is_verdict "result" "include") input).
  assert (Hincl : Forall (fun r => is_verdict "result" "include" r = true) incl).
  { rewrite List.Forall_forall. intros r Hr. apply filter_In in Hr. tauto. }
  split.
  - rewrite filter_all; [rewrite length_map; lia |].
    rewrite List.Forall_forall. intros r' Hr'. apply in_map_iff in Hr'.
    destruct Hr' as (r & <- & _). unfold is_verdict. apply bool_decide_eq_true.
    apply include_with_llm_lookup.
  - rewrite filter_none.
    + cbn [length].
      pose proof (filter_length_le
        (fun r => is_verdict "rule_result" "exclude" r && is_verdict "final_result" "include" r)
        (old ++ new)) as Hle.
      rewrite length_app in Hle. rewrite List.filter_app, length_app in *. lia.
    + rewrite List.Forall_forall. intros r' Hr'. apply in_map_iff in Hr'.
      destruct Hr' as (r & <- & Hr). rewrite List.Forall_forall in Hincl.
      specialize (Hincl r Hr). unfold is_verdict in *.
      apply bool_decide_eq_true in Hincl.
      apply andb_false_iff. left. apply bool_decide_eq_false.
      destruct (include_with_llm_lookup r) as (_ & _ & -> & _).
      unfold get. rewrite Hincl. discriminate.
Qed.

End ExcludePapers.

(** C7 fails when the rule stage excluded nothing.  The function then
    returns the frame it read: the included record has no LLM verdict
    "not_processed" and no final verdict at all, and the count of final
    includes, read off the frame as the pipeline reads it, is 0 against one
    record the rule stage included. *)
Theorem process_exclude_papers_returns_input_without_excludes
    (chain_invoke : request -> option row)
    (llm_invoke : request -> option Py.str)
    (json_loads : Py.str -> option json) :
  let r : row :=
    list_to_map [("Title", Str "Mobile App for Depression");
                 ("Abstract", Str "Behavioral activation on a smartphone.");
                 ("depression_keywords", Str "depression");
                 ("mobile_keywords", Str "mobile, smartphone, app");
                 ("behavioral_keywords", Str "behavioral activation");
                 ("result", Str "include")]%string in
  LLMSecondaryFilter.process_exclude_papers chain_invoke llm_invoke json_loads [r] None
    = Some [r] /\
  r !! "llm_result"%string = None /\
  r !! "final_result"%string = None /\
  rule_include_count [r] = 1 /\
  final_include_count [r] = 0.
Proof. vm_compute. repeat split; reflexivity. Qed.

(** ** Keywords that begin and end with a word character *)

Lemma occurs_at_char (k t : str) (i j : nat) (c : ascii) :
  Spec.occurs_at k t i -> nth_error k j = Some c ->
  Spec.word_at t (i + j) = is_word c.
Proof.
  intros [Hlen Heq] Hc.
  assert (Hj : j < length k) by (apply nth_error_Some; congruence).
  apply (f_equal (fun l => nth_error l j)) in Heq.
  unfold lower, slice in Heq. rewrite !nth_error_map, Hc in Heq.
  rewrite nth_error_firstn in Heq.
  destruct (Nat.ltb_spec j (i + length k - i)) as [_|Hge]; [| lia].
  rewrite nth_error_skipn in Heq. unfold Spec.word_at.
  destruct (nth_error t (i + j)) as [c'|]; [| discriminate].
  cbn in Heq. injection Heq as Heq.
  rewrite <- is_word_lower_char, Heq, is_word_lower_char. reflexivity.
Qed.

(** For a keyword whose first and last characters are word characters, as
    every keyword of the repository, lying between two word boundaries means
    that the characters next to the occurrence, where there are any, are no
    letters, digits or underscores. *)
Lemma occurs_bounded_between_non_words (k t : str) (first last : ascii) :
  nth_error k 0 = Some first -> is_word first = true ->
  nth_error k (length k - 1) = Some last -> is_word last = true ->
  (Spec.occurs_bounded k t <->
   exists i, Spec.occurs_at k t i /\
             (i = 0 \/ Spec.word_at t (i - 1) = false) /\
             Spec.word_at t (i + length k) = false).
Proof.
  intros Hf Hfw Hl Hlw.
  assert (Hk : 0 < length k) by (destruct k; [discriminate | cbn; lia]).
  unfold Spec.occurs_bounded.
  split; intros (i & Hocc & H1 & H2); exists i; (split; [exact Hocc |]).
  - pose proof (occurs_at_char k t i 0 first Hocc Hf) as Hw0.
    pose proof (occurs_at_char k t i (length k - 1) last Hocc Hl) as Hw1.
    rewrite Nat.add_0_r, Hfw in Hw0. rewrite Hlw in Hw1.
    split.
    + destruct i as [|j]; [left; reflexivity | right].
      cbn [Spec.boundary] in H1. rewrite Hw0 in H1.
      replace (S j - 1) with j by lia.
      destruct (Spec.word_at t j); [congruence | reflexivity].
    + replace (i + length k) with (S (i + (length k - 1))) in * by lia.
      cbn [Spec.boundary] in H2. rewrite Hw1 in H2.
      destruct (Spec.word_at t (S (i + (length k - 1)))); [congruence | reflexivity].
  - pose proof (occurs_at_char k t i 0 first Hocc Hf) as Hw0.
    pose proof (occurs_at_char k t i (length k - 1) last Hocc Hl) as Hw1.
    rewrite Nat.add_0_r, Hfw in Hw0. rewrite Hlw in Hw1.
    split.
    + destruct i as [|j]; cbn [Spec.boundary]; [exact Hw0 |].
      rewrite Hw0. destruct H1 as [H1 | H1]; [discriminate |].
      replace (S j - 1) with j in H1 by lia. rewrite H1. discriminate.
    + replace (i + length k) with (S (i + (length k - 1))) in * by lia.
      cbn [Spec.boundary]. rewrite Hw1, H2. discriminate.
Qed.

Lemma repository_keywords_word_edged :
  forallb word_edged
    (depression_keywords ++ mobile_keywords ++ behavioral_base_keywords) = true.
Proof. vm_compute. reflexivity. Qed.

Lemma word_edged_occurs_bounded (k t : str) :
  word_edged k = true ->
  (Spec.occurs_bounded k t <->
   exists i, Spec.occurs_at k t i /\
             (i = 0 \/ Spec.word_at t (i - 1) = false) /\
             Spec.word_at t (i + length k) = false).
Proof.
  unfold word_edged.
  destruct (nth_error k 0) as [first|] eqn:Hf; [| discriminate].
  destruct (nth_error k (length k - 1)) as [last|] eqn:Hl; [| discriminate].
  intros H. apply andb_true_iff in H. destruct H as [Hfw Hlw].
  apply (occurs_bounded_between_non_words k t first last); assumption.
Qed.

(** ** Instances *)

(** C6 on a text with overlapping candidates ("Mobile", "app" and
    "Mobile app"). *)
Lemma kept_matches_disjoint_witness :
  kept_matches true demo_text demo_selection = Some demo_kept /\
  ((forall i j a b, i <> j ->
      nth_error demo_kept i = Some a -> nth_error demo_kept j = Some b ->
      ~ Spec.share_index a b) /\
   (forall i j a b, i < j ->
      nth_error demo_kept i = Some a -> nth_error demo_kept j = Some b ->
      m_start b <= m_start a) /\
   Forall (span_ok demo_text) demo_kept).
Proof.
  split; [vm_compute; reflexivity |].
  apply (kept_matches_disjoint true demo_text demo_selection demo_kept).
  vm_compute. reflexivity.
Defined.


(** * The rest of the pipeline *)

Import RuleStage.
Import ReviewSession.
Import TitleMatching.

(** ** The rule stage over a frame *)

Lemma join_nil (sep : str) (xs : list str) :
  Forall (fun x => x <> []) xs -> (join sep xs = [] <-> xs = []).
Proof.
  intros H. destruct xs as [|x xs]; [split; reflexivity |].
  split; [| discriminate]. intros Hj. exfalso.
  pose proof (List.Forall_inv H) as Hx.
  cbn beta in Hx.
  destruct xs as [|y xs]; cbn [join] in Hj; [exact (Hx Hj) |].
  destruct x; [exact (Hx eq_refl) | discriminate].
Qed.

Lemma sublist_Forall {A : Type} (P : A -> Prop) (l1 l2 : list A) :
  sublist l1 l2 -> Forall P l2 -> Forall P l1.
Proof.
  intros Hs H. rewrite List.Forall_forall in *. intros x Hx. apply H.
  eapply sublist_In; eassumption.
Qed.

Lemma literal_found_nonempty (text : str) (keywords found sentences : list str) :
  Forall (fun k => k <> []) keywords ->
  find_keywords_in_text text keywords = Some (found, sentences) ->
  Forall (fun k => k <> []) found.
Proof.
  intros Hk Hf.
  destruct (find_keywords_in_text_sublist text keywords) as (f & s & Heq & Hsub).
  rewrite Hf in Heq. injection Heq as <- <-.
  eapply sublist_Forall; eassumption.
Qed.

(** The two loops of the behavioural matcher keep [records_ok]. *)
Lemma behavioral_loop_ok (text : str) (base : list str) (st : list str * list str) :
  records_ok text base st ->
  records_ok text base
    (fold_left (scan_matches (lower text) (split_sentences text)) behavioral_regexes st).
Proof.
  assert (H : forall rs, (forall r, In r rs -> In r behavioral_regexes) ->
            forall st, records_ok text base st ->
              records_ok text base
                (fold_left (scan_matches (lower text) (split_sentences text)) rs st)).
  { induction rs as [|r rs IH]; intros Hrs st0 Hst0; [exact Hst0 |].
    cbn [fold_left]. apply IH.
    - intros r' Hr'. apply Hrs. right. exact Hr'.
    - apply scan_matches_ok; [apply Hrs; left; reflexivity | exact Hst0]. }
  apply H. tauto.
Qed.

Lemma wildcard_record_nonempty (text m : str) : wildcard_record text m -> m <> [].
Proof.
  intros (r & a & b & _ & _ & Hab & Hb & -> & _) Hnil.
  apply (f_equal (@length ascii)) in Hnil.
  rewrite length_slice in Hnil; [cbn in Hnil; lia | lia | rewrite length_lower; exact Hb].
Qed.

Lemma behavioral_found_nonempty (text : str) (found sentences : list str) :
  find_behavioral_keywords_in_text text = Some (found, sentences) ->
  Forall (fun k => k <> []) found.
Proof.
  rewrite find_behavioral_keywords_in_text_eq.
  destruct text as [|c text]; [intros [= <- <-]; constructor |].
  destruct (find_keywords_in_text_sublist (c :: text) behavioral_base_keywords)
    as (base & bs & Hbase & Hsub).
  rewrite Hbase. cbn [mbind option_bind]. intros Hfold. apply (inj Some) in Hfold.
  assert (Hok : records_ok (c :: text) base
            (fold_left (scan_matches (lower (c :: text)) (split_sentences (c :: text)))
               behavioral_regexes (base, bs))).
  { apply behavioral_loop_ok. split.
    - exists []. cbn [fst]. rewrite app_nil_r. split; [reflexivity | constructor].
    - cbn [fst]. eapply sublist_NoDup_std.
      + apply sublist_map. exact Hsub.
      + apply behavioral_base_keywords_NoDup. }
  rewrite Hfold in Hok. destruct Hok as [(wild & Hst & Hwild) _]. cbn [fst] in Hst.
  subst found. apply Forall_app. split.
  - eapply sublist_Forall; [exact Hsub |].
    repeat constructor; discriminate.
  - rewrite List.Forall_forall in *. intros m Hm.
    eapply wildcard_record_nonempty. apply Hwild. exact Hm.
Qed.

(** The dictionary the evaluator returns: its result is "include" or
    "exclude", and it is "include" exactly when none of its three keyword
    strings is empty. *)
Lemma evaluate_single_paper_keyword_strings (title abstract : str) :
  exists ev,
    evaluate_single_paper title abstract = Some ev /\
    (ev_result ev = lit "include" \/ ev_result ev = lit "exclude") /\
    (ev_result ev = lit "include" <->
     ev_depression_keywords ev <> [] /\ ev_mobile_keywords ev <> [] /\
     ev_behavioral_keywords ev <> []).
Proof.
  unfold evaluate_single_paper.
  destruct (find_keywords_in_text_sublist (title ++ lit " " ++ abstract)
              depression_keywords) as (d & ds & Hd & _).
  destruct (find_keywords_in_text_sublist (title ++ lit " " ++ abstract)
              mobile_keywords) as (m & ms & Hm & _).
  destruct (find_behavioral_keywords_in_text_total (title ++ lit " " ++ abstract))
    as (b & bs & Hb).
  rewrite Hd, Hm, Hb. cbn [mbind option_bind fst].
  eexists. split; [reflexivity |]. cbn [ev_result ev_depression_keywords
    ev_mobile_keywords ev_behavioral_keywords].
  assert (Hdn : Forall (fun k => k <> []) d).
  { eapply literal_found_nonempty; [| exact Hd]. repeat constructor; discriminate. }
  assert (Hmn : Forall (fun k => k <> []) m).
  { eapply literal_found_nonempty; [| exact Hm]. repeat constructor; discriminate. }
  assert (Hbn : Forall (fun k => k <> []) b)
    by (eapply behavioral_found_nonempty; exact Hb).
  rewrite (join_nil _ _ Hdn), (join_nil _ _ Hmn), (join_nil _ _ Hbn).
  rewrite <- !length_pos_nonempty.
  destruct (0 <? length d), (0 <? length m), (0 <? length b); cbn;
    (split; [auto |]); split; try discriminate; try tauto;
    try (intros (? & ? & ?); discriminate).
Qed.

Lemma string_of_nil (t : str) : string_of t = ""%string <-> t = [].
Proof. destruct t; cbn; split; congruence. Qed.

Lemma string_of_inj (t1 t2 : str) : string_of t1 = string_of t2 -> t1 = t2.
Proof.
  intros H. apply (f_equal list_ascii_of_string) in H.
  unfold string_of in H. rewrite !list_ascii_of_string_of_list_ascii in H. exact H.
Qed.

Ltac lookup_entries :=
  cbn [app list_to_map foldr uncurry fst snd curry source_entries];
  rewrite ?lookup_insert_ne by discriminate; apply lookup_insert_eq.

Lemma process_row_spec (r : row) :
  exists r', RuleStage.process_row r = Some r' /\ rule_stage_row r r'.
Proof.
  unfold RuleStage.process_row.
  destruct (bool_decide (field r "Title" = ""%string) &&
            bool_decide (field r "Abstract" = ""%string)) eqn:E.
  - eexists. split; [reflexivity |].
    unfold rule_stage_row. repeat (split; [lookup_entries |]). split.
    + exists ""%string, ""%string, ""%string, "exclude"%string.
      repeat (split; [lookup_entries |]). split; [right; reflexivity |].
      split; [discriminate | intros (H & _); congruence].
    + intros _ _. repeat split; lookup_entries.
  - destruct (evaluate_single_paper_keyword_strings
                (text_of (field r "Title")) (text_of (field r "Abstract")))
      as (ev & Hev & Hres & Hiff).
    rewrite Hev. cbn [mbind option_bind].
    eexists. split; [reflexivity |].
    unfold rule_stage_row. repeat (split; [lookup_entries |]). split.
    + eexists _, _, _, _. repeat (split; [lookup_entries |]). split.
      * destruct Hres as [-> | ->]; [left | right]; reflexivity.
      * rewrite !string_of_nil.
        rewrite <- Hiff. split.
        -- intros H. apply string_of_inj. exact H.
        -- intros ->. reflexivity.
    + intros Ht Ha. rewrite Ht, Ha in E. discriminate.
Qed.

(** X1. The rule stage over a frame returns one result row per input row,
    in the order of the input.  A result row carries the DOI, authors,
    journal and year of its row, and the title and abstract as read (a
    missing cell as the empty string); its verdict is "include" or "exclude"
    and is "include" exactly when its three keyword cells are non-empty; and
    a row with neither title nor abstract is excluded with empty keyword
    cells. *)
Theorem process_dataframe_rows (input : list row) :
  exists output,
    process_dataframe input = Some output /\
    Forall2 rule_stage_row input output.
Proof.
  induction input as [|r input (output & IH & Hall)].
  - exists []. split; [reflexivity | constructor].
  - destruct (process_row_spec r) as (r' & Hr & Hrow).
    exists (r' :: output). cbn [process_dataframe]. rewrite Hr, IH.
    split; [reflexivity | constructor; assumption].
Qed.

(** ** More of the LLM second pass *)

Section SecondPassMore.

Variable chain_invoke : request -> option row.
Variable llm_invoke : request -> option Py.str.
Variable json_loads : Py.str -> option json.

Local Abbreviation process_row :=
  (LLMSecondaryFilter.process_row chain_invoke llm_invoke json_loads).
Local Abbreviation process_rows :=
  (LLMSecondaryFilter.process_rows chain_invoke llm_invoke json_loads).
Local Abbreviation process_exclude_papers :=
  (LLMSecondaryFilter.process_exclude_papers chain_invoke llm_invoke json_loads).

Ltac other_column :=
  cbn [In]; intros H; repeat (destruct H as [H | H]; [discriminate |]); exact H.

Lemma process_rows_acc (rows : list row) :
  forall acc, process_rows rows acc = (app acc) <$> process_rows rows [].
Proof.
  induction rows as [|r rows IH]; intros acc; cbn [LLMSecondaryFilter.process_rows].
  - cbn. rewrite app_nil_r. reflexivity.
  - destruct (process_row r) as [result|]; [| reflexivity].
    cbn [mbind option_bind]. rewrite (IH (acc ++ [result])), (IH ([] ++ [result])).
    destruct (process_rows rows []); cbn; [| reflexivity].
    rewrite <- app_assoc. reflexivity.
Qed.

Lemma process_rows_app_acc (rows1 rows2 : list row) :
  forall acc,
    process_rows (rows1 ++ rows2) acc =
    process_rows rows1 acc ≫= process_rows rows2.
Proof.
  induction rows1 as [|r rows1 IH]; intros acc; [reflexivity |].
  cbn [app LLMSecondaryFilter.process_rows].
  destruct (process_row r) as [result|]; [| reflexivity].
  cbn [mbind option_bind]. apply IH.
Qed.

Lemma process_rows_app (rows1 rows2 : list row) :
  process_rows (rows1 ++ rows2) [] =
  process_rows rows1 [] ≫= process_rows rows2.
Proof. apply process_rows_app_acc. Qed.

Lemma process_rows_length (rows : list row) (results : list row) :
  process_rows rows [] = Some results -> length results = length rows.
Proof.
  intros H. apply process_rows_results in H.
  destruct H as (new & -> & Hlen & _). exact Hlen.
Qed.

Lemma count_excluded_results (results : list row) :
  Forall excluded_result results ->
  rescue_count results = final_include_count results.
Proof.
  unfold rescue_count, final_include_count.
  induction 1 as [|r results [Hr _] _ IH]; [reflexivity |].
  cbn [List.filter]. unfold is_verdict at 1. rewrite Hr.
  rewrite bool_decide_eq_true_2 by reflexivity. cbn [andb].
  destruct (is_verdict "final_result" "include" r); cbn [length]; rewrite IH; reflexivity.
Qed.

(** X2. The second pass when the rule stage excluded at least one record
    (and the checkpoint, if any, is one the function wrote for this input):
    the returned frame holds the included records first, each marked as
    passed through, then one result per excluded record with the final
    verdict equal to the LLM verdict.  So no record with a verdict is lost,
    and the final includes are the rule includes plus the rescued
    records. *)
Theorem second_pass_frame (input : list row) (checkpoint : option (list row))
    (final : list row) :
  rule_exclude_count input <> 0 ->
  checkpoint_ok input checkpoint ->
  process_exclude_papers input checkpoint = Some final ->
  exists included results,
    final = included ++ results /\
    length included = rule_include_count input /\
    Forall passed_through included /\
    length results = rule_exclude_count input /\
    Forall excluded_result results /\
    length final = rule_include_count input + rule_exclude_count input /\
    final_include_count final = rule_include_count input + rescue_count final.
Proof.
  intros Hex Hck Hrun.
  destruct (process_exclude_papers_main_path chain_invoke llm_invoke json_loads
              input checkpoint final Hex Hck Hrun)
    as (results & -> & Hlen & Hres & _ & _).
  set (incl := List.filter (has_result "include") input).
  assert (Hinc : length (map include_with_llm incl) = rule_include_count input)
    by (rewrite length_map; reflexivity).
  assert (Hpass : Forall passed_through (map include_with_llm incl)).
  { rewrite List.Forall_forall. intros r' Hr'. apply in_map_iff in Hr'.
    destruct Hr' as (r & <- & Hr). apply filter_In in Hr. destruct Hr as [_ Hr].
    unfold has_result in Hr. apply bool_decide_eq_true in Hr.
    destruct (include_with_llm_lookup r) as (H1 & H2 & H3 & _).
    unfold passed_through. rewrite H1, H2, H3. unfold get. rewrite Hr. tauto. }
  exists (map include_with_llm incl), results.
  repeat split; try assumption.
  - rewrite length_app, Hinc, Hlen. reflexivity.
  - unfold final_include_count, rescue_count.
    rewrite !List.filter_app, !length_app.
    fold (rescue_count results). fold (final_include_count results).
    rewrite (count_excluded_results results Hres).
    rewrite filter_all, filter_none.
    + cbn [length]. rewrite Hinc. lia.
    + rewrite List.Forall_forall in *. intros r Hr.
      destruct (Hpass r Hr) as (H1 & _). unfold is_verdict.
      rewrite H1. rewrite bool_decide_eq_false_2 by discriminate. reflexivity.
    + rewrite List.Forall_forall in *. intros r Hr.
      destruct (Hpass r Hr) as (_ & _ & H3). unfold is_verdict.
      rewrite H3. apply bool_decide_eq_true. reflexivity.
Qed.

(** X3. Restarting from a checkpoint.  When a run without checkpoint
    returns a frame, a run over the same input that starts from a checkpoint
    of [k] records returns that frame with the results of the first [k]
    excluded records replaced by the records of the checkpoint: these are
    kept as they were loaded, whatever they are, and only the excluded
    records from position [k] on are processed. *)
Theorem resume_from_checkpoint (input final loaded : list row) :
  rule_exclude_count input <> 0 ->
  process_exclude_papers input None = Some final ->
  process_exclude_papers input (Some loaded) =
  Some (firstn (rule_include_count input) final ++ loaded ++
        skipn (rule_include_count input + length loaded) final).
Proof.
  intros Hex. unfold LLMSecondaryFilter.process_exclude_papers.
  change (List.filter (has_result "exclude") input)
    with (List.filter (is_verdict "result" "exclude") input).
  fold (rule_exclude_count input).
  destruct (Nat.eqb_spec (rule_exclude_count input) 0) as [E|_]; [contradiction |].
  cbn [length]. set (ex := List.filter (is_verdict "result" "exclude") input).
  set (k := length loaded).
  rewrite skipn_O.
  destruct (process_rows ex []) as [results|] eqn:Hrows;
    cbn [mbind option_bind]; intros Hfinal; [| discriminate Hfinal].
  apply (inj Some) in Hfinal. subst final.
  assert (Hinc : length (map include_with_llm (List.filter (has_result "include") input))
                 = rule_include_count input) by (rewrite length_map; reflexivity).
  rewrite firstn_app, skipn_app, Hinc, Nat.sub_diag, firstn_O, app_nil_r.
  rewrite firstn_all2 by (rewrite Hinc; lia).
  rewrite (skipn_all2 (n := rule_include_count input + k)) by (rewrite Hinc; lia).
  replace (rule_include_count input + k - rule_include_count input) with k by lia.
  cbn [app].
  rewrite <- (firstn_skipn k ex) in Hrows. rewrite process_rows_app in Hrows.
  destruct (process_rows (firstn k ex) []) as [r1|] eqn:H1; [| discriminate Hrows].
  cbn [mbind option_bind] in Hrows.
  pose proof (process_rows_length _ _ H1) as Hl1.
  rewrite process_rows_acc in Hrows. rewrite (process_rows_acc _ loaded).
  destruct (process_rows (skipn k ex) []) as [rest|] eqn:H2; [| discriminate Hrows].
  cbn [fmap option_fmap option_map] in Hrows |- *. apply (inj Some) in Hrows. subst results.
  pose proof (process_rows_length _ _ H2) as Hl2.
  cbn [mbind option_bind]. do 3 f_equal.
  rewrite length_firstn in Hl1. rewrite length_skipn in Hl2.
  rewrite skipn_app.
  destruct (Nat.le_gt_cases k (length ex)) as [Hle | Hgt].
  - rewrite skipn_all2 by lia. replace (k - length r1) with 0 by lia.
    rewrite skipn_O. reflexivity.
  - assert (Hnil : rest = []) by (apply length_zero_iff_nil; lia).
    subst rest. rewrite skipn_all2 by lia. rewrite skipn_nil. reflexivity.
Qed.

(** X4. The verdict of a reply is copied as it is.  For an excluded record
    with title and abstract for which [process_single_article] returns a
    non-empty dictionary (from the structured call, or from the raw reply),
    the LLM verdict and the final verdict of the result are both the "result"
    entry of the reply, whatever value it is, and "exclude" when the reply
    has no such entry; the reason is the "reason" entry, or empty. *)
Theorem dict_reply_is_copied (r reply : row) :
  missing_text (request_of r) = false ->
  LLMSecondaryFilter.process_single_article chain_invoke llm_invoke json_loads
    (request_of r) = Some (JDict reply) ->
  reply <> ∅ ->
  exists result,
    process_row r = Some result /\
    result !! "rule_result"%string = Some (Str "exclude") /\
    result !! "llm_result"%string = Some (get reply "result" (Str "exclude")) /\
    result !! "final_result"%string = Some (get reply "result" (Str "exclude")) /\
    result !! "llm_reason"%string = Some (get reply "reason" (Str "")).
Proof.
  intros Hmiss Hreply Hne.
  unfold LLMSecondaryFilter.process_row.
  rewrite Hmiss, Hreply. cbn [truthy].
  rewrite bool_decide_eq_false_2 by exact Hne. cbn [negb].
  eexists. split; [reflexivity |].
  split; [apply lookup_rule_entries_result |].
  rewrite !lookup_after_rule_entries by other_column.
  unfold llm_entries. cbn [list_to_map foldr uncurry fst snd curry].
  repeat split; rewrite ?lookup_insert_ne by discriminate; apply lookup_insert_eq.
Qed.

End SecondPassMore.

(** X5. A record without title or abstract never reaches the LLM: whatever
    the collaborators are, its result is the same, with the LLM verdict
    "exclude", the reason "제목 또는 초록 누락" (title or abstract missing) and
    the final verdict "exclude". *)
Theorem missing_text_skips_llm
    (chain1 chain2 : request -> option row)
    (llm1 llm2 : request -> option Py.str)
    (json1 json2 : Py.str -> option json) (r : row) :
  missing_text (request_of r) = true ->
  exists result,
    LLMSecondaryFilter.process_row chain1 llm1 json1 r = Some result /\
    LLMSecondaryFilter.process_row chain2 llm2 json2 r = Some result /\
    result !! "llm_result"%string = Some (Str "exclude") /\
    result !! "llm_reason"%string = Some (Str "제목 또는 초록 누락") /\
    result !! "final_result"%string = Some (Str "exclude").
Proof.
  intros Hmiss. unfold LLMSecondaryFilter.process_row. rewrite Hmiss.
  eexists. split; [reflexivity |]. split; [reflexivity |].
  destruct (failed_row r "제목 또는 초록 누락") as (_ & H2 & H3 & H4). tauto.
Qed.

(** ** The text handed to the JSON parser *)

Lemma startswith_app (sub rest : Py.str) : Py.startswith sub (sub ++ rest) = true.
Proof.
  induction sub as [|a sub IH]; [reflexivity |].
  cbn [app Py.startswith]. rewrite Ascii.eqb_refl. exact IH.
Qed.

Lemma startswith_other (a c : ascii) (sub s : Py.str) :
  c <> a -> Py.startswith (a :: sub) (c :: s) = false.
Proof.
  intros Hc. cbn [Py.startswith].
  destruct (Ascii.eqb_spec a c) as [-> | _]; [contradiction | reflexivity].
Qed.

Lemma contains_app (sub pre rest : Py.str) :
  Py.startswith sub rest = true -> Py.contains sub (pre ++ rest) = true.
Proof.
  intros H. induction pre as [|c pre IH]; cbn [app].
  - destruct rest; cbn [Py.contains]; rewrite H; reflexivity.
  - cbn [Py.contains]. rewrite IH. apply orb_true_r.
Qed.

Lemma find_from_app (a : ascii) (sub pre rest : Py.str) :
  Forall (fun c => c <> a) pre ->
  Py.startswith (a :: sub) rest = true ->
  forall pos, find_from (a :: sub) (pre ++ rest) pos = Some (pos + length pre).
Proof.
  intros Hpre Hrest. induction Hpre as [|c pre Hc _ IH]; intros pos; cbn [app length].
  - destruct rest; cbn [find_from]; rewrite Hrest; f_equal; lia.
  - cbn [find_from]. rewrite (startswith_other a c sub _ Hc).
    rewrite IH. f_equal. lia.
Qed.

Lemma find_from_none (a : ascii) (sub s : Py.str) :
  Forall (fun c => c <> a) s ->
  forall pos, find_from (a :: sub) s pos = None.
Proof.
  induction 1 as [|c s Hc _ IH]; intros pos; [reflexivity |].
  cbn [find_from]. rewrite (startswith_other a c sub _ Hc). apply IH.
Qed.

Lemma rfind_from_none (a : ascii) (s : Py.str) :
  Forall (fun c => c <> a) s ->
  forall pos, rfind_from [a] s pos = None.
Proof.
  induction 1 as [|c s Hc _ IH]; intros pos; [reflexivity |].
  cbn [rfind_from]. rewrite IH. rewrite (startswith_other a c [] _ Hc). reflexivity.
Qed.

Lemma rfind_from_app (a : ascii) (mid post : Py.str) :
  Forall (fun c => c <> a) post ->
  forall pos, rfind_from [a] (mid ++ a :: post) pos = Some (pos + length mid).
Proof.
  intros Hpost. induction mid as [|c mid IH]; intros pos; cbn [app length].
  - cbn [rfind_from]. rewrite (rfind_from_none a post Hpost).
    cbn [Py.startswith]. rewrite Ascii.eqb_refl. f_equal. lia.
  - cbn [rfind_from]. rewrite IH. f_equal. lia.
Qed.

Lemma find_at (a : ascii) (sub pre body rest : Py.str) :
  Forall (fun c => c <> a) body ->
  Py.startswith (a :: sub) rest = true ->
  find (a :: sub) (pre ++ body ++ rest) (length pre) = Some (length pre + length body).
Proof.
  intros Hbody Hrest. unfold find.
  rewrite length_app. destruct (Nat.leb_spec (length pre) (length pre + length (body ++ rest)));
    [| lia].
  rewrite skipn_app, Nat.sub_diag, skipn_all2, skipn_O by lia. cbn [app].
  apply find_from_app; assumption.
Qed.

(** X6. A reply with a fenced block.  When the reply holds the marker
    "```json" after a text without backquote, then a body without backquote
    and a closing "```", the text handed to [json.loads] is the body without
    its surrounding whitespace, whatever follows the closing marker. *)
Theorem json_block_fenced (pre body post : Py.str) :
  Forall (fun c => c <> "`"%char) pre ->
  Forall (fun c => c <> "`"%char) body ->
  json_block (pre ++ Py.lit "```json" ++ body ++ Py.lit "```" ++ post) = Py.strip body.
Proof.
  intros Hpre Hbody. unfold json_block.
  rewrite contains_app by apply startswith_app.
  assert (Hopen : find (Py.lit "```json")
                    (pre ++ Py.lit "```json" ++ body ++ Py.lit "```" ++ post) 0
                  = Some (0 + length pre)).
  { exact (find_at "`"%char (Py.lit "``json") [] pre
             (Py.lit "```json" ++ body ++ Py.lit "```" ++ post) Hpre
             (startswith_app (Py.lit "```json") _)). }
  rewrite Hopen. cbv zeta.
  assert (Hclose : find (Py.lit "```")
                     (pre ++ Py.lit "```json" ++ body ++ Py.lit "```" ++ post)
                     (0 + length pre + 7)
                   = Some (0 + length pre + 7 + length body)).
  { pose proof (find_at "`"%char (Py.lit "``") (pre ++ Py.lit "```json") body
                  (Py.lit "```" ++ post) Hbody (startswith_app (Py.lit "```") _)) as H.
    rewrite <- app_assoc in H. rewrite length_app in H.
    change (length (Py.lit "```json")) with 7 in H. exact H. }
  rewrite Hclose. unfold Py.slice.
  rewrite (app_assoc pre), skipn_app, length_app.
  change (length (Py.lit "```json")) with 7.
  rewrite skipn_all2 by (rewrite length_app; cbn; lia).
  replace (0 + length pre + 7 - (length pre + 7)) with 0 by lia.
  rewrite skipn_O. cbn [app].
  replace (0 + length pre + 7 + length body - (0 + length pre + 7)) with (length body + 0) by lia.
  rewrite firstn_app_2. cbn [firstn]. rewrite app_nil_r. reflexivity.
Qed.

(** X7. A fenced block that is not closed loses its last character.  When
    the marker "```json" is followed by no further backquote, [find] gives
    -1 for the closing marker and the slice [json_start:-1] stops before the
    last character of the reply: the text handed to [json.loads] is the body
    without its last character (and without surrounding whitespace). *)
Theorem json_block_unclosed_fence (pre body : Py.str) :
  Forall (fun c => c <> "`"%char) pre ->
  Forall (fun c => c <> "`"%char) body ->
  json_block (pre ++ Py.lit "```json" ++ body) = Py.strip (removelast body).
Proof.
  intros Hpre Hbody. unfold json_block.
  rewrite contains_app by apply startswith_app.
  assert (Hopen : find (Py.lit "```json") (pre ++ Py.lit "```json" ++ body) 0
                  = Some (0 + length pre)).
  { exact (find_at "`"%char (Py.lit "``json") [] pre (Py.lit "```json" ++ body) Hpre
             (startswith_app (Py.lit "```json") _)). }
  rewrite Hopen. cbv zeta.
  unfold find. rewrite !length_app. change (length (Py.lit "```json")) with 7.
  destruct (Nat.leb_spec (0 + length pre + 7) (length pre + (7 + length body))); [| lia].
  rewrite (app_assoc pre), skipn_app, length_app.
  change (length (Py.lit "```json")) with 7.
  rewrite skipn_all2 by (rewrite length_app; cbn; lia).
  replace (0 + length pre + 7 - (length pre + 7)) with 0 by lia.
  rewrite skipn_O. cbn [app].
  change (Py.lit "```") with ("`"%char :: Py.lit "``").
  rewrite (find_from_none "`"%char (Py.lit "``") body Hbody).
  unfold Py.slice. rewrite skipn_app, length_app.
  change (length (Py.lit "```json")) with 7.
  rewrite skipn_all2 by (rewrite length_app; cbn; lia).
  replace (0 + length pre + 7 - (length pre + 7)) with 0 by lia.
  rewrite skipn_O. cbn [app].
  replace (length pre + (7 + length body) - 1 - (0 + length pre + 7))
    with (length body - 1) by lia.
  rewrite removelast_firstn_len, Nat.sub_1_r. reflexivity.
Qed.

(** X8. A reply without fence.  When the reply does not contain "```json",
    the text handed to [json.loads] runs from the first opening brace to the
    last closing brace: the prose before and after them is dropped. *)
Theorem json_block_braces (pre body post : Py.str) :
  Py.contains (Py.lit "```json") (pre ++ "{"%char :: body ++ "}"%char :: post) = false ->
  Forall (fun c => c <> "{"%char) pre ->
  Forall (fun c => c <> "}"%char) post ->
  json_block (pre ++ "{"%char :: body ++ "}"%char :: post) = "{"%char :: body ++ ["}"%char].
Proof.
  intros Hfence Hpre Hpost. unfold json_block. rewrite Hfence.
  unfold find, rfind. cbn [Nat.leb]. rewrite skipn_O.
  rewrite (find_from_app "{"%char [] pre _ Hpre) by (cbn; reflexivity).
  change (pre ++ "{"%char :: body ++ "}"%char :: post)
    with (pre ++ ("{"%char :: body) ++ "}"%char :: post).
  rewrite (app_assoc pre), (rfind_from_app "}"%char _ post Hpost).
  unfold Py.slice. rewrite <- app_assoc.
  rewrite skipn_app, skipn_all2, Nat.add_0_l, Nat.sub_diag, skipn_O by lia.
  cbn [app]. rewrite length_app. cbn [length].
  replace (length pre + S (length body) + 1 - (0 + length pre))
    with (S (length body + 1)) by lia.
  change ("}"%char :: post) with (["}"%char] ++ post).
  rewrite app_assoc. cbn [firstn]. f_equal.
  replace (length body + 1) with (length (body ++ ["}"%char]) + 0)
    by (rewrite length_app; cbn; lia).
  rewrite firstn_app_2. cbn [firstn]. rewrite app_nil_r. reflexivity.
Qed.

(** ** More of the highlighter *)

Lemma for_each_total {A B : Type} (P : A -> Prop) (f : A -> B -> option A)
    (xs : list B) :
  (forall a x, In x xs -> P a -> exists a', f a x = Some a' /\ P a') ->
  forall a, P a -> exists a', for_each f xs a = Some a' /\ P a'.
Proof.
  induction xs as [|x xs IH]; intros Hf a Ha; cbn [for_each].
  - exists a. split; [reflexivity | exact Ha].
  - destruct (Hf a x (or_introl eq_refl) Ha) as (a1 & -> & Ha1).
    cbn [mbind option_bind]. apply IH; [| exact Ha1].
    intros a0 x0 Hx0. apply Hf. right. exact Hx0.
Qed.

Lemma run_one_pos (ic : bool) (cs : cset) (r : regex) (prev : option ascii)
    (s : str) (e : nat) :
  In e (run ic (NOne cs :: r) prev s) -> 0 < e.
Proof.
  cbn [run]. destruct s as [|c s]; [intros [] |].
  destruct (cset_match ic cs c); [| intros []].
  intros He. apply in_map_iff in He. destruct He as (e' & <- & _). lia.
Qed.

(** The pattern of an offered keyword compiles, and none of its matches is
    empty. *)
Lemma offered_keyword_pattern (uwb : bool) (k : str) :
  offered_keyword k ->
  exists r,
    compile (keyword_pattern uwb k) = Some r /\
    forall prev s e, In e (run true r prev s) -> 0 < e.
Proof.
  intros [[Hne Hstar] | Hin].
  - unfold keyword_pattern, convert_wildcard_to_regex. rewrite Hstar.
    destruct k as [|c k]; [contradiction |].
    destruct (uwb && (length (split (c :: k)) =? 1)) eqn:E.
    + exists (bounded_literal (c :: k)). split.
      * apply andb_true_iff in E. destruct E as [-> ->]. apply compile_escape.
      * intros prev s e. apply run_pos.
    + exists (literals (c :: k)). split.
      * destruct uwb; [| apply compile_escape_bare].
        cbn [andb] in E. rewrite E. apply compile_escape_bare.
      * intros prev s e. apply run_one_pos.
  - cbn in Hin. destruct Hin as [<- | [<- | [<- | []]]];
      (eexists; split; [vm_compute; reflexivity | intros prev s e; apply run_pos]).
Qed.

Lemma keyword_matches_nonempty (uwb : bool) (text class_name : str)
    (acc : list hmatch) (k : str) :
  offered_keyword k ->
  Forall nonempty_span acc ->
  exists acc',
    keyword_matches uwb text class_name acc k = Some acc' /\
    Forall nonempty_span acc'.
Proof.
  intros Hk Hacc. unfold keyword_matches.
  destruct (offered_keyword_pattern uwb k Hk) as (r & -> & Hpos).
  cbn [mbind option_bind]. eexists. split; [reflexivity |].
  apply Forall_app. split; [exact Hacc |].
  rewrite List.Forall_forall. intros m Hm. apply in_map_iff in Hm.
  destruct Hm as ([a b] & <- & Hab). unfold nonempty_span. cbn [m_start m_end fst snd].
  apply finditer_spans in Hab. destruct Hab as (Hle & _ & Hrun).
  apply Hpos in Hrun. lia.
Qed.

Lemma collect_matches_nonempty (uwb : bool) (text : str) (sel : selection) :
  offered_selection sel ->
  exists all_matches,
    collect_matches uwb text sel = Some all_matches /\
    Forall nonempty_span all_matches.
Proof.
  intros Hsel. unfold collect_matches.
  apply (for_each_total (Forall nonempty_span)); [| constructor].
  intros acc [category keywords] Hitem Hacc.
  unfold offered_selection in Hsel. rewrite List.Forall_forall in Hsel.
  specialize (Hsel _ Hitem). cbn [snd] in Hsel.
  unfold category_matches. cbn [fst snd].
  destruct keywords as [|k ks]; [exists acc; split; [reflexivity | exact Hacc] |].
  apply (for_each_total (Forall nonempty_span)); [| exact Hacc].
  intros acc0 k0 Hk0 Hacc0. apply keyword_matches_nonempty; [| exact Hacc0].
  rewrite List.Forall_forall in Hsel. apply Hsel. exact Hk0.
Qed.

(** X9. The highlighter on the keywords the application offers.  For every
    text and every selection of plain keywords (non-empty, without
    wildcard) and wildcard templates, in any order and under either setting
    of the word-boundary flag, the highlighter returns, and taking the
    inserted markers out of its output gives the text back, character for
    character. *)
Theorem highlight_offered_keywords (use_word_boundary : bool) (text : str)
    (all_selected_keywords : selection) :
  offered_selection all_selected_keywords ->
  exists out,
    highlight_tracked use_word_boundary text all_selected_keywords = Some out /\
    highlight_all_keywords use_word_boundary text all_selected_keywords
      = Some (erase out) /\
    strip_markers out = text.
Proof.
  intros Hsel.
  destruct (collect_matches_nonempty use_word_boundary text all_selected_keywords Hsel)
    as (all_matches & Hc & Hne).
  exact (highlight_preserves_content use_word_boundary text all_selected_keywords
           all_matches Hc Hne).
Qed.

Lemma keep_loop_dropped (l : list hmatch) :
  forall acc,
    ForallOrdPairs (fun a b => m_start b <= m_start a) l ->
    (forall x y, In x acc -> In y l -> m_start y <= m_start x) ->
    forall m, In m l ->
      In m (fold_left keep_step l acc) \/
      exists m', In m' (fold_left keep_step l acc) /\
                 overlaps m m' = true /\ m_start m <= m_start m'.
Proof.
  induction l as [|x l IH]; intros acc Hsorted Hacc m Hm; [destruct Hm |].
  cbn [fold_left].
  destruct (keep_loop_sublist l (keep_step acc x)) as (l' & Heq & _).
  inversion Hsorted as [|? ? Hx Hl]; subst.
  destruct Hm as [<- | Hm].
  - unfold keep_step in *. destruct (existsb (overlaps x) acc) eqn:E.
    + right. apply existsb_exists in E. destruct E as (m' & Hm' & Hov).
      exists m'. rewrite Heq. split; [apply in_or_app; left; exact Hm' |].
      split; [exact Hov |]. apply (Hacc m' x Hm'). left. reflexivity.
    + left. rewrite Heq. apply in_or_app. left. apply in_or_app. right. left. reflexivity.
  - apply IH; [exact Hl | | exact Hm].
    intros a b Ha Hb. unfold keep_step in Ha.
    rewrite List.Forall_forall in Hx.
    destruct (existsb (overlaps x) acc).
    + apply (Hacc a b Ha). right. exact Hb.
    + apply in_app_or in Ha. destruct Ha as [Ha | [<- | []]].
      * apply (Hacc a b Ha). right. exact Hb.
      * apply Hx. exact Hb.
Qed.

(** X10. Which candidate loses.  Every candidate match the highlighter
    collects is either applied, or it overlaps an applied match that starts
    at the same offset or later: of overlapping candidates the one met first
    in descending order of start wins, whatever the lengths. *)
Theorem dropped_match_overlaps_kept (use_word_boundary : bool) (text : str)
    (all_selected_keywords : selection) (all_matches kept : list hmatch) (m : hmatch) :
  collect_matches use_word_boundary text all_selected_keywords = Some all_matches ->
  kept_matches use_word_boundary text all_selected_keywords = Some kept ->
  In m all_matches ->
  In m kept \/
  exists m', In m' kept /\ overlaps m m' = true /\ m_start m <= m_start m'.
Proof.
  intros Hc Hk Hm. unfold kept_matches in Hk. rewrite Hc in Hk.
  cbn [mbind option_bind] in Hk. apply (inj Some) in Hk. subst kept.
  unfold filter_overlaps. apply keep_loop_dropped.
  - apply sort_matches_sorted.
  - intros x y [].
  - apply sort_matches_In. exact Hm.
Qed.

(** ** The review session: decisions *)

Lemma write_decision_row (idx : nat)
    (hd hm hb hr reviewer status now : string) (d : gmap nat (gmap string cell)) :
  row_at (write_decision idx hd hm hb hr reviewer status now d) idx =
  <["review_date"%string := Str now]>
    (<["review_status"%string := Str status]>
      (<["reviewer_name"%string := Str reviewer]>
        (<["human_result"%string := Str hr]>
          (<["human_behavioral_keywords"%string := Str hb]>
            (<["human_mobile_keywords"%string := Str hm]>
              (<["human_depression_keywords"%string := Str hd]> (row_at d idx))))))).
Proof. unfold write_decision, row_at. cbv zeta. rewrite !at_set_same. reflexivity. Qed.

Lemma write_decision_other (idx i : nat)
    (hd hm hb hr reviewer status now : string) (d : gmap nat (gmap string cell)) :
  i <> idx -> write_decision idx hd hm hb hr reviewer status now d !! i = d !! i.
Proof.
  intros Hi. unfold write_decision. cbv zeta. rewrite !at_set_other by exact Hi.
  reflexivity.
Qed.



Ltac written_cell :=
  rewrite ?lookup_insert_ne by discriminate; apply lookup_insert_eq.

Lemma write_decision_only (idx : nat)
    (hd hm hb hr reviewer status now : string) (d : gmap nat (gmap string cell)) :
  only_decision_written idx d (write_decision idx hd hm hb hr reviewer status now d).
Proof.
  split.
  - intros i Hi. apply write_decision_other. exact Hi.
  - intros col Hcol. rewrite write_decision_row.
    cbn [In decision_columns] in Hcol.
    rewrite !lookup_insert_ne; [reflexivity | | | | | | |]; intros <-; tauto.
Qed.

Lemma insert_sorted_In (x y : string) (l : list string) :
  In x (insert_sorted y l) <-> x = y \/ In x l.
Proof.
  induction l as [|z l IH]; cbn [insert_sorted].
  - cbn. split; intros [H | H]; subst; auto.
  - destruct (String.leb y z); cbn [In].
    + split; intros [H | H]; subst; auto.
    + rewrite IH. tauto.
Qed.

Lemma sorted_In (s : gset string) (x : string) : In x (sorted s) <-> x ∈ s.
Proof.
  unfold sorted. rewrite <- elem_of_elements, list_elem_of_In.
  induction (elements s) as [|y l IH]; cbn [fold_right]; [reflexivity |].
  rewrite insert_sorted_In, IH. cbn [In]. split; intros [H | H]; auto.
Qed.

Lemma sorted_nil (s : gset string) : sorted s = [] <-> size s = 0.
Proof.
  unfold sorted, size, set_size. cbn.
  destruct (elements s) as [|y l]; cbn [fold_right length]; [tauto |].
  split; [| discriminate]. intros H.
  assert (Hin : In y (insert_sorted y (fold_right insert_sorted [] l)))
    by (apply insert_sorted_In; left; reflexivity).
  rewrite H in Hin. destruct Hin.
Qed.

Lemma concat_empty (sep : string) (l : list string) :
  Forall (fun x => x <> ""%string) l ->
  (String.concat sep l = ""%string <-> l = []).
Proof.
  intros Hl. split; [| intros ->; reflexivity].
  destruct Hl as [|x l Hx Hl]; [reflexivity |].
  cbn [String.concat]. destruct l as [|y l]; [contradiction |].
  destruct x as [|c x]; [contradiction | discriminate].
Qed.

Lemma joined_selection_empty (s : gset string) :
  ""%string ∉ s ->
  (String.concat ", " (sorted s) = ""%string <-> (0 <? size s) = false).
Proof.
  intros Hne. rewrite concat_empty, sorted_nil.
  - rewrite Nat.ltb_ge. lia.
  - rewrite List.Forall_forall. intros x Hx ->. apply Hne. apply sorted_In. exact Hx.
Qed.

(** X11. The record a decision writes is consistent.  After "update",
    INCLUDE or EXCLUDE the human verdict of the current record is "include"
    or "exclude", and it is "include" exactly when the three human keyword
    cells written with it are non-empty (for "update": as long as the empty
    string is not among the selected keywords). *)
Theorem decision_is_consistent (now : string) (st : session) :
  no_empty_keyword (selected_keywords st) ->
  (forall st', update_paper_data now st = Some st' ->
     decision_ok (row_at (df st') (current_idx st))) /\
  decision_ok (row_at (df (force_include now st)) (current_idx st)) /\
  decision_ok (row_at (df (force_exclude now st)) (current_idx st)).
Proof.
  intros Hsel. split; [| split].
  - intros st'. unfold update_paper_data.
    destruct (selected_keywords st !! "depression"%string) as [sd|] eqn:Hd;
      [| discriminate].
    destruct (selected_keywords st !! "mobile"%string) as [sm|] eqn:Hm;
      [| discriminate].
    destruct (selected_keywords st !! "behavioral"%string) as [sb|] eqn:Hb;
      [| discriminate].
    cbn [mbind option_bind]. intros H. apply (inj Some) in H. subst st'.
    cbn [df]. rewrite write_decision_row.
    eexists _, _, _, _. repeat (split; [written_cell |]).
    pose proof (joined_selection_empty sd (Hsel _ _ Hd)) as Ed.
    pose proof (joined_selection_empty sm (Hsel _ _ Hm)) as Em.
    pose proof (joined_selection_empty sb (Hsel _ _ Hb)) as Eb.
    split; [destruct (_ && _); auto |].
    assert (Nd : String.concat ", " (sorted sd) <> ""%string <-> (0 <? size sd) = true)
      by (rewrite Ed; destruct (0 <? size sd); split; congruence).
    assert (Nm : String.concat ", " (sorted sm) <> ""%string <-> (0 <? size sm) = true)
      by (rewrite Em; destruct (0 <? size sm); split; congruence).
    assert (Nb : String.concat ", " (sorted sb) <> ""%string <-> (0 <? size sb) = true)
      by (rewrite Eb; destruct (0 <? size sb); split; congruence).
    rewrite Nd, Nm, Nb.
    destruct (0 <? size sd), (0 <? size sm), (0 <? size sb); cbn [andb];
      intuition (try discriminate; try congruence).
  - unfold force_include, next_record. cbv zeta.
    destruct (current_idx st + 1 <? _); cbn [df]; rewrite write_decision_row;
      (eexists _, _, _, _; repeat (split; [written_cell |]);
       split; [left; reflexivity |]; split; [intros _; repeat split; discriminate | reflexivity]).
  - unfold force_exclude, next_record. cbv zeta.
    destruct (current_idx st + 1 <? _); cbn [df]; rewrite write_decision_row;
      (eexists _, _, _, _; repeat (split; [written_cell |]);
       split; [right; reflexivity |]; split; [discriminate | intros (H & _); contradiction]).
Qed.

(** X12. A decision leaves the rest of the frame alone.  "Update", INCLUDE
    and EXCLUDE change nothing but the seven decision columns of the current
    record: every other record keeps its row, and every other column of the
    current record (title, abstract, the rule-stage and LLM-stage columns)
    keeps its cell. *)
Theorem decision_writes_only_decision_columns (now : string) (st : session) :
  (forall st', update_paper_data now st = Some st' ->
     only_decision_written (current_idx st) (df st) (df st')) /\
  only_decision_written (current_idx st) (df st) (df (force_include now st)) /\
  only_decision_written (current_idx st) (df st) (df (force_exclude now st)).
Proof.
  split; [| split].
  - intros st'. unfold update_paper_data.
    destruct (selected_keywords st !! "depression"%string); [| discriminate].
    destruct (selected_keywords st !! "mobile"%string); [| discriminate].
    destruct (selected_keywords st !! "behavioral"%string); [| discriminate].
    cbn [mbind option_bind]. intros H. apply (inj Some) in H. subst st'.
    cbn [df]. apply write_decision_only.
  - unfold force_include, next_record. cbv zeta.
    destruct (current_idx st + 1 <? _); cbn [df]; apply write_decision_only.
  - unfold force_exclude, next_record. cbv zeta.
    destruct (current_idx st + 1 <? _); cbn [df]; apply write_decision_only.
Qed.

(** ** The review session: cursor, pages, selection *)

Lemma firstn_add_skipn {A : Type} (a b : nat) (l : list A) :
  firstn (a + b) l = firstn a l ++ firstn b (skipn a l).
Proof.
  revert l. induction a as [|a IH]; intros l; [reflexivity |].
  destruct l as [|x l]; cbn [Nat.add firstn skipn app].
  - rewrite firstn_nil. reflexivity.
  - rewrite IH. reflexivity.
Qed.

Lemma page_data_chunk {A : Type} (l : list A) (p : nat) :
  page_data l p = firstn items_per_page (skipn (p * items_per_page) l).
Proof.
  unfold page_data, iloc. cbv zeta.
  destruct (Nat.le_gt_cases (p * items_per_page + items_per_page) (length l)) as [H | H].
  - rewrite Nat.min_l by exact H. f_equal. lia.
  - rewrite Nat.min_r by lia.
    rewrite !firstn_all2; [reflexivity | |]; rewrite length_skipn; lia.
Qed.

Lemma pages_concat {A : Type} (l : list A) (k : nat) :
  concat (map (page_data l) (seq 0 k)) = firstn (k * items_per_page) l.
Proof.
  induction k as [|k IH]; [reflexivity |].
  rewrite seq_S, List.map_app, concat_app, IH. cbn [map concat Nat.add].
  rewrite app_nil_r, page_data_chunk.
  replace (S k * items_per_page) with (k * items_per_page + items_per_page) by lia.
  symmetry. apply firstn_add_skipn.
Qed.

Lemma total_pages_bounds (n : nat) :
  n <= total_pages n * items_per_page /\
  (forall p, p < total_pages n -> p * items_per_page < n).
Proof.
  unfold total_pages, items_per_page.
  pose proof (Nat.div_mod_eq (n + 10 - 1) 10) as E.
  pose proof (Nat.mod_upper_bound (n + 10 - 1) 10 ltac:(lia)) as B.
  split; [lia |]. intros p Hp. lia.
Qed.

(** X13. The pages of the record list.  The pages [0 .. total_pages - 1]
    cut the (filtered) list into consecutive pieces: put together in order
    they give the list back, every page holds between one and ten records,
    and the page the navigation falls back to when the stored page is out of
    range is one of them (page 0 for an empty list). *)
Theorem pages_partition {A : Type} (l : list A) :
  concat (map (page_data l) (seq 0 (total_pages (length l)))) = l /\
  (forall p, p < total_pages (length l) ->
     0 < length (page_data l p) <= items_per_page) /\
  (forall p, l <> [] -> clamp_page p (length l) < total_pages (length l)) /\
  (forall p, l = [] -> clamp_page p (length l) = 0).
Proof.
  destruct (total_pages_bounds (length l)) as [Hup Hlow].
  split; [| split; [| split]].
  - rewrite pages_concat. apply firstn_all2. exact Hup.
  - intros p Hp. rewrite page_data_chunk, length_firstn, length_skipn.
    specialize (Hlow p Hp). lia.
  - intros p Hne. unfold clamp_page.
    assert (0 < length l) by (destruct l; [contradiction | cbn; lia]).
    assert (0 < total_pages (length l)).
    { destruct (total_pages (length l)); [cbn in Hup; lia | lia]. }
    destruct (Nat.leb_spec (total_pages (length l)) p); lia.
  - intros p ->. reflexivity.
Qed.





(** X15. Toggling a keyword twice gives the session back: the second call
    undoes the first, whether the keyword was selected or not. *)
Theorem toggle_twice (category keyword : string) (st st' : session) :
  toggle_keyword_selection category keyword st = Some st' ->
  toggle_keyword_selection category keyword st' = Some st.
Proof.
  unfold toggle_keyword_selection.
  destruct (selected_keywords st !! category) as [s|] eqn:Hs; [| discriminate].
  cbn [mbind option_bind]. intros H. apply (inj Some) in H. subst st'.
  cbn [selected_keywords with_selection]. rewrite lookup_insert_eq.
  cbn [mbind option_bind]. f_equal.
  rewrite insert_insert_eq.
  assert (Hback :
    (if bool_decide (keyword ∈ (if bool_decide (keyword ∈ s)
                                then s ∖ {[keyword]} else s ∪ {[keyword]}))
     then (if bool_decide (keyword ∈ s) then s ∖ {[keyword]} else s ∪ {[keyword]})
            ∖ {[keyword]}
     else (if bool_decide (keyword ∈ s) then s ∖ {[keyword]} else s ∪ {[keyword]})
            ∪ {[keyword]}) = s).
  { destruct (bool_decide_reflect (keyword ∈ s)) as [Hin | Hout].
    - rewrite bool_decide_eq_false_2
        by (rewrite elem_of_difference, elem_of_singleton; tauto).
      apply set_eq. intros x. rewrite elem_of_union, elem_of_difference, elem_of_singleton.
      destruct (decide (x = keyword)) as [Heq | Hne]; [subst x |]; tauto.
    - rewrite bool_decide_eq_true_2
        by (apply elem_of_union; right; apply elem_of_singleton; reflexivity).
      apply set_eq. intros x. rewrite elem_of_difference, elem_of_union, elem_of_singleton.
      destruct (decide (x = keyword)) as [Heq | Hne]; [subst x |]; tauto. }
  rewrite Hback, (insert_id (selected_keywords st) category s Hs).
  destruct st; reflexivity.
Qed.

(** ** Title matching: record headers and the cleaning of a row *)

Lemma sequential_from_numbers (record_positions : list (nat * nat)) :
  forall expected_num,
    map snd (sequential_from expected_num record_positions) =
    seq expected_num (length (sequential_from expected_num record_positions)) /\
    sublist (sequential_from expected_num record_positions) record_positions.
Proof.
  induction record_positions as [|[pos num] rest IH]; intros expected_num;
    cbn [sequential_from].
  - split; [reflexivity | constructor].
  - destruct (Nat.eqb_spec num expected_num) as [-> | Hne].
    + destruct (IH (S expected_num)) as [Hnum Hsub].
      cbn [map snd length seq]. rewrite Hnum. split; [reflexivity |].
      constructor. exact Hsub.
    + destruct (IH expected_num) as [Hnum Hsub].
      split; [exact Hnum | constructor; exact Hsub].
Qed.

(** X16. The record headers that are kept.  Whatever numbers the headers
    found in the text carry, the kept ones are a subsequence of them, in
    text order, and their numbers are exactly 1, 2, ..., n: a header whose
    number is not the next expected one is dropped, so a repeated or skipped
    number never shifts the numbering. *)
Theorem sequential_positions_numbers (record_positions : list (nat * nat)) :
  map snd (sequential_positions record_positions) =
  seq 1 (length (sequential_positions record_positions)) /\
  sublist (sequential_positions record_positions) record_positions.
Proof. apply sequential_from_numbers. Qed.

Lemma length_flatten_newlines (value : Py.str) :
  length (flatten_newlines value) = length value.
Proof.
  unfold flatten_newlines, replace_char.
  assert (H : forall (old : ascii) (s : Py.str),
             length (flat_map (fun c => if Ascii.eqb c old then lit " " else [c]) s)
             = length s).
  { intros old s. induction s as [|c s IH]; [reflexivity |].
    cbn [flat_map]. rewrite length_app, IH.
    destruct (Ascii.eqb c old); reflexivity. }
  rewrite !H. reflexivity.
Qed.

Lemma length_text_of (s : string) : length (RuleStage.text_of s) = String.length s.
Proof.
  unfold RuleStage.text_of. induction s as [|c s IH]; [reflexivity |].
  cbn [list_ascii_of_string length String.length]. rewrite IH. reflexivity.
Qed.

Lemma clean_item_other (output_row : gmap string cell) (item : string * cell)
    (key : string) :
  key <> item.1 -> clean_item output_row item !! key = output_row !! key.
Proof.
  intros Hne. unfold clean_item. destruct item.2 as [|value]; [reflexivity |].
  cbv zeta. rewrite lookup_insert_ne by congruence.
  destruct (10000 <? _); [rewrite lookup_insert_ne by congruence |]; reflexivity.
Qed.

Lemma clean_loop_other (items : list (string * cell)) (key : string) :
  ~ In key (map fst items) ->
  forall output_row, fold_left clean_item items output_row !! key = output_row !! key.
Proof.
  induction items as [|item items IH]; intros Hout output_row; [reflexivity |].
  cbn [fold_left]. cbn [map In] in Hout.
  rewrite IH by tauto. apply clean_item_other. intros ->. tauto.
Qed.

Lemma clean_loop_item (items : list (string * cell)) (key : string) (c : cell) :
  List.NoDup (map fst items) ->
  In (key, c) items ->
  forall output_row,
    fold_left clean_item items output_row !! key =
    match c with
    | Str value =>
        Some (Str (RuleStage.string_of (flatten_newlines (RuleStage.text_of value))))
    | NaN => output_row !! key
    end.
Proof.
  induction items as [|item items IH]; intros Hnd Hin output_row; [destruct Hin |].
  cbn [map] in Hnd. apply List.NoDup_cons_iff in Hnd. destruct Hnd as [Hfresh Hnd].
  cbn [fold_left]. destruct Hin as [-> | Hin].
  - cbn [fst] in Hfresh. rewrite (clean_loop_other items key Hfresh).
    unfold clean_item. cbn [fst snd]. destruct c as [|value]; [reflexivity |].
    cbv zeta. apply lookup_insert_eq.
  - rewrite (IH Hnd Hin). destruct c as [|value]; [| reflexivity].
    apply clean_item_other. intros ->. apply Hfresh.
    apply in_map_iff. exists (item.1, NaN). split; [reflexivity | exact Hin].
Qed.

(** X17. The cleaning of a row before it is written never shortens a
    field.  A text cell of the cleaned row is the text of the row with every
    line feed and carriage return replaced by a space, at its full length,
    however long it is: the text cut to 5000 characters that is stored for a
    value of more than 10000 characters is overwritten at once by the
    flattened full value.  Other cells are left as they are. *)
Theorem clean_row_never_truncates (row : gmap string cell) (key : string) (c : cell) :
  row !! key = Some c ->
  match c with
  | Str value =>
      exists cleaned,
        clean_row row !! key = Some (Str cleaned) /\
        RuleStage.text_of cleaned = flatten_newlines (RuleStage.text_of value) /\
        String.length cleaned = String.length value
  | NaN => clean_row row !! key = Some NaN
  end.
Proof.
  intros Hkey. unfold clean_row.
  assert (Hin : In (key, c) (map_to_list row)).
  { apply list_elem_of_In. apply elem_of_map_to_list. exact Hkey. }
  assert (Hnd : List.NoDup (map fst (map_to_list row))).
  { apply NoDup_ListNoDup. apply (NoDup_fst_map_to_list row). }
  rewrite (clean_loop_item _ key c Hnd Hin). destruct c as [|value]; [exact Hkey |].
  eexists. split; [reflexivity |].
  assert (Hback : RuleStage.text_of
                    (RuleStage.string_of (flatten_newlines (RuleStage.text_of value)))
                  = flatten_newlines (RuleStage.text_of value))
    by apply list_ascii_of_string_of_list_ascii.
  split; [exact Hback |].
  rewrite <- !length_text_of, Hback. apply length_flatten_newlines.
Qed.

(** ** Loading a frame into the review application *)

Lemma frame_extends_refl (f : frame) : frame_extends f f.
Proof.
  split; [auto |]. induction (rows f); constructor; auto.
Qed.

Lemma frame_extends_trans (f1 f2 f3 : frame) :
  frame_extends f1 f2 -> frame_extends f2 f3 -> frame_extends f1 f3.
Proof.
  intros [H12 R12] [H23 R23]. split; [auto |].
  revert R23. generalize (rows f3). induction R12 as [|r1 r2 l1 l2 Hr _ IH];
    intros l3 R23; inversion R23 as [|? r3 ? l3' Hr' R23']; subst; constructor.
  - intros col Hcol. rewrite (Hr' col (H12 col Hcol)). apply Hr. exact Hcol.
  - apply IH. exact R23'.
Qed.

Lemma add_if_missing_extends (col : string) (value : frame -> gmap string cell -> cell)
    (f : frame) :
  frame_extends f (add_if_missing col value f) /\
  has_column (add_if_missing col value f) col = true.
Proof.
  unfold add_if_missing. destruct (has_column f col) eqn:E.
  - split; [apply frame_extends_refl | exact E].
  - unfold assign_column. rewrite E. split; [split |].
    + intros c Hc. unfold has_column in *. cbn [columns].
      rewrite existsb_app, Hc. reflexivity.
    + cbn [rows]. induction (rows f) as [|r l IH]; cbn [map]; constructor; [| exact IH].
      intros c Hc. apply lookup_insert_ne. intros <-. congruence.
    + unfold has_column. cbn [columns]. rewrite existsb_app. cbn [existsb].
      rewrite String.eqb_refl. apply orb_true_iff. right. reflexivity.
Qed.

Lemma add_if_missing_present (col : string) (value : frame -> gmap string cell -> cell)
    (f : frame) :
  has_column f col = true -> add_if_missing col value f = f.
Proof. intros H. unfold add_if_missing. rewrite H. reflexivity. Qed.

Lemma add_review_columns (cols : list (string * cell)) :
  forall f,
    frame_extends f
      (fold_left (fun f cv => add_if_missing cv.1 (fun _ _ => cv.2) f) cols f) /\
    (forall col, In col (map fst cols) ->
       has_column (fold_left (fun f cv => add_if_missing cv.1 (fun _ _ => cv.2) f) cols f)
         col = true).
Proof.
  induction cols as [|cv cols IH]; intros f; cbn [fold_left map In].
  - split; [apply frame_extends_refl | intros col []].
  - destruct (add_if_missing_extends cv.1 (fun _ _ => cv.2) f) as [Hext Hcol].
    destruct (IH (add_if_missing cv.1 (fun _ _ => cv.2) f)) as [Hext' Hcols].
    split; [eapply frame_extends_trans; eassumption |].
    intros col [<- | Hin]; [| apply Hcols; exact Hin].
    apply Hext'. exact Hcol.
Qed.

Lemma add_review_columns_present (cols : list (string * cell)) (f : frame) :
  (forall col, In col (map fst cols) -> has_column f col = true) ->
  fold_left (fun f cv => add_if_missing cv.1 (fun _ _ => cv.2) f) cols f = f.
Proof.
  induction cols as [|cv cols IH]; intros H; cbn [fold_left]; [reflexivity |].
  rewrite add_if_missing_present by (apply H; left; reflexivity).
  apply IH. intros col Hcol. apply H. right. exact Hcol.
Qed.

Lemma no_missing_column (f : frame) (cols : list string) :
  List.filter (fun col => negb (has_column f col)) cols = [] <->
  forall col, In col cols -> has_column f col = true.
Proof.
  induction cols as [|c cols IH]; cbn [List.filter In]; [tauto |].
  destruct (has_column f c) eqn:E; cbn [negb].
  - rewrite IH. split; [intros H col [<- | Hc]; auto | auto].
  - split; [discriminate |]. intros H. specialize (H c (or_introl eq_refl)). congruence.
Qed.

(** X18. Loading a frame.  When [process_loaded_df] accepts a frame, the
    frame it returns has the same rows with every column they had, cell for
    cell (review data already in the file is never overwritten), it has all
    six required and all seven review columns, and loading it again returns
    it unchanged. *)
Theorem process_loaded_df_stable (f f' : frame) :
  process_loaded_df f = Some f' ->
  frame_extends f f' /\
  (forall col, In col (required_columns ++ map fst review_columns) ->
     has_column f' col = true) /\
  process_loaded_df f' = Some f'.
Proof.
  unfold process_loaded_df at 1.
  set (f1 := if forallb (has_column f) _ then _ else f).
  assert (Hf1 : frame_extends f f1).
  { unfold f1. destruct (forallb (has_column f) _); [| apply frame_extends_refl].
    repeat (eapply frame_extends_trans; [| apply add_if_missing_extends]).
    apply frame_extends_refl. }
  cbv zeta.
  destruct (List.filter (fun col => negb (has_column f1 col)) required_columns)
    as [|c l] eqn:Hmiss; [| discriminate].
  intros H. apply (inj Some) in H. subst f'.
  destruct (add_review_columns review_columns f1) as [Hext Hcols].
  set (f2 := fold_left _ review_columns f1) in *.
  assert (Hall : forall col, In col (required_columns ++ map fst review_columns) ->
                             has_column f2 col = true).
  { intros col Hcol. apply in_app_or in Hcol. destruct Hcol as [Hreq | Hrev].
    - apply Hext. apply (proj1 (no_missing_column f1 required_columns) Hmiss). exact Hreq.
    - apply Hcols. exact Hrev. }
  split; [eapply frame_extends_trans; eassumption |]. split; [exact Hall |].
  unfold process_loaded_df.
  assert (Hsame : (if forallb (has_column f2) ["rule_result"; "llm_result"; "final_result"]%string
                   then add_if_missing "result"
                          (fun f => column_or_empty f "rule_result")
                          (add_if_missing "behavioral_keywords"
                             (fun f => column_or_empty f "rule_behavioral_keywords")
                             (add_if_missing "mobile_keywords"
                                (fun f => column_or_empty f "rule_mobile_keywords")
                                (add_if_missing "depression_keywords"
                                   (fun f => column_or_empty f "rule_depression_keywords")
                                   f2)))
                   else f2) = f2).
  { destruct (forallb (has_column f2) _); [| reflexivity].
    rewrite (add_if_missing_present "depression_keywords" _ f2) by (apply Hall; cbn; tauto).
    rewrite (add_if_missing_present "mobile_keywords" _ f2) by (apply Hall; cbn; tauto).
    rewrite (add_if_missing_present "behavioral_keywords" _ f2) by (apply Hall; cbn; tauto).
    rewrite (add_if_missing_present "result" _ f2) by (apply Hall; cbn; tauto).
    reflexivity. }
  cbv zeta. rewrite Hsame.
  rewrite (proj2 (no_missing_column f2 required_columns))
    by (intros col Hcol; apply Hall; apply in_or_app; left; exact Hcol).
  rewrite add_review_columns_present
    by (intros col Hcol; apply Hall; apply in_or_app; right; exact Hcol).
  reflexivity.
Qed.

(** ** Title matching: normalized titles and their keywords *)

Lemma forallb_rev {A : Type} (f : A -> bool) (l : list A) :
  forallb f (rev l) = forallb f l.
Proof.
  induction l as [|x l IH]; [reflexivity |].
  cbn [rev forallb]. rewrite forallb_app, IH. cbn [forallb].
  rewrite andb_true_r. apply andb_comm.
Qed.

Lemma lstrip_app (a b : Py.str) :
  lstrip (a ++ b) = if forallb is_space a then lstrip b else lstrip a ++ b.
Proof.
  induction a as [|c a IH]; [reflexivity |].
  cbn [app lstrip forallb]. destruct (is_space c); [exact IH | reflexivity].
Qed.

Lemma rstrip_app (a b : Py.str) :
  rev (lstrip (rev (a ++ b))) =
  if forallb is_space b then rev (lstrip (rev a)) else a ++ rev (lstrip (rev b)).
Proof.
  rewrite rev_app_distr, lstrip_app, forallb_rev.
  destruct (forallb is_space b); [reflexivity |].
  rewrite rev_app_distr, rev_involutive. reflexivity.
Qed.

Lemma rstrip_word (c : ascii) (cur : Py.str) :
  is_space c = false -> rev (lstrip (rev (rev (c :: cur)))) = rev (c :: cur).
Proof.
  intros Hc. rewrite rev_involutive. cbn [lstrip]. rewrite Hc. reflexivity.
Qed.

Lemma split_go_nonempty (s : Py.str) :
  forall c cur, split_go s (c :: cur) <> [].
Proof.
  induction s as [|x s IH]; intros c cur; cbn [split_go]; [discriminate |].
  destruct (is_space x); [discriminate | apply IH].
Qed.

Lemma join_cons (sep w : Py.str) (ws : list Py.str) :
  ws <> [] -> join sep (w :: ws) = w ++ sep ++ join sep ws.
Proof. destruct ws; [contradiction | reflexivity]. Qed.

(** The collapsed text after a word, seen from its right end: in a word
    (first part) and after the space that follows a word (second part). *)
Lemma collapse_words (s : Py.str) :
  (forall c cur, is_space c = false ->
     rev (lstrip (rev (rev (c :: cur) ++ collapse_runs s false))) =
     join (lit " ") (split_go s (c :: cur))) /\
  (forall c cur, is_space c = false ->
     rev (lstrip (rev (rev (c :: cur) ++ " "%char :: collapse_runs s true))) =
     join (lit " ") (rev (c :: cur) :: split_go s [])).
Proof.
  induction s as [|x s [IHB IHC]]; split; intros c cur Hc.
  - cbn [collapse_runs split_go join]. rewrite app_nil_r. apply rstrip_word. exact Hc.
  - cbn [collapse_runs split_go join].
    rewrite rstrip_app. cbn [forallb]. change (is_space " ") with true. cbn [andb].
    apply rstrip_word. exact Hc.
  - cbn [collapse_runs split_go]. destruct (is_space x) eqn:Hx.
    + apply IHC. exact Hc.
    + replace (rev (c :: cur) ++ x :: collapse_runs s false)
        with (rev (x :: c :: cur) ++ collapse_runs s false)
        by (cbn [rev]; rewrite <- !app_assoc; reflexivity).
      apply IHB. exact Hx.
  - cbn [collapse_runs split_go]. destruct (is_space x) eqn:Hx.
    + apply IHC. exact Hc.
    + rewrite rstrip_app.
      assert (Hns : forallb is_space (" "%char :: x :: collapse_runs s false) = false)
        by (cbn [forallb]; rewrite Hx; apply andb_false_r).
      rewrite Hns.
      change (" "%char :: x :: collapse_runs s false)
        with ([" "%char] ++ rev [x] ++ collapse_runs s false).
      rewrite rstrip_app.
      assert (Hns' : forallb is_space (rev [x] ++ collapse_runs s false) = false)
        by (cbn [rev app forallb]; rewrite Hx; reflexivity).
      rewrite Hns', (IHB x [] Hx).
      rewrite join_cons by apply split_go_nonempty. reflexivity.
Qed.

Lemma lstrip_collapse (s : Py.str) :
  forall in_run, lstrip (collapse_runs s in_run) = collapse_runs (lstrip s) false.
Proof.
  induction s as [|x s IH]; intros in_run; [reflexivity |].
  cbn [collapse_runs lstrip]. destruct (is_space x) eqn:Hx.
  - destruct in_run; [apply IH |].
    cbn [lstrip]. change (is_space " ") with true. cbn iota. apply IH.
  - cbn [lstrip collapse_runs]. rewrite Hx. reflexivity.
Qed.

Lemma split_lstrip (s : Py.str) : split_go s [] = split_go (lstrip s) [].
Proof.
  induction s as [|x s IH]; [reflexivity |].
  cbn [split_go lstrip]. destruct (is_space x) eqn:Hx; [exact IH |].
  cbn [split_go]. rewrite Hx. reflexivity.
Qed.

Lemma lstrip_head (s : Py.str) (c : ascii) (s' : Py.str) :
  lstrip s = c :: s' -> is_space c = false.
Proof.
  induction s as [|x s IH]; [discriminate |].
  cbn [lstrip]. destruct (is_space x) eqn:Hx; [exact IH |].
  intros [= <- <-]. exact Hx.
Qed.

(** Collapsing the runs of whitespace and stripping the ends gives the
    words of the text with one space between them. *)
Lemma strip_collapse (s : Py.str) :
  strip (collapse_spaces s) = join (lit " ") (split s).
Proof.
  unfold strip, collapse_spaces, split. rewrite lstrip_collapse, split_lstrip.
  destruct (lstrip s) as [|c s'] eqn:E; [reflexivity |].
  pose proof (lstrip_head s c s' E) as Hc.
  cbn [collapse_runs split_go]. rewrite Hc.
  exact (proj1 (collapse_words s') c [] Hc).
Qed.

Lemma split_go_word (w : Py.str) :
  Forall (fun c => is_space c = false) w ->
  forall rest cur, split_go (w ++ rest) cur = split_go rest (rev w ++ cur).
Proof.
  induction 1 as [|c w Hc _ IH]; intros rest cur; [reflexivity |].
  cbn [app split_go rev]. rewrite Hc, IH, <- app_assoc. reflexivity.
Qed.

Lemma split_join (ws : list Py.str) :
  Forall (fun w => w <> [] /\ Forall (fun c => is_space c = false) w) ws ->
  split (join (lit " ") ws) = ws.
Proof.
  unfold split. induction 1 as [|w ws [Hne Hw] Hws IH]; [reflexivity |].
  assert (Hrev : exists c cur, rev w ++ [] = c :: cur).
  { rewrite app_nil_r. destruct (rev w) as [|c cur] eqn:E; [| eauto].
    apply (f_equal (@rev ascii)) in E. rewrite rev_involutive in E. contradiction. }
  destruct Hrev as (c & cur & Hrev).
  assert (Hback : rev (c :: cur) = w).
  { rewrite <- Hrev, app_nil_r. apply rev_involutive. }
  destruct ws as [|w2 ws].
  - cbn [join]. rewrite <- (app_nil_r w) at 1.
    rewrite (split_go_word w Hw), Hrev. cbn [split_go]. rewrite Hback. reflexivity.
  - rewrite join_cons by discriminate.
    rewrite (split_go_word w Hw), Hrev.
    change (lit " " ++ join (lit " ") (w2 :: ws))
      with (" "%char :: join (lit " ") (w2 :: ws)).
    cbn [split_go]. change (is_space " ") with true.
    cbn iota. rewrite Hback, IH. reflexivity.
Qed.

Lemma split_go_words (P : ascii -> Prop) (s : Py.str) :
  Forall (fun c => is_space c = true \/ P c) s ->
  forall cur,
    Forall (fun c => P c /\ is_space c = false) cur ->
    Forall (fun w => w <> [] /\ Forall (fun c => P c /\ is_space c = false) w)
      (split_go s cur).
Proof.
  induction 1 as [|x s Hx _ IH]; intros cur Hcur; cbn [split_go].
  - destruct cur as [|c cur]; constructor; [| constructor].
    split.
    + intros E. apply (f_equal (@length ascii)) in E.
      rewrite length_rev in E. discriminate E.
    + apply Forall_rev. exact Hcur.
  - destruct (is_space x) eqn:Ex.
    + destruct cur as [|c cur]; [apply IH; constructor |].
      constructor; [| apply IH; constructor]. split.
      * intros E. apply (f_equal (@length ascii)) in E.
        rewrite length_rev in E. discriminate E.
      * apply Forall_rev. exact Hcur.
    + apply IH. constructor; [| exact Hcur].
      destruct Hx as [Hx | Hx]; [congruence | tauto].
Qed.

Lemma blank_lower_char (c : ascii) :
  let b := if is_word (lower_char c) || is_space (lower_char c)
           then lower_char c else " "%char in
  is_space b = true \/ (is_word b = true /\ is_upper b = false).
Proof. each_char c; vm_compute; auto. Qed.

Lemma word_char_fixed (c : ascii) :
  is_word c = true /\ is_upper c = false ->
  is_space c = false /\ lower_char c = c /\
  (if is_word c || is_space c then c else " "%char) = c.
Proof.
  intros [Hw Hu]. unfold lower_char. rewrite Hu, Hw. cbn [orb].
  split; [| tauto]. revert Hw. each_char c; vm_compute; auto.
Qed.

Lemma normalize_title_words (title : Py.str) :
  normalize_title title = join (lit " ") (split (blank_punctuation (lower title))) /\
  Forall proper_word (split (blank_punctuation (lower title))).
Proof.
  split.
  - destruct title as [|c title]; [reflexivity |].
    unfold normalize_title. apply strip_collapse.
  - assert (H : Forall (fun w => w <> [] /\
                  Forall (fun c => (is_word c = true /\ is_upper c = false) /\
                                   is_space c = false) w)
                  (split (blank_punctuation (lower title)))).
    { apply split_go_words; [| constructor].
      unfold blank_punctuation, lower. rewrite map_map.
      induction title as [|c title IH]; cbn [map]; constructor; [| exact IH].
      apply blank_lower_char. }
    rewrite List.Forall_forall in *. intros w Hw. destruct (H w Hw) as [Hne Hchars].
    split; [exact Hne |]. rewrite List.Forall_forall in *. intros c Hc.
    apply Hchars. exact Hc.
Qed.

Lemma join_words_fixed (ws : list Py.str) :
  Forall proper_word ws ->
  blank_punctuation (lower (join (lit " ") ws)) = join (lit " ") ws /\
  split (join (lit " ") ws) = ws.
Proof.
  intros Hws. split.
  - assert (Hfix : forall s : Py.str,
              Forall (fun c => (is_word c = true /\ is_upper c = false) \/ c = " "%char) s ->
              blank_punctuation (lower s) = s).
    { intros s Hs. unfold blank_punctuation, lower. rewrite map_map.
      induction Hs as [|c s Hc _ IH]; [reflexivity |].
      cbn [map]. rewrite IH. f_equal.
      destruct Hc as [Hc | ->]; [| reflexivity].
      destruct (word_char_fixed c Hc) as (_ & -> & ->). reflexivity. }
    apply Hfix. induction Hws as [|w ws [_ Hw] Hws IH]; [constructor |].
    assert (Hw' : Forall (fun c => (is_word c = true /\ is_upper c = false) \/ c = " "%char) w).
    { rewrite List.Forall_forall in *. intros c Hc. left. apply Hw. exact Hc. }
    destruct ws as [|w2 ws]; [exact Hw' |].
    rewrite join_cons by discriminate.
    apply Forall_app. split; [exact Hw' |].
    constructor; [right; reflexivity | exact IH].
  - apply split_join. rewrite List.Forall_forall in *. intros w Hw.
    destruct (Hws w Hw) as [Hne Hchars]. split; [exact Hne |].
    rewrite List.Forall_forall in *. intros c Hc.
    apply (word_char_fixed c (Hchars c Hc)).
Qed.

Lemma normalize_title_idem (title : Py.str) :
  normalize_title (normalize_title title) = normalize_title title /\
  split (normalize_title title) = split (blank_punctuation (lower title)).
Proof.
  destruct (normalize_title_words title) as [Hn Hws].
  destruct (join_words_fixed _ Hws) as [Hfix Hsplit].
  split; [| rewrite Hn; exact Hsplit].
  rewrite (proj1 (normalize_title_words (normalize_title title))).
  rewrite Hn at 1. rewrite Hfix, Hsplit. symmetry. exact Hn.
Qed.

(** X19. Normalized titles.  The normalized form of a title is made of
    words of digits, lower-case letters and underscores with exactly one
    space between them, these words are what [split] gives back, and
    normalizing it again changes nothing: so the titles normalized before
    [calculate_similarity] is called go through its own normalization
    unchanged. *)
Theorem normalize_title_normal_form (title : Py.str) :
  exists words,
    normalize_title title = join (lit " ") words /\
    Forall proper_word words /\
    split (normalize_title title) = words /\
    normalize_title (normalize_title title) = normalize_title title.
Proof.
  destruct (normalize_title_words title) as [Hn Hws].
  destruct (normalize_title_idem title) as [Hidem Hsplit].
  exists (split (blank_punctuation (lower title))). tauto.
Qed.

(** X20. The keywords of a title.  They are words of its normalized form,
    in order, each made of digits, lower-case letters and underscores, each
    at least [min_length] characters long and none a stop word; and the
    keywords of the normalized title are the keywords of the title. *)
Theorem extract_keywords_of_normalized (title : Py.str) (min_length : nat) :
  extract_keywords (normalize_title title) min_length = extract_keywords title min_length /\
  sublist (extract_keywords title min_length) (split (normalize_title title)) /\
  Forall (fun w => proper_word w /\ min_length <= length w /\ mem w stopwords = false)
    (extract_keywords title min_length).
Proof.
  destruct (normalize_title_words title) as [Hn Hws].
  destruct (normalize_title_idem title) as [Hidem Hsplit].
  assert (Hdef : forall t : Py.str,
            extract_keywords t min_length =
            List.filter (fun word => negb (mem word stopwords) && (min_length <=? length word))
              (split (normalize_title t))).
  { intros [|c t]; reflexivity. }
  split; [| split].
  - rewrite !Hdef, Hidem. reflexivity.
  - rewrite Hdef. apply filter_sublist.
  - rewrite Hdef, Hsplit. rewrite List.Forall_forall in *. intros w Hw.
    apply filter_In in Hw. destruct Hw as [Hin Hok].
    apply andb_true_iff in Hok. destruct Hok as [Hstop Hlen].
    split; [apply Hws; exact Hin |]. split.
    + apply Nat.leb_le. exact Hlen.
    + apply negb_true_iff. exact Hstop.
Qed.

(** ** Keyword cells *)

Lemma split_on_word (sep : ascii -> bool) (w : Py.str) :
  Forall (fun c => sep c = false) w ->
  forall rest cur, split_on sep (w ++ rest) cur = split_on sep rest (rev w ++ cur).
Proof.
  induction 1 as [|c w Hc _ IH]; intros rest cur; [reflexivity |].
  cbn [app split_on rev]. rewrite Hc, IH, <- app_assoc. reflexivity.
Qed.

Lemma split_on_join (ks : list Py.str) (k1 : Py.str) :
  Forall (fun k => Forall (fun c => is_separator c = false) k) (k1 :: ks) ->
  forall cur,
    split_on is_separator (join (lit ", ") (k1 :: ks)) cur =
    (rev cur ++ k1) :: map (cons " "%char) ks.
Proof.
  revert k1. induction ks as [|k2 ks IH]; intros k1 Hks cur.
  - cbn [join map]. rewrite <- (app_nil_r k1) at 1.
    rewrite split_on_word by (inversion Hks; assumption).
    cbn [split_on]. rewrite rev_app_distr, rev_involutive. reflexivity.
  - rewrite join_cons by discriminate.
    inversion Hks as [|? ? Hk1 Hrest]; subst.
    rewrite split_on_word by exact Hk1.
    change (lit ", " ++ join (lit ", ") (k2 :: ks))
      with (","%char :: " "%char :: join (lit ", ") (k2 :: ks)).
    cbn [split_on]. change (is_separator ",") with true.
    change (is_separator " ") with false. cbn iota.
    rewrite rev_app_distr, rev_involutive.
    rewrite (IH k2 Hrest). reflexivity.
Qed.

Lemma strip_clean (k : Py.str) :
  clean_keyword k -> strip k = k /\ strip (" "%char :: k) = k.
Proof.
  intros (Hne & Hfirst & Hlast & _).
  assert (H : strip k = k).
  { unfold strip. destruct k as [|c k]; [contradiction |].
    cbn [hd] in Hfirst. cbn [lstrip]. rewrite Hfirst.
    destruct (rev (c :: k)) as [|d r] eqn:E.
    - apply (f_equal (@rev ascii)) in E. rewrite rev_involutive in E. discriminate E.
    - cbn [hd] in Hlast. cbn [lstrip]. rewrite Hlast, <- E. apply rev_involutive. }
  split; [exact H |].
  unfold strip in *. cbn [lstrip]. change (is_space " ") with true. cbn iota. exact H.
Qed.

Lemma strip_not_blank (s : Py.str) (c : ascii) (s' : Py.str) :
  lstrip s = c :: s' -> strip s <> [].
Proof.
  intros E. pose proof (lstrip_head s c s' E) as Hc.
  unfold strip. rewrite E. cbn [rev]. rewrite lstrip_app.
  intros H. apply (f_equal (@length ascii)) in H. rewrite length_rev in H.
  destruct (forallb is_space (rev s')).
  - cbn [lstrip] in H. rewrite Hc in H. discriminate H.
  - rewrite length_app in H. cbn [length] in H. lia.
Qed.

(** X21. A keyword cell and its keywords.  Joining keywords with ", ", as
    the rule stage and the review decisions write their keyword cells, and
    parsing the cell gives the keywords back, in order, as long as each
    keyword is non-empty, has no whitespace at its ends and none of the
    separators comma, semicolon and bar inside. *)
Theorem parse_keywords_join (ks : list Py.str) :
  Forall clean_keyword ks ->
  parse_keywords (Str (RuleStage.string_of (join (lit ", ") ks))) = ks.
Proof.
  intros Hks. unfold parse_keywords, RuleStage.text_of, RuleStage.string_of.
  rewrite list_ascii_of_string_of_list_ascii.
  destruct ks as [|k1 ks]; [reflexivity |].
  assert (Hsep : Forall (fun k => Forall (fun c => is_separator c = false) k) (k1 :: ks)).
  { rewrite List.Forall_forall in *. intros k Hk. apply (Hks k Hk). }
  assert (Hfilled : nonempty (strip (join (lit ", ") (k1 :: ks))) = true).
  { inversion Hks as [|? ? (Hne & Hfirst & _) _]; subst.
    destruct k1 as [|c k1]; [contradiction |]. cbn [hd] in Hfirst.
    assert (E : lstrip (join (lit ", ") ((c :: k1) :: ks)) =
                c :: (k1 ++ match ks with [] => [] | _ => lit ", " ++ join (lit ", ") ks end)).
    { destruct ks as [|k2 ks].
      - cbn [join lstrip]. rewrite Hfirst, app_nil_r. reflexivity.
      - rewrite join_cons by discriminate. cbn [app lstrip]. rewrite Hfirst. reflexivity. }
    pose proof (strip_not_blank _ _ _ E) as Hs.
    destruct (strip _); [contradiction | reflexivity]. }
  rewrite Hfilled, (split_on_join ks k1 Hsep []). cbn [rev app map].
  inversion Hks as [|? ? Hk1 Hrest]; subst.
  rewrite (proj1 (strip_clean k1 Hk1)). cbn [List.filter].
  assert (Hn1 : nonempty k1 = true) by (destruct Hk1 as [Hne _]; destruct k1; [contradiction | reflexivity]).
  rewrite Hn1. f_equal.
  clear Hfilled Hsep Hks Hk1 Hn1. induction Hrest as [|k ks Hk _ IH]; [reflexivity |].
  cbn [map List.filter]. rewrite (proj2 (strip_clean k Hk)).
  assert (Hn : nonempty k = true) by (destruct Hk as [Hne _]; destruct k; [contradiction | reflexivity]).
  rewrite Hn, IH. reflexivity.
Qed.

(** ** Instances of the second-pass properties *)

(** The second pass on a frame with one included and two excluded records. *)
Lemma second_pass_frame_witness :
  exists final,
    LLMSecondaryFilter.process_exclude_papers demo_chain demo_llm demo_no_json
      demo_input None = Some final /\
    exists included results,
      final = included ++ results /\
      length included = rule_include_count demo_input /\
      Forall passed_through included /\
      length results = rule_exclude_count demo_input /\
      Forall excluded_result results /\
      length final = rule_include_count demo_input + rule_exclude_count demo_input /\
      final_include_count final = rule_include_count demo_input + rescue_count final.
Proof.
  destruct (LLMSecondaryFilter.process_exclude_papers demo_chain demo_llm demo_no_json
              demo_input None) as [final|] eqn:E.
  - exists final. split; [reflexivity |].
    apply (second_pass_frame demo_chain demo_llm demo_no_json demo_input None final).
    + vm_compute. discriminate.
    + exact I.
    + exact E.
  - apply (f_equal (fun o : option (list row) => bool_decide (is_Some o))) in E.
    vm_compute in E. discriminate E.
Defined.

(** The same frame, restarted with one loaded record. *)
Lemma resume_from_checkpoint_witness :
  exists final,
    LLMSecondaryFilter.process_exclude_papers demo_chain demo_llm demo_no_json
      demo_input None = Some final /\
    LLMSecondaryFilter.process_exclude_papers demo_chain demo_llm demo_no_json
      demo_input (Some [demo_reply])
    = Some (firstn (rule_include_count demo_input) final ++ [demo_reply] ++
            skipn (rule_include_count demo_input + length [demo_reply]) final).
Proof.
  destruct (LLMSecondaryFilter.process_exclude_papers demo_chain demo_llm demo_no_json
              demo_input None) as [final|] eqn:E.
  - exists final. split; [reflexivity |].
    apply (resume_from_checkpoint demo_chain demo_llm demo_no_json demo_input final
             [demo_reply]).
    + vm_compute. discriminate.
    + exact E.
  - apply (f_equal (fun o : option (list row) => bool_decide (is_Some o))) in E.
    vm_compute in E. discriminate E.
Defined.

(** A raw reply that parses to a dictionary whose verdict is "include". *)
Lemma dict_reply_is_copied_witness :
  exists result,
    LLMSecondaryFilter.process_row demo_no_chain demo_llm demo_json demo_row
      = Some result /\
    result !! "rule_result"%string = Some (Str "exclude") /\
    result !! "llm_result"%string = Some (get demo_reply "result" (Str "exclude")) /\
    result !! "final_result"%string = Some (get demo_reply "result" (Str "exclude")) /\
    result !! "llm_reason"%string = Some (get demo_reply "reason" (Str "")).
Proof.
  apply (dict_reply_is_copied demo_no_chain demo_llm demo_json demo_row demo_reply).
  - vm_compute. reflexivity.
  - reflexivity.
  - intros H. apply (f_equal (fun d : row => d !! "result"%string)) in H.
    vm_compute in H. discriminate H.
Defined.

(** A record without title, with two different sets of collaborators. *)
Lemma missing_text_skips_llm_witness :
  exists result,
    LLMSecondaryFilter.process_row demo_chain demo_llm demo_no_json demo_untitled_row
      = Some result /\
    LLMSecondaryFilter.process_row demo_no_chain demo_llm demo_json demo_untitled_row
      = Some result /\
    result !! "llm_result"%string = Some (Str "exclude") /\
    result !! "llm_reason"%string = Some (Str "제목 또는 초록 누락") /\
    result !! "final_result"%string = Some (Str "exclude").
Proof.
  apply (missing_text_skips_llm demo_chain demo_no_chain demo_llm demo_llm
           demo_no_json demo_json demo_untitled_row).
  vm_compute. reflexivity.
Defined.

(** A reply with prose around a fenced block. *)
Lemma json_block_fenced_witness :
  json_block (Py.lit "Here it is: " ++ Py.lit "```json" ++ Py.lit " {} " ++
              Py.lit "```" ++ Py.lit " Done.") = Py.strip (Py.lit " {} ").
Proof.
  apply (json_block_fenced (Py.lit "Here it is: ") (Py.lit " {} ") (Py.lit " Done."));
    vm_compute; repeat constructor; discriminate.
Defined.

(** A reply whose fenced block is not closed. *)
Lemma json_block_unclosed_fence_witness :
  json_block (Py.lit "Here it is: " ++ Py.lit "```json" ++ Py.lit " {}") =
  Py.strip (removelast (Py.lit " {}")).
Proof.
  apply (json_block_unclosed_fence (Py.lit "Here it is: ") (Py.lit " {}"));
    vm_compute; repeat constructor; discriminate.
Defined.

(** A reply with prose around an object. *)
Lemma json_block_braces_witness :
  json_block (Py.lit "Sure. " ++ "{"%char :: Py.lit " } { " ++ "}"%char :: Py.lit " Bye.")
  = "{"%char :: Py.lit " } { " ++ ["}"%char].
Proof.
  apply (json_block_braces (Py.lit "Sure. ") (Py.lit " } { ") (Py.lit " Bye.")).
  - vm_compute. reflexivity.
  - vm_compute. repeat constructor; discriminate.
  - vm_compute. repeat constructor; discriminate.
Defined.

(** The highlighter on a selection of three plain keywords and a
    template. *)
Lemma highlight_offered_keywords_witness :
  exists out,
    highlight_tracked true demo_text demo_selection = Some out /\
    highlight_all_keywords true demo_text demo_selection = Some (erase out) /\
    strip_markers out = demo_text.
Proof.
  apply (highlight_offered_keywords true demo_text demo_selection).
  unfold offered_selection, demo_selection.
  repeat (apply List.Forall_cons; cbn [snd]); try apply List.Forall_nil;
    first [ left; split; [discriminate | reflexivity]
          | right; cbn; tauto ].
Defined.

(** The candidate "Mobile app" loses against "app", which starts later. *)
Lemma dropped_match_overlaps_kept_witness :
  In demo_dropped demo_kept \/
  exists m', In m' demo_kept /\ overlaps demo_dropped m' = true /\
             m_start demo_dropped <= m_start m'.
Proof.
  destruct (collect_matches true demo_text demo_selection) as [all_matches|] eqn:E.
  - apply (dropped_match_overlaps_kept true demo_text demo_selection all_matches
             demo_kept demo_dropped E).
    + vm_compute. reflexivity.
    + vm_compute in E. apply (inj Some) in E. subst all_matches.
      cbn [In]. unfold demo_dropped. tauto.
  - vm_compute in E. discriminate E.
Defined.

(** The three decisions on the tenth of twelve records. *)
Lemma decision_is_consistent_witness :
  (forall st', update_paper_data "2025-01-01 00:00:00" demo_session = Some st' ->
     decision_ok (row_at (df st') (current_idx demo_session))) /\
  decision_ok (row_at (df (force_include "2025-01-01 00:00:00" demo_session))
                 (current_idx demo_session)) /\
  decision_ok (row_at (df (force_exclude "2025-01-01 00:00:00" demo_session))
                 (current_idx demo_session)).
Proof.
  apply (decision_is_consistent "2025-01-01 00:00:00" demo_session).
  intros category s H. cbn [demo_session selected_keywords] in H.
  unfold load_current_paper_keywords in H.
  repeat (apply lookup_insert_Some in H;
          destruct H as [[_ <-] | [_ H]];
          [apply (bool_decide_unpack _); vm_compute; reflexivity |]).
  apply lookup_singleton_Some in H. destruct H as [_ <-].
  apply (bool_decide_unpack _). vm_compute. reflexivity.
Defined.


(** Toggling "app" in the category "mobile", twice. *)
Lemma toggle_twice_witness :
  exists st',
    toggle_keyword_selection "mobile" "app" demo_session = Some st' /\
    toggle_keyword_selection "mobile" "app" st' = Some demo_session.
Proof.
  destruct (toggle_keyword_selection "mobile" "app" demo_session) as [st'|] eqn:E.
  - exists st'. split; [reflexivity |].
    exact (toggle_twice "mobile" "app" demo_session st' E).
  - apply (f_equal (fun o : option session => bool_decide (is_Some o))) in E.
    vm_compute in E. discriminate E.
Defined.

(** An abstract of 10001 characters keeps its 10001 characters. *)
Lemma clean_row_never_truncates_witness :
  exists cleaned,
    clean_row demo_long_row !! "Abstract"%string = Some (Str cleaned) /\
    RuleStage.text_of cleaned =
      flatten_newlines (RuleStage.text_of (RuleStage.string_of (repeat "a"%char 10001))) /\
    String.length cleaned =
      String.length (RuleStage.string_of (repeat "a"%char 10001)).
Proof.
  apply (clean_row_never_truncates demo_long_row "Abstract"
           (Str (RuleStage.string_of (repeat "a"%char 10001)))).
  unfold demo_long_row. apply lookup_insert_eq.
Defined.

(** A frame written by the pipeline is accepted, completed and stable. *)
Lemma process_loaded_df_stable_witness :
  exists f',
    process_loaded_df demo_hybrid_frame = Some f' /\
    frame_extends demo_hybrid_frame f' /\
    (forall col, In col (required_columns ++ map fst review_columns) ->
       has_column f' col = true) /\
    process_loaded_df f' = Some f'.
Proof.
  destruct (process_loaded_df demo_hybrid_frame) as [f'|] eqn:E.
  - exists f'. split; [reflexivity |].
    exact (process_loaded_df_stable demo_hybrid_frame f' E).
  - apply (f_equal (fun o : option frame => bool_decide (is_Some o))) in E.
    vm_compute in E. discriminate E.
Defined.

(** The cell "mobile, smartphone application, app". *)
Lemma parse_keywords_join_witness :
  parse_keywords
    (Str (RuleStage.string_of
            (join (lit ", ") [lit "mobile"; lit "smartphone application"; lit "app"])))
  = [lit "mobile"; lit "smartphone application"; lit "app"].
Proof.
  apply (parse_keywords_join [lit "mobile"; lit "smartphone application"; lit "app"]).
  repeat constructor; try discriminate; vm_compute; reflexivity.
Defined.
